(** * PrivShare on 0G Storage: share codes, pointer resolution and segmented retrieval

    A shallow embedding of the TypeScript sources
    - [src/lib/ipfs-mapping.ts] (both revisions: the Pinata-backed one and the
      0G-backed one),
    - [src/lib/0g-storage.ts] (class [ZgStorageService]),
    - [src/hooks/useFileDownload.ts] and [src/hooks/useFilePreview.ts],
    followed by the properties established about them.

    JavaScript strings are modelled as [string] (a sequence of 8-bit code
    units; every character the share-code grammar accepts is ASCII), numbers
    that the code keeps integral as [Z], and the two places where the code
    divides before rounding ([Math.ceil (size / 256)], [Math.floor (random *
    36)]) as exact rationals [Q].  External collaborators (the storage SDK,
    the Pinata HTTP API, [localStorage], the cipher) are fields of an
    environment record; every call to one of them is recorded in a trace. *)

From Stdlib Require Import ZArith QArith Qround Ascii String DecimalString List Bool Lia.
From Stdlib Require HexadecimalString.
From stdpp Require Import base option gmap strings list.

Import ListNotations.
Local Open Scope list_scope.
Local Open Scope string_scope.

(** String concatenation computes on its first argument. *)
#[local] Arguments String.append !s1 s2 : simpl nomatch.

(* ===================================================================== *)
(** * Part I: definitions *)
(* ===================================================================== *)

(** ** JavaScript values the code relies on *)

Module Js.

(** What a [throw] carries: an [Error] object with its message, or any
    other value ([error instanceof Error] is false). *)
Inductive thrown : Type :=
| JsError (message : string)
| NonError.

(** Outcome of a call that may throw (or of an awaited promise that may
    reject). *)
Inductive result (A : Type) : Type :=
| Ok (a : A)
| Throw (e : thrown).
Arguments Ok {A} a.
Arguments Throw {A} e.

Definition is_ok {A} (r : result A) : bool :=
  match r with Ok _ => true | Throw _ => false end.

(** [error instanceof Error ? error.message : 'Unknown error'] *)
Definition message_of (e : thrown) : string :=
  match e with
  | JsError m => m
  | NonError => "Unknown error"
  end.

(** Truthiness of a string: [!!s]. *)
Definition truthy_string (s : string) : bool :=
  match s with EmptyString => false | String _ _ => true end.

(** Truthiness of an optional string field ([undefined] when absent). *)
Definition truthy (o : option string) : bool :=
  match o with
  | Some s => truthy_string s
  | None => false
  end.

(** [a || b] on an optional string and a default. *)
Definition or_else (o : option string) (d : string) : string :=
  match o with
  | Some s => if truthy_string s then s else d
  | None => d
  end.

(** [s.charAt(i)]: the empty string when [i] is out of range. *)
Definition charAt (s : string) (i : Z) : string :=
  if (i <? 0)%Z then ""
  else match String.get (Z.to_nat i) s with
       | Some c => String c EmptyString
       | None => ""
       end.

(** [acc += s[i]]: out of range [s[i]] is [undefined], which string
    concatenation renders as the text "undefined". *)
Definition index_text (s : string) (i : Z) : string :=
  if (i <? 0)%Z then "undefined"
  else match String.get (Z.to_nat i) s with
       | Some c => String c EmptyString
       | None => "undefined"
       end.

(** [Math.floor(r * n)] on exact rationals. *)
Definition floor_mul (r : Q) (n : nat) : Z :=
  Qfloor (r * inject_Z (Z.of_nat n)).

(** [arr.join(sep)] *)
Fixpoint join (sep : string) (l : list string) : string :=
  match l with
  | [] => ""
  | [x] => x
  | x :: rest => x ++ sep ++ join sep rest
  end.

(** [s.replace(pat, '')] with a string pattern: the first occurrence of
    [pat] is removed, the string is unchanged when there is none. *)
Fixpoint replace_first (pat s : string) : string :=
  if String.prefix pat s then
    String.substring (String.length pat) (String.length s - String.length pat) s
  else match s with
       | EmptyString => EmptyString
       | String c rest => String c (replace_first pat rest)
       end.

End Js.

(** ** The fragment of regular expressions the share-code patterns use

    Literals, character classes given by ranges, concatenation and exact
    repetition [r{n}].  Every such expression matches prefixes of one fixed
    length only, so matching is deterministic: [match_re r s] is the rest of
    [s] after the match, when there is one. *)

Module Regex.

Inductive regex : Type :=
| Lit (c : ascii)
| Class (ranges : list (ascii * ascii))
| Seq (r1 r2 : regex)
| Repeat (n : nat) (r : regex).

Definition in_range (c : ascii) (rg : ascii * ascii) : bool :=
  (nat_of_ascii (fst rg) <=? nat_of_ascii c)%nat
  && (nat_of_ascii c <=? nat_of_ascii (snd rg))%nat.

Definition in_class (ranges : list (ascii * ascii)) (c : ascii) : bool :=
  existsb (in_range c) ranges.

(** A literal piece of pattern text, character by character. *)
Fixpoint text (s : string) (k : regex) : regex :=
  match s with
  | EmptyString => k
  | String c rest => Seq (Lit c) (text rest k)
  end.

Fixpoint match_re (r : regex) (s : string) : option string :=
  match r with
  | Lit c =>
      match s with
      | String a rest => if Ascii.eqb a c then Some rest else None
      | EmptyString => None
      end
  | Class ranges =>
      match s with
      | String a rest => if in_class ranges a then Some rest else None
      | EmptyString => None
      end
  | Seq r1 r2 =>
      match match_re r1 s with
      | Some rest => match_re r2 rest
      | None => None
      end
  | Repeat n r1 =>
      (fix rep (k : nat) (t : string) : option string :=
         match k with
         | O => Some t
         | S k' => match match_re r1 t with
                   | Some rest => rep k' rest
                   | None => None
                   end
         end) n s
  end.

(** [/^r$/.test(s)]: the match starts at the first character and must
    consume the whole input (no [m] flag, so [$] is the end of input). *)
Definition test_anchored (r : regex) (s : string) : bool :=
  match match_re r s with
  | Some EmptyString => true
  | _ => false
  end.

(** [s.match(/.{1,4}/g)]: greedy pieces of at most [width] characters; a
    line terminator is matched by no [.] and so ends the current piece.
    [cur] is the piece being built and [room] what is left of its width. *)
Definition is_line_terminator (c : ascii) : bool :=
  (nat_of_ascii c =? 10)%nat || (nat_of_ascii c =? 13)%nat.

Definition flush (cur : string) (acc : list string) : list string :=
  match cur with EmptyString => acc | _ => (acc ++ [cur])%list end.

Fixpoint pieces (width : nat) (s : string) (cur : string) (room : nat)
         (acc : list string) : list string :=
  match s with
  | EmptyString => flush cur acc
  | String c rest =>
      if is_line_terminator c then pieces width rest "" width (flush cur acc)
      else match room with
           | S (S room') => pieces width rest (cur ++ String c "") (S room') acc
           | _ => pieces width rest "" width (acc ++ [(cur ++ String c "")%string])%list
           end
  end.

(** [null] when nothing matched. *)
Definition match_all_dot_1_4 (s : string) : option (list string) :=
  match pieces 4 s "" 4 [] with
  | [] => None
  | l => Some l
  end.

End Regex.

(** ** Effects: the world the code runs in, and what it did to it *)

Module Effects.

Import Js.

(** Calls that leave the page.  Everything the code asks of a collaborator
    over the network is one of these. *)
Inductive event : Type :=
| EvSdkLoad                                        (* script tag for the SDK bundle *)
| EvHttp (method url : string)                     (* fetch(...) to Pinata *)
| EvGetFileLocations (rootHash : string)           (* indexer.getFileLocations *)
| EvGetFileInfo (node : nat) (rootHash : string)   (* node.getFileInfo *)
| EvQueryFile (rootHash : string)                  (* downloader.queryFile *)
| EvGetShardConfig (node : nat)                    (* node.getShardConfig *)
| EvDownloadTask (taskInd : nat)                   (* downloader.downloadTask *)
| EvDownloadSegment (node : nat) (txSeq startIndex endIndex : Z)
                                                   (* node.downloadSegmentByTxSeq *)
| EvRpc (what : string)                            (* signer / provider JSON-RPC *)
| EvIndexerUpload                                  (* indexer.upload *)
| EvDecrypt (ciphertext : list Byte.byte) (key iv : string).
                                                   (* decryptFileFromBlob, local *)

Definition is_network (ev : event) : bool :=
  match ev with
  | EvDecrypt _ _ _ => false
  | _ => true
  end.

(** [DownloadInfo] of the download hook (React state). *)
Record DownloadInfo : Type := {
  di_fileName : string;
  di_fileSize : Z;
  di_mimeType : string;
  di_isEncrypted : bool;
  di_encryptionKey : option string;
  di_iv : option string;
  di_uploader : string
}.

Record world : Type := {
  localStorage : gmap string string;   (* window.localStorage *)
  sdk_on_window : bool;                (* window.zgstorage is set *)
  indexer_set : bool;                  (* this.indexer of the service is set *)
  downloadInfo : option DownloadInfo;  (* state of the download hook *)
  trace : list event                   (* calls made so far, oldest first *)
}.

Definition Eff (A : Type) : Type := world -> result A * world.

Definition ret {A} (a : A) : Eff A := fun w => (Ok a, w).

Definition throw {A} (e : thrown) : Eff A := fun w => (Throw e, w).

(** [throw new Error(msg)] *)
Definition throw_error {A} (msg : string) : Eff A := throw (JsError msg).

Definition bind {A B} (m : Eff A) (k : A -> Eff B) : Eff B :=
  fun w => match m w with
           | (Ok a, w') => k a w'
           | (Throw e, w') => (Throw e, w')
           end.

(** [try { m } catch (error) { handler error }] *)
Definition try_catch {A} (m : Eff A) (handler : thrown -> Eff A) : Eff A :=
  fun w => match m w with
           | (Ok a, w') => (Ok a, w')
           | (Throw e, w') => handler e w'
           end.

(** The outcome of [m] as a value, for loops whose body swallows errors. *)
Definition attempt {A} (m : Eff A) : Eff (result A) :=
  fun w => match m w with (r, w') => (Ok r, w') end.

(** A call to a collaborator: it is recorded, and its outcome is the one
    the environment gives. *)
Definition log (evs : list event) (w : world) : world :=
  {| localStorage := localStorage w;
     sdk_on_window := sdk_on_window w;
     indexer_set := indexer_set w;
     downloadInfo := downloadInfo w;
     trace := (trace w ++ evs)%list |}.

Definition call {A} (ev : event) (outcome : result A) : Eff A :=
  fun w => (outcome, log [ev] w).

(** A computation inside the page that may throw; nothing is recorded. *)
Definition lift {A} (outcome : result A) : Eff A := fun w => (outcome, w).

Definition get_world : Eff world := fun w => (Ok w, w).

Definition set_localStorage (ls : gmap string string) : Eff unit :=
  fun w => (Ok tt,
            {| localStorage := ls;
               sdk_on_window := sdk_on_window w;
               indexer_set := indexer_set w;
               downloadInfo := downloadInfo w;
               trace := trace w |}).

Definition set_sdk_on_window (b : bool) : Eff unit :=
  fun w => (Ok tt,
            {| localStorage := localStorage w;
               sdk_on_window := b;
               indexer_set := indexer_set w;
               downloadInfo := downloadInfo w;
               trace := trace w |}).

Definition set_indexer (b : bool) : Eff unit :=
  fun w => (Ok tt,
            {| localStorage := localStorage w;
               sdk_on_window := sdk_on_window w;
               indexer_set := b;
               downloadInfo := downloadInfo w;
               trace := trace w |}).

Definition setDownloadInfo (d : option DownloadInfo) : Eff unit :=
  fun w => (Ok tt,
            {| localStorage := localStorage w;
               sdk_on_window := sdk_on_window w;
               indexer_set := indexer_set w;
               downloadInfo := d;
               trace := trace w |}).

Definition network_calls (w : world) : list event :=
  List.filter is_network (trace w).

(** A fresh page: nothing cached, nothing loaded, nothing called yet. *)
Definition fresh : world :=
  {| localStorage := ∅; sdk_on_window := false; indexer_set := false;
     downloadInfo := None; trace := [] |}.

End Effects.

Declare Scope eff_scope.
Delimit Scope eff_scope with eff.
Notation "x <- m ;; k" := (Effects.bind m (fun x => k))
  (at level 100, m at next level, right associativity) : eff_scope.
Notation "m ;;; k" := (Effects.bind m (fun _ => k))
  (at level 100, right associativity) : eff_scope.

(** ** [src/lib/ipfs-mapping.ts], share-code part of the Pinata revision *)

Module Pinata.

Definition chars : string := "abcdefghijklmnopqrstuvwxyz0123456789".

(** The [for] loop of [generateRandomShareCode]: [n] draws, starting with
    draw number [k] of the random source [rnd] ([Math.random()]). *)
Fixpoint draw_chars (rnd : nat -> Q) (k n : nat) (acc : string) : string :=
  match n with
  | O => acc
  | S n' =>
      draw_chars rnd (S k) n'
        (acc ++ Js.charAt chars (Js.floor_mul (rnd k) (String.length chars)))
  end.

Definition generateRandomShareCode (rnd : nat -> Q) : string :=
  let result := draw_chars rnd 0 16 "" in
  let grouped :=
    match Regex.match_all_dot_1_4 result with
    | Some l => let j := Js.join "-" l in
                if Js.truthy_string j then j else result
    | None => result
    end in
  let formatted := "0g-" ++ grouped in
  "privshare://" ++ formatted.

Definition alnum : Regex.regex :=
  Regex.Class [("a"%char, "z"%char); ("0"%char, "9"%char)].

(** [/^privshare:\/\/0g-[a-z0-9]{4}-[a-z0-9]{4}-[a-z0-9]{4}-[a-z0-9]{4}$/] *)
Definition pattern : Regex.regex :=
  Regex.text "privshare://0g-"
    (Regex.Seq (Regex.Repeat 4 alnum)
    (Regex.Seq (Regex.Lit "-")
    (Regex.Seq (Regex.Repeat 4 alnum)
    (Regex.Seq (Regex.Lit "-")
    (Regex.Seq (Regex.Repeat 4 alnum)
    (Regex.Seq (Regex.Lit "-")
               (Regex.Repeat 4 alnum))))))).

Definition validateShareCode (shareCode : string) : bool :=
  Regex.test_anchored pattern shareCode.

Definition extractCodeFromShareCode (shareCode : string) : string :=
  Js.replace_first "privshare://0g-" shareCode.

End Pinata.

(** ** [src/lib/ipfs-mapping.ts], share-code part of the 0G revision *)

Module ZgMapping.

Definition SHARE_CODE_PREFIX : string := "privshare://0g-".
Definition SHARE_CODE_BODY_GROUPS : nat := 4.
Definition SHARE_CODE_GROUP_LENGTH : nat := 4.
Definition SHARE_CODE_ALPHABET : string := "abcdefghijklmnopqrstuvwxyz0123456789".

(** [randomGroup]: the loop body run [n] more times from draw number [k];
    returns the group and the number of the next draw. *)
Fixpoint randomGroup_loop (rnd : nat -> Q) (k n : nat) (s : string) : string * nat :=
  match n with
  | O => (s, k)
  | S n' =>
      let idx := Js.floor_mul (rnd k) (String.length SHARE_CODE_ALPHABET) in
      randomGroup_loop rnd (S k) n' (s ++ Js.index_text SHARE_CODE_ALPHABET idx)
  end.

Definition randomGroup (rnd : nat -> Q) (k : nat) : string * nat :=
  randomGroup_loop rnd k SHARE_CODE_GROUP_LENGTH "".

(** [Array.from({ length: n }, () => randomGroup())] *)
Fixpoint groups_from (rnd : nat -> Q) (k n : nat) : list string :=
  match n with
  | O => []
  | S n' => let '(g, k') := randomGroup rnd k in g :: groups_from rnd k' n'
  end.

Definition generateShareCode (rnd : nat -> Q) : string :=
  let groups := Js.join "-" (groups_from rnd 0 SHARE_CODE_BODY_GROUPS) in
  SHARE_CODE_PREFIX ++ groups.

Definition alnum : Regex.regex :=
  Regex.Class [("a"%char, "z"%char); ("0"%char, "9"%char)].

(** [new RegExp(`^${PREFIX}([a-z0-9]{${LEN}}-){${GROUPS - 1}}[a-z0-9]{${LEN}}$`)] *)
Definition pattern : Regex.regex :=
  Regex.text SHARE_CODE_PREFIX
    (Regex.Seq
       (Regex.Repeat (SHARE_CODE_BODY_GROUPS - 1)
          (Regex.Seq (Regex.Repeat SHARE_CODE_GROUP_LENGTH alnum) (Regex.Lit "-")))
       (Regex.Repeat SHARE_CODE_GROUP_LENGTH alnum)).

(** [if (!code || typeof code !== "string") return false] rejects the
    empty string; the argument is a string by its type. *)
Definition validateShareCode (code : string) : bool :=
  if negb (Js.truthy_string code) then false
  else Regex.test_anchored pattern code.

End ZgMapping.

(** ** [src/lib/0g-storage.ts]: class [ZgStorageService] *)

Module ZgStorage.

Import Js Effects.
Local Open Scope eff_scope.

(** [Uint8Array] *)
Definition bytes : Type := list Byte.byte.

(** Decimal text of a number, as a template literal prints it. *)
Definition show (z : Z) : string := NilZero.string_of_int (Z.to_int z).

(** The part of the SDK's file info the service reads. *)
Record fileTx : Type := {
  tx_seq : Z;
  tx_size : Z;
  tx_startEntryIndex : Z
}.

Record fileInfo : Type := {
  finalized : bool;
  tx : option fileTx;
  uploadedSegNum : option Z;
  numSegments : option Z
}.

(** The three methods that look a file up, each with its own calls. *)
Inductive phase : Type := InDownloadFile | InDownloadFileData | InFallback.

(** What happens to the script tag of [loadSDKFromCDN]. *)
Inductive script_outcome : Type :=
| ScriptDefinesSdk        (* onload, window.zgstorage is there *)
| ScriptWithoutSdk        (* onload, window.zgstorage is missing *)
| ScriptError.            (* onerror *)

(** The collaborators: SDK, storage nodes, indexer, wallet.  A node is
    named by its position in the list of locations the indexer returned. *)
Record env : Type := {
  cdn_script : script_outcome;
  new_Indexer : result unit;
  getFileLocations : phase -> string -> result (option (list string));
  getFileInfo : phase -> nat -> string -> result (option fileInfo);
  queryFile : string -> result (option fileInfo * option string);
  getShardConfig : nat -> result unit;
  downloadTask : nat -> Z -> bool -> result (option bytes * option string);
  downloadSegmentByTxSeq : nat -> Z -> Z -> Z -> result (option string);
  decodeBase64 : string -> result bytes;
  getAddress : nat -> result string;       (* by call site, in source order *)
  new_Blob : result unit;
  merkleTree : result (option string * option string);
  getNetwork : result Z;
  getBlockNumber : result unit;
  getFeeData : result unit;
  getBalance : result Z;
  estimateGas : result unit;
  indexer_upload : result (option (option string * option string) * option string)
}.

Record UploadResult : Type := {
  up_success : bool;
  up_txHash : string;
  up_rootHash : string;
  up_error : option string
}.

Record DownloadResult : Type := {
  success : bool;
  data : option bytes;
  error : option string
}.

(** *** Segment arithmetic

    The sizes and indices are integers; a division by 256 or 1024 of an
    integer below 2^53 is exact in binary floating point, so the quotient
    the code rounds is the rational number written here. *)

Definition DEFAULT_CHUNK_SIZE : Z := 256.
Definition DEFAULT_SEGMENT_MAX_CHUNKS : Z := 1024.

(** [Math.ceil(size / DEFAULT_CHUNK_SIZE)] *)
Definition numChunks (size : Z) : Z :=
  Qceiling (inject_Z size / inject_Z DEFAULT_CHUNK_SIZE).

(** [Math.floor(startEntryIndex / DEFAULT_SEGMENT_MAX_CHUNKS)] *)
Definition startSegmentIndex (startEntryIndex : Z) : Z :=
  Qfloor (inject_Z startEntryIndex / inject_Z DEFAULT_SEGMENT_MAX_CHUNKS).

(** [Math.floor((startEntryIndex + numChunks - 1) / DEFAULT_SEGMENT_MAX_CHUNKS)] *)
Definition endSegmentIndex (startEntryIndex size : Z) : Z :=
  Qfloor (inject_Z (startEntryIndex + numChunks size - 1)
          / inject_Z DEFAULT_SEGMENT_MAX_CHUNKS).

Definition numTasks (startEntryIndex size : Z) : Z :=
  endSegmentIndex startEntryIndex size - startSegmentIndex startEntryIndex + 1.

(** The values [taskInd] takes in [for (taskInd = 0; taskInd < numTasks; taskInd++)]. *)
Definition task_indices (startEntryIndex size : Z) : list nat :=
  seq 0 (Z.to_nat (numTasks startEntryIndex size)).

(** The segment a task stands for: the downloader was given
    [startSegmentIndex], and task [taskInd] is the [taskInd]-th from it. *)
Definition segment_of_task (startEntryIndex : Z) (taskInd : nat) : Z :=
  startSegmentIndex startEntryIndex + Z.of_nat taskInd.

(** *** Reassembly *)

(** [buf.set(seg, offset)] *)
Definition set_at (buf seg : bytes) (offset : nat) : bytes :=
  (take offset buf ++ seg ++ drop (offset + List.length seg) buf)%list.

(** [new Uint8Array(totalLength)] filled segment by segment. *)
Definition assemble (segments : list bytes) : bytes :=
  let totalLength :=
    fold_left (fun sum seg => (sum + List.length seg)%nat) segments 0%nat in
  fst (fold_left
         (fun (st : bytes * nat) seg =>
            (set_at (fst st) seg (snd st), (snd st + List.length seg)%nat))
         segments
         (replicate totalLength Byte.x00, 0%nat)).

(** *** SDK set-up *)

Definition loadSDKFromCDN (e : env) : Eff unit :=
  w <- get_world ;;
  if sdk_on_window w then ret tt
  else
    match cdn_script e with
    | ScriptDefinesSdk => (call EvSdkLoad (Ok tt) ;;; set_sdk_on_window true)
    | ScriptWithoutSdk => call EvSdkLoad (Throw (JsError "0G SDK failed to load from CDN"))
    | ScriptError => call EvSdkLoad (Throw (JsError "Failed to load 0G SDK from CDN"))
    end.

Definition initializeSDK (e : env) : Eff unit :=
  w <- get_world ;;
  if indexer_set w then ret tt
  else
    try_catch
      (loadSDKFromCDN e ;;;
       lift (new_Indexer e) ;;;
       set_indexer true)
      (fun error =>
         throw_error ("Failed to initialize 0G Storage SDK: " ++ message_of error)).

(** A method call on [this.indexer]: a [TypeError] while it is still
    [null] (the message text is the engine's). *)
Definition on_indexer {A} (m : Eff A) : Eff A :=
  w <- get_world ;;
  if indexer_set w then m
  else throw_error "Cannot read properties of null".

Definition nonempty_locations (locations : option (list string)) : Eff (list string) :=
  match locations with
  | Some (l :: ls) => ret (l :: ls)
  | _ => throw_error "File not found on any storage node"
  end.

(** [locations.map(location => new StorageNode(location.url))] *)
Definition storageNodes (locations : list string) : list nat :=
  seq 0 (List.length locations).

(** The loop "get file info from first available node". *)
Fixpoint first_finalized (e : env) (ph : phase) (rootHash : string)
         (nodes : list nat) : Eff (option fileInfo) :=
  match nodes with
  | [] => ret None
  | node :: rest =>
      r <- attempt (call (EvGetFileInfo node rootHash) (getFileInfo e ph node rootHash)) ;;
      match r with
      | Ok (Some info) =>
          if finalized info then ret (Some info)
          else first_finalized e ph rootHash rest
      | _ => first_finalized e ph rootHash rest
      end
  end.

(** [getShardConfigs]: the configs of the nodes that answered, in order. *)
Fixpoint collect_shard_configs (e : env) (nodes : list nat) (configs : list unit)
  : Eff (list unit) :=
  match nodes with
  | [] => ret configs
  | node :: rest =>
      r <- attempt (call (EvGetShardConfig node) (getShardConfig e node)) ;;
      match r with
      | Ok config => collect_shard_configs e rest (configs ++ [config])%list
      | Throw _ => collect_shard_configs e rest configs
      end
  end.

Definition getShardConfigs (e : env) (nodes : list nat) : Eff (option (list unit)) :=
  configs <- collect_shard_configs e nodes [] ;;
  ret (match configs with [] => None | _ => Some configs end).

(** [segmentData && segmentData.length > 0] *)
Definition nonempty_segment (d : option bytes) : option bytes :=
  match d with
  | Some (b :: bs) => Some (b :: bs)
  | _ => None
  end.

Definition combine_or_fail (segments : list bytes) : Eff bytes :=
  match segments with
  | [] => throw_error "No segments were successfully downloaded"
  | _ => ret (assemble segments)
  end.

(** *** Fallback download: direct [StorageNode] calls *)

(** [fileInfo.uploadedSegNum || fileInfo.numSegments || 1] *)
Definition truthy_num (o : option Z) : option Z :=
  match o with
  | Some n => if (n =? 0)%Z then None else Some n
  | None => None
  end.

Definition fallback_numSegments (info : fileInfo) : Z :=
  match truthy_num (uploadedSegNum info) with
  | Some n => n
  | None => match truthy_num (numSegments info) with
            | Some n => n
            | None => 1
            end
  end.

(** The body of the segment loop, one attempt on the given node. *)
Definition fallback_segment (e : env) (node : nat) (t : fileTx) (i : nat) : Eff bytes :=
  let startIndex := (Z.of_nat i * DEFAULT_SEGMENT_MAX_CHUNKS)%Z in
  let endIndex :=
    Z.min (startIndex + DEFAULT_SEGMENT_MAX_CHUNKS) (numChunks (tx_size t)) in
  segment <- call (EvDownloadSegment node (tx_seq t) startIndex endIndex)
                  (downloadSegmentByTxSeq e node (tx_seq t) startIndex endIndex) ;;
  if truthy segment
  then lift (decodeBase64 e (or_else segment ""))
  else throw_error "Segment download returned null".

(** [for (let i = 0; i < numSegments; i++) { try {...} catch { continue } }] *)
Fixpoint fallback_loop (e : env) (node : nat) (t : fileTx) (indices : list nat)
         (segments : list bytes) : Eff (list bytes) :=
  match indices with
  | [] => ret segments
  | i :: rest =>
      r <- attempt (fallback_segment e node t i) ;;
      match r with
      | Ok segmentData =>
          match nonempty_segment (Some segmentData) with
          | Some d => fallback_loop e node t rest (segments ++ [d])%list
          | None => fallback_loop e node t rest segments
          end
      | Throw _ => fallback_loop e node t rest segments
      end
  end.

Definition downloadFileDataFallback (e : env) (rootHash : string) (withProof : bool)
  : Eff bytes :=
  try_catch
    (locations <- on_indexer (call (EvGetFileLocations rootHash)
                                   (getFileLocations e InFallback rootHash)) ;;
     locations <- nonempty_locations locations ;;
     let nodes := storageNodes locations in
     found <- first_finalized e InFallback rootHash nodes ;;
     match found with
     | None => throw_error "File not found or not finalized"
     | Some info =>
         match tx info with
         | None => throw_error "File transaction info not available"
         | Some t =>
             let n := fallback_numSegments info in
             (* const node = storageNodes[0] *)
             let node := 0%nat in
             segments <- fallback_loop e node t (seq 0 (Z.to_nat n)) [] ;;
             combine_or_fail segments
         end
     end)
    (fun error => throw error).

(** *** Primary download: the SDK's [Downloader] *)

(** [for (taskInd = 0; taskInd < numTasks; taskInd++) { try {...} catch { continue } }] *)
Fixpoint task_loop (e : env) (chunks : Z) (withProof : bool) (tasks : list nat)
         (segments : list bytes) : Eff (list bytes) :=
  match tasks with
  | [] => ret segments
  | taskInd :: rest =>
      r <- attempt (call (EvDownloadTask taskInd)
                         (downloadTask e taskInd chunks withProof)) ;;
      match r with
      | Ok (segmentData, None) =>
          match nonempty_segment segmentData with
          | Some d => task_loop e chunks withProof rest (segments ++ [d])%list
          | None => task_loop e chunks withProof rest segments
          end
      | Ok (_, Some taskError) => task_loop e chunks withProof rest segments
      | Throw _ => task_loop e chunks withProof rest segments
      end
  end.

(** The [try] block of [downloadFileData]. *)
Definition downloadFileData_primary (e : env) (rootHash : string) (withProof : bool)
  : Eff bytes :=
  initializeSDK e ;;;
  locations <- on_indexer (call (EvGetFileLocations rootHash)
                                (getFileLocations e InDownloadFileData rootHash)) ;;
  locations <- nonempty_locations locations ;;
  let nodes := storageNodes locations in
  q <- call (EvQueryFile rootHash) (queryFile e rootHash) ;;
  match q with
  | (_, Some queryError) =>
      throw_error ("Failed to query file: " ++ or_else (Some queryError) "File not found")
  | (None, None) => throw_error "Failed to query file: File not found"
  | (Some info, None) =>
      if negb (finalized info) then throw_error "File not finalized"
      else
        match tx info with
        | None => throw_error "File transaction info not available"
        | Some t =>
            shardConfigs <- getShardConfigs e nodes ;;
            match shardConfigs with
            | None => throw_error "Failed to get shard configs"
            | Some _ =>
                let chunks := numChunks (tx_size t) in
                let tasks := task_indices (tx_startEntryIndex t) (tx_size t) in
                segments <- task_loop e chunks withProof tasks [] ;;
                combine_or_fail segments
            end
        end
  end.

Definition downloadFileData (e : env) (rootHash : string) (withProof : bool) : Eff bytes :=
  try_catch (downloadFileData_primary e rootHash withProof)
            (fun _ => downloadFileDataFallback e rootHash withProof).

(** *** Public methods *)

Definition downloadFile (e : env) (rootHash : string) (withProof : bool)
  : Eff DownloadResult :=
  try_catch
    (initializeSDK e ;;;
     locations <- on_indexer (call (EvGetFileLocations rootHash)
                                   (getFileLocations e InDownloadFile rootHash)) ;;
     locations <- nonempty_locations locations ;;
     let nodes := storageNodes locations in
     found <- first_finalized e InDownloadFile rootHash nodes ;;
     match found with
     | None => throw_error "File not found or not finalized"
     | Some _ =>
         fileData <- downloadFileData e rootHash withProof ;;
         ret {| success := true; data := Some fileData; error := None |}
     end)
    (fun err =>
       ret {| success := false; data := None; error := Some (message_of err) |}).

(** The network check and the submission, inside the inner [try]. *)
Definition upload_inner (e : env) (rootHash : option string) : Eff UploadResult :=
  call (EvRpc "getAddress") (getAddress e 2) ;;;
  (* signer test: its errors are logged and dropped *)
  attempt (call (EvRpc "getAddress") (getAddress e 3)) ;;;
  chainId <- call (EvRpc "getNetwork") (getNetwork e) ;;
  if negb (chainId =? 16602)%Z
  then throw_error ("Wrong network! Expected chainId 16602, got " ++ show chainId)
  else
    try_catch
      (call (EvRpc "getBlockNumber") (getBlockNumber e) ;;;
       call (EvRpc "getFeeData") (getFeeData e) ;;;
       call (EvRpc "getAddress") (getAddress e 4) ;;;
       call (EvRpc "getBalance") (getBalance e) ;;;
       attempt (call (EvRpc "estimateGas") (estimateGas e)) ;;;
       ret tt)
      (fun err => throw_error ("Network validation failed: " ++ message_of err)) ;;;
    up <- on_indexer (call EvIndexerUpload (indexer_upload e)) ;;
    match up with
    | (_, Some uploadErr) => throw_error ("Upload error: " ++ uploadErr)
    | (None, None) => throw_error "Cannot read properties of null"
    | (Some (resRoot, resTx), None) =>
        ret {| up_success := true;
               up_rootHash := or_else resRoot (or_else rootHash "");
               up_txHash := or_else resTx "";
               up_error := None |}
    end.

(** [signer] is [true] when the caller passed a signer object. *)
Definition uploadFile (e : env) (signer : bool) : Eff UploadResult :=
  try_catch
    ((if negb signer then throw_error "Wallet not connected" else ret tt) ;;;
     initializeSDK e ;;;
     call (EvRpc "getAddress") (getAddress e 0) ;;;
     initializeSDK e ;;;
     lift (new_Blob e) ;;;
     tree <- lift (merkleTree e) ;;
     match tree with
     | (_, Some treeErr) => throw_error ("Error generating Merkle tree: " ++ treeErr)
     | (rootHash, None) =>
         call (EvRpc "getAddress") (getAddress e 1) ;;;
         try_catch (upload_inner e rootHash) (fun uploadError => throw uploadError)
     end)
    (fun err =>
       ret {| up_success := false; up_rootHash := ""; up_txHash := "";
              up_error := Some (message_of err) |}).

End ZgStorage.

(** ** [src/lib/ipfs-mapping.ts], persistence part of the Pinata revision *)

Module PinataStore.

Import Js Effects.
Local Open Scope eff_scope.

Definition PINATA_API_URL : string := "https://api.pinata.cloud".
Definition PINATA_GATEWAY_URL : string := "https://gateway.pinata.cloud".

(** A double quote, for the query text. *)
Definition dq : string := String (ascii_of_nat 34) "".

(** A [Response]: the fields the code reads, and what [json()] gives. *)
Record response (J : Type) : Type := {
  ok : bool;
  status : Z;
  statusText : string;
  json : result J
}.
Arguments ok {J} _.
Arguments status {J} _.
Arguments statusText {J} _.
Arguments json {J} _.

(** The metadata object a caller hands to [storeMappingToIPFS]; the same
    fields come back from the gateway.  Time stamps and [providerInfo] are
    carried along by the code and never inspected; they are left out. *)
Record metadata : Type := {
  md_shareCode : option string;
  md_rootHash : option string;
  md_fileName : option string;
  md_fileSize : option Z;
  md_mimeType : option string;
  md_isEncrypted : option bool;
  md_encryptionKey : option string;
  md_iv : option string;
  md_uploader : option string;
  md_txHash : option string;
  md_provider : option string
}.

Record env : Type := {
  (* VITE_PINATA_JWT, or VITE_PINATA_API_KEY and VITE_PINATA_API_SECRET *)
  pinata_configured : bool;
  (* POST /pinning/pinJSONToIPFS, by pin name and content; json: IpfsHash *)
  pinJSONToIPFS : string -> metadata -> result (response (option string));
  (* GET /data/pinList by share code; json: rows, as their ipfs_pin_hash *)
  pinList : string -> result (response (option (list string)));
  (* GET gateway/ipfs/<hash> *)
  gateway : string -> result (response metadata)
}.

Definition getPinataHeaders (e : env) : Eff unit :=
  if pinata_configured e then ret tt
  else throw_error "Pinata configuration missing".

Record stored : Type := {
  st_ipfsHash : option string;
  st_shareCode : string;
  st_rootHash : string
}.

Definition storeMappingToIPFS (e : env) (shareCode rootHash : string) (md : metadata)
  : Eff stored :=
  try_catch
    (let completeMetadata :=
       {| md_shareCode := Some shareCode;
          md_rootHash := Some rootHash;
          md_fileName := md_fileName md;
          md_fileSize := md_fileSize md;
          md_mimeType := md_mimeType md;
          md_isEncrypted := md_isEncrypted md;
          md_encryptionKey := md_encryptionKey md;
          md_iv := md_iv md;
          md_uploader := Some (or_else (md_uploader md) "anonymous");
          md_txHash := md_txHash md;
          md_provider := Some "0g-storage" |} in
     getPinataHeaders e ;;;
     let name := "privshare-0g-" ++ replace_first "privshare://0g-" shareCode in
     resp <- call (EvHttp "POST" (PINATA_API_URL ++ "/pinning/pinJSONToIPFS"))
                  (pinJSONToIPFS e name completeMetadata) ;;
     if negb (ok resp)
     then throw_error ("Pinata API error: " ++ ZgStorage.show (status resp)
                       ++ " " ++ statusText resp)
     else
       result <- lift (json resp) ;;
       ret {| st_ipfsHash := result; st_shareCode := shareCode; st_rootHash := rootHash |})
    (fun error => throw error).

(** What [getMappingFromIPFS] hands back ([pieceCid] repeats [rootHash]). *)
Record mapping : Type := {
  mp_shareCode : option string;
  mp_pieceCid : option string;
  mp_metadata : metadata;
  mp_rootHash : option string;
  mp_txHash : option string;
  mp_provider : option string
}.

Definition pinList_url (code : string) : string :=
  PINATA_API_URL ++ "/data/pinList?metadata[keyvalues]={" ++ dq ++ "shareCode" ++ dq
    ++ ":{" ++ dq ++ "value" ++ dq ++ ":" ++ dq ++ code ++ dq ++ ","
    ++ dq ++ "op" ++ dq ++ ":" ++ dq ++ "eq" ++ dq ++ "}}".

(** [null] is [None]; the function never throws. *)
Definition getMappingFromIPFS (e : env) (shareCode : string) : Eff (option mapping) :=
  try_catch
    (let code := Pinata.extractCodeFromShareCode shareCode in
     getPinataHeaders e ;;;
     resp <- call (EvHttp "GET" (pinList_url code)) (pinList e code) ;;
     if negb (ok resp)
     then throw_error ("Pinata API error: " ++ ZgStorage.show (status resp)
                       ++ " " ++ statusText resp)
     else
       result <- lift (json resp) ;;
       match result with
       | Some (ipfsHash :: _) =>
           dataResponse <- call (EvHttp "GET" (PINATA_GATEWAY_URL ++ "/ipfs/" ++ ipfsHash))
                                (gateway e ipfsHash) ;;
           if ok dataResponse then
             mappingData <- lift (json dataResponse) ;;
             ret (Some {| mp_shareCode := md_shareCode mappingData;
                          mp_pieceCid := md_rootHash mappingData;
                          mp_metadata := mappingData;
                          mp_rootHash := md_rootHash mappingData;
                          mp_txHash := md_txHash mappingData;
                          mp_provider := md_provider mappingData |})
           else ret None
       | _ => ret None
       end)
    (fun _ => ret None).

(** [mappingData?.pieceCid || null] *)
Definition getCidFromIPFS (e : env) (shareCode : string) : Eff (option string) :=
  m <- getMappingFromIPFS e shareCode ;;
  ret (match m with
       | Some mp => if truthy (mp_pieceCid mp) then mp_pieceCid mp else None
       | None => None
       end).

End PinataStore.

(** ** [src/lib/ipfs-mapping.ts], persistence part of the 0G revision *)

Module ZgStore.

Import Js Effects.
Local Open Scope eff_scope.

(** [MappingRecord].  [other] holds the properties a stored object has
    beyond the declared ones (the spread [...record] keeps them), by name. *)
Record MappingRecord : Type := {
  rootHash : string;
  iv : option string;
  fileName : option string;
  fileSize : option Z;
  mimeType : option string;
  uploader : option string;
  uploadTime : option Z;
  txHash : option string;
  other : gmap string string
}.

Record env : Type := {
  (* typeof window !== 'undefined' && window.localStorage *)
  storage_available : bool;
  (* setItem throws (quota, private mode) *)
  setItem_throws : bool;
  JSON_stringify : MappingRecord -> string;
  (* JSON.parse: throws, or gives a falsy value ([None]), or a record *)
  JSON_parse : string -> result (option MappingRecord)
}.

Definition extractCodeFromShareCode (code : string) : result string :=
  if negb (ZgMapping.validateShareCode code)
  then Throw (JsError "Invalid share code format")
  else Ok (replace_first ZgMapping.SHARE_CODE_PREFIX code).

Definition cache_key (shareCode : string) : string :=
  "privshare:mapping:" ++ shareCode.

Definition saveMappingLocally (e : env) (shareCode : string) (record : MappingRecord)
  : Eff unit :=
  try_catch
    (if storage_available e then
       if setItem_throws e then throw_error "QuotaExceededError"
       else
         w <- get_world ;;
         set_localStorage (<[cache_key shareCode := JSON_stringify e record]> (localStorage w))
     else ret tt)
    (fun _ => ret tt).

Definition loadMappingLocally (e : env) (shareCode : string) : Eff (option MappingRecord) :=
  try_catch
    (if storage_available e then
       w <- get_world ;;
       let raw := localStorage w !! cache_key shareCode in
       if truthy raw then lift (JSON_parse e (or_else raw ""))
       else ret None
     else ret None)
    (fun _ => ret None).

Record stored : Type := {
  st_rootHash : option string;
  st_txHash : option string
}.

Definition storeMappingTo0G (e : env) (ze : ZgStorage.env) (shareCode : string)
           (record : MappingRecord) (signer : bool) : Eff stored :=
  if negb (ZgMapping.validateShareCode shareCode)
  then throw_error "Invalid share code format"
  else
    lift (extractCodeFromShareCode shareCode) ;;;
    res <- ZgStorage.uploadFile ze signer ;;
    saveMappingLocally e shareCode
      {| rootHash := rootHash record;
         iv := iv record;
         fileName := fileName record;
         fileSize := fileSize record;
         mimeType := mimeType record;
         uploader := uploader record;
         uploadTime := uploadTime record;
         txHash := if truthy_string (ZgStorage.up_txHash res)
                   then Some (ZgStorage.up_txHash res) else txHash record;
         other := other record |} ;;;
    ret {| st_rootHash := Some (ZgStorage.up_rootHash res);
           st_txHash := Some (ZgStorage.up_txHash res) |}.

Definition getMappingFrom0G (e : env) (shareCode : string) : Eff MappingRecord :=
  if negb (ZgMapping.validateShareCode shareCode)
  then throw_error "Invalid share code format"
  else
    local <- loadMappingLocally e shareCode ;;
    match local with
    | Some record => ret record
    | None => throw_error "Mapping record not found."
    end.

End ZgStore.

(** ** [src/hooks/useFileDownload.ts] and [src/hooks/useFilePreview.ts] *)

Module Hooks.

Import Js Effects.
Local Open Scope eff_scope.

(** [FileMetadata] of [src/lib/fileMetadata.ts], without its time stamps. *)
Record FileMetadata : Type := {
  id : string;
  shareCode : string;
  pieceCid : string;
  fileName : string;
  fileSize : Z;
  mimeType : string;
  isEncrypted : bool;
  encryptionKey : option string;
  iv : option string;
  uploader : string;
  provider : string;
  rootHash : string
}.

(** What the hook gets from its React context and from the cipher. *)
Record env : Type := {
  zgStorage_present : bool;               (* zgStorage !== null *)
  isConnected : bool;
  zgError : option string;
  enableProofVerification : bool;         (* config.enableProofVerification *)
  decryptFileFromBlob : ZgStorage.bytes -> string -> string -> result ZgStorage.bytes
}.

Definition or_zero (o : option Z) : Z :=
  match o with
  | Some n => n
  | None => 0
  end.

(** The metadata both hooks build from a resolved mapping; [key] is what
    the hook puts in [encryptionKey]. *)
Definition metadata_of (code : string) (mapping : ZgStore.MappingRecord)
           (key : option string) : FileMetadata :=
  {| id := code;
     shareCode := code;
     pieceCid := ZgStore.rootHash mapping;
     fileName := or_else (ZgStore.fileName mapping) "unknown";
     fileSize := or_zero (ZgStore.fileSize mapping);
     mimeType := or_else (ZgStore.mimeType mapping) "application/octet-stream";
     isEncrypted := truthy (ZgStore.iv mapping);
     encryptionKey := key;
     iv := ZgStore.iv mapping;
     uploader := or_else (ZgStore.uploader mapping) "unknown";
     provider := "0g-storage";
     rootHash := ZgStore.rootHash mapping |}.

(** The object passed to [setDownloadInfo]. *)
Definition info_of (fm : FileMetadata) : DownloadInfo :=
  {| di_fileName := fileName fm;
     di_fileSize := fileSize fm;
     di_mimeType := mimeType fm;
     di_isEncrypted := isEncrypted fm;
     di_encryptionKey := encryptionKey fm;
     di_iv := iv fm;
     di_uploader := uploader fm |}.

Record downloaded : Type := {
  dl_fileName : string;
  dl_fileSize : Z;
  dl_mimeType : string;
  dl_data : ZgStorage.bytes
}.

(** The [try] block around decryption. *)
Definition decrypt_step (e : env) (fm : FileMetadata) (key : option string)
           (finalData : ZgStorage.bytes) : Eff ZgStorage.bytes :=
  try_catch
    (let keyToUse := if truthy key then key else encryptionKey fm in
     if negb (truthy keyToUse) then throw_error "No decryption key available"
     else if negb (truthy (iv fm)) then throw_error "No IV available for decryption"
     else call (EvDecrypt finalData (or_else keyToUse "") (or_else (iv fm) ""))
               (decryptFileFromBlob e finalData (or_else keyToUse "") (or_else (iv fm) "")))
    (fun decryptError =>
       throw_error ("Decryption failed: " ++ message_of decryptError)).

(** [mutationFn] of [useFileDownload], from the call of the storage service
    to the returned object (the browser's save dialog is left out). *)
Definition fetch_and_decrypt (e : env) (ze : ZgStorage.env) (fm : FileMetadata)
           (key : option string) : Eff downloaded :=
  downloadResult <- ZgStorage.downloadFile ze (pieceCid fm) (enableProofVerification e) ;;
  if negb (ZgStorage.success downloadResult)
  then throw_error ("Download failed: "
                    ++ or_else (ZgStorage.error downloadResult) "Unknown error")
  else
    match ZgStorage.data downloadResult with
    | None => throw_error "No data received from 0G Storage"
    | Some received =>
        finalData <- (if isEncrypted fm && truthy key
                      then decrypt_step e fm key received
                      else ret received) ;;
        ret {| dl_fileName := fileName fm;
               dl_fileSize := fileSize fm;
               dl_mimeType := mimeType fm;
               dl_data := finalData |}
    end.

(** [mutationFn] of [useFileDownload]. *)
Definition useFileDownload (e : env) (me : ZgStore.env) (ze : ZgStorage.env)
           (code : string) (key : option string) : Eff downloaded :=
  setDownloadInfo None ;;;
  if negb (ZgMapping.validateShareCode code)
  then throw_error "Invalid share code format"
  else
    mapping <- ZgStore.getMappingFrom0G me code ;;
    let fm := metadata_of code mapping key in
    setDownloadInfo (Some (info_of fm)) ;;;
    if isEncrypted fm && negb (truthy key)
    then throw_error "This file is encrypted. Please provide the decryption key."
    else if negb (zgStorage_present e)
    then throw_error "0G Storage not available. Please check your connection and try again."
    else if negb (isConnected e)
    then throw_error ("0G Storage connection failed: " ++ or_else (zgError e) "Unknown error")
    else fetch_and_decrypt e ze fm key.

(** [onError] of [useFileDownload]: the displayed info is dropped. *)
Definition download_onError : Eff unit := setDownloadInfo None.

Record preview : Type := {
  pv_metadata : FileMetadata;
  pv_isValid : bool
}.

(** [mutationFn] of [useFilePreview]. *)
Definition useFilePreview (me : ZgStore.env) (code : string) : Eff preview :=
  if negb (ZgMapping.validateShareCode code)
  then throw_error "Invalid share code format"
  else
    mapping <- ZgStore.getMappingFrom0G me code ;;
    ret {| pv_metadata := metadata_of code mapping None; pv_isValid := true |}.

End Hooks.

(** ** What the two segment loops keep

    Pure readings of the loop bodies, used to state what the loops return. *)

Module Kept.

Import Js Effects.

(** The segment task [taskInd] contributes, if any. *)
Definition of_task (e : ZgStorage.env) (chunks : Z) (withProof : bool)
           (taskInd : nat) : option ZgStorage.bytes :=
  match ZgStorage.downloadTask e taskInd chunks withProof with
  | Ok (segmentData, None) => ZgStorage.nonempty_segment segmentData
  | _ => None
  end.

Definition task_succeeded (e : ZgStorage.env) (chunks : Z) (withProof : bool)
           (taskInd : nat) : bool :=
  match of_task e chunks withProof taskInd with
  | Some _ => true
  | None => false
  end.

Definition segment_bounds (t : ZgStorage.fileTx) (i : nat) : Z * Z :=
  let startIndex := (Z.of_nat i * ZgStorage.DEFAULT_SEGMENT_MAX_CHUNKS)%Z in
  (startIndex,
   Z.min (startIndex + ZgStorage.DEFAULT_SEGMENT_MAX_CHUNKS)
         (ZgStorage.numChunks (ZgStorage.tx_size t))).

(** The segment index [i] contributes in the fallback, fetched from [node]. *)
Definition of_segment (e : ZgStorage.env) (node : nat) (t : ZgStorage.fileTx)
           (i : nat) : option ZgStorage.bytes :=
  let '(startIndex, endIndex) := segment_bounds t i in
  match ZgStorage.downloadSegmentByTxSeq e node (ZgStorage.tx_seq t) startIndex endIndex with
  | Ok segment =>
      if truthy segment then
        match ZgStorage.decodeBase64 e (or_else segment "") with
        | Ok d => ZgStorage.nonempty_segment (Some d)
        | Throw _ => None
        end
      else None
  | Throw _ => None
  end.

Definition segment_event (node : nat) (t : ZgStorage.fileTx) (i : nat) : event :=
  let '(startIndex, endIndex) := segment_bounds t i in
  EvDownloadSegment node (ZgStorage.tx_seq t) startIndex endIndex.

(** The values [f] keeps, in the order of [l]. *)
Fixpoint keep {A B} (f : A -> option B) (l : list A) : list B :=
  match l with
  | [] => []
  | x :: rest => match f x with
                 | Some y => y :: keep f rest
                 | None => keep f rest
                 end
  end.

End Kept.

(** ** The share-code grammar, in the words of the specification

    "prefix + 4 groups of 4 lowercase-alphanumeric characters joined by '-'".
    This definition is written from the specification, to be compared with
    the two [validateShareCode] of the source. *)

Module Grammar.

Definition prefix : string := "privshare://0g-".

Definition lower_alnum (c : ascii) : bool :=
  let n := nat_of_ascii c in
  ((97 <=? n)%nat && (n <=? 122)%nat) || ((48 <=? n)%nat && (n <=? 57)%nat).

Fixpoint all_chars (p : ascii -> bool) (s : string) : bool :=
  match s with
  | EmptyString => true
  | String c rest => p c && all_chars p rest
  end.

Definition is_group (g : string) : bool :=
  (String.length g =? 4)%nat && all_chars lower_alnum g.

Definition of_groups (gs : list string) : string :=
  prefix ++ Js.join "-" gs.

Definition well_formed (s : string) : Prop :=
  exists gs : list string,
    List.length gs = 4%nat /\ forallb is_group gs = true /\ s = of_groups gs.

End Grammar.

(** ** Predicates on computations, used to state what they may do *)

Module Spec.

Import Js Effects.

(** Every call [m] makes satisfies [P]: the trace grows by such events only. *)
Definition emits {A} (P : event -> Prop) (m : Eff A) : Prop :=
  forall w, exists evs, trace (snd (m w)) = (trace w ++ evs)%list /\ Forall P evs.

(** [m] makes no call at all. *)
Definition silent {A} (m : Eff A) : Prop := emits (fun _ => False) m.

(** The message a [catch] block reads off a thrown value is not empty. *)
Definition has_message (t : thrown) : Prop := message_of t <> "".

(** [m] returns only values satisfying [Q] and throws only values
    satisfying [E]. *)
Definition post {A} (Q : A -> Prop) (E : thrown -> Prop) (m : Eff A) : Prop :=
  forall w, match fst (m w) with
            | Ok a => Q a
            | Throw t => E t
            end.

(** [t] was raised by one of the collaborator calls whose errors reach the
    outer [catch] of [uploadFile] or [downloadFile] as they are (the errors
    of the other calls are dropped, or wrapped in a message of the service's
    own). *)
Definition raised_by_collaborator (e : ZgStorage.env) (t : thrown) : Prop :=
  (exists ph root, ZgStorage.getFileLocations e ph root = Throw t)
  \/ (exists site, ZgStorage.getAddress e site = Throw t)
  \/ ZgStorage.new_Blob e = Throw t
  \/ ZgStorage.merkleTree e = Throw t
  \/ ZgStorage.getNetwork e = Throw t
  \/ ZgStorage.indexer_upload e = Throw t.

(** What the outer [catch] can receive: a value with a message, or whatever
    a collaborator raised. *)
Definition carries_message (e : ZgStorage.env) (t : thrown) : Prop :=
  has_message t \/ raised_by_collaborator e t.

(** The two forms of a [DownloadResult]: data and no error, or no data and
    the message of what was caught. *)
Definition download_result_shape (e : ZgStorage.env) (dr : ZgStorage.DownloadResult) : Prop :=
  (ZgStorage.success dr = true /\ ZgStorage.error dr = None
   /\ exists d, ZgStorage.data dr = Some d)
  \/ (ZgStorage.success dr = false /\ ZgStorage.data dr = None
      /\ exists t, ZgStorage.error dr = Some (message_of t) /\ carries_message e t).

(** The two forms of an [UploadResult]. *)
Definition upload_result_shape (e : ZgStorage.env) (ur : ZgStorage.UploadResult) : Prop :=
  (ZgStorage.up_success ur = true /\ ZgStorage.up_error ur = None)
  \/ (ZgStorage.up_success ur = false
      /\ ZgStorage.up_rootHash ur = "" /\ ZgStorage.up_txHash ur = ""
      /\ exists t, ZgStorage.up_error ur = Some (message_of t) /\ carries_message e t).

(** [m] leaves the hook's [downloadInfo] as it is. *)
Definition keeps_info {A} (m : Eff A) : Prop :=
  forall w, downloadInfo (snd (m w)) = downloadInfo w.

(** The record [loadMappingLocally] finds for a code, if any. *)
Definition cached_record (me : ZgStore.env) (code : string) (w : world)
  : option ZgStore.MappingRecord :=
  if ZgStore.storage_available me then
    match localStorage w !! ZgStore.cache_key code with
    | Some raw =>
        if truthy_string raw then
          match ZgStore.JSON_parse me raw with
          | Ok found => found
          | Throw _ => None
          end
        else None
    | None => None
    end
  else None.

(** The ordering the specification asks of a download, for a digest [D]:
    whenever bytes are handed to the cipher, their digest is the root hash
    the fetch was addressed by. *)
Definition decrypt_after_verify (D : ZgStorage.bytes -> string) : Prop :=
  forall (e : Hooks.env) (me : ZgStore.env) (ze : ZgStorage.env)
         (code : string) (key : option string) (w : world)
         (ciphertext : ZgStorage.bytes) (k i root : string),
    trace w = [] ->
    In (EvDecrypt ciphertext k i)
       (trace (snd (Hooks.useFileDownload e me ze code key w))) ->
    In (EvGetFileLocations root)
       (trace (snd (Hooks.useFileDownload e me ze code key w))) ->
    D ciphertext = root.

(** What the download hook does with the result [dr] of the storage
    service's [downloadFile], for an encrypted file and a supplied key; [w2]
    is the world the service left. *)
Definition after_fetch (e : Hooks.env) (code : string) (key : option string)
           (mapping : ZgStore.MappingRecord) (dr : ZgStorage.DownloadResult)
           (w2 : world) : result Hooks.downloaded * world :=
  let fm := Hooks.metadata_of code mapping key in
  if ZgStorage.success dr then
    match ZgStorage.data dr with
    | None => (Throw (JsError "No data received from 0G Storage"), w2)
    | Some received =>
        let k := or_else key "" in
        let i := or_else (ZgStore.iv mapping) "" in
        (match Hooks.decryptFileFromBlob e received k i with
         | Ok plain =>
             Ok {| Hooks.dl_fileName := Hooks.fileName fm;
                   Hooks.dl_fileSize := Hooks.fileSize fm;
                   Hooks.dl_mimeType := Hooks.mimeType fm;
                   Hooks.dl_data := plain |}
         | Throw t => Throw (JsError ("Decryption failed: " ++ message_of t))
         end,
         log [EvDecrypt received k i] w2)
    end
  else (Throw (JsError ("Download failed: "
                        ++ or_else (ZgStorage.error dr) "Unknown error")), w2).

(** The world when the hook decides about the fetch: the info is on
    display, nothing else has changed. *)
Definition displayed (code : string) (key : option string)
           (mapping : ZgStore.MappingRecord) (w : world) : world :=
  snd (setDownloadInfo (Some (Hooks.info_of (Hooks.metadata_of code mapping key))) w).

Definition key_required : thrown :=
  JsError "This file is encrypted. Please provide the decryption key.".

Definition is_segment_request (ev : event) : bool :=
  match ev with
  | EvDownloadSegment _ _ _ _ => true
  | _ => false
  end.

(** Segment requests go to the first node. *)
Definition to_first_node (ev : event) : Prop :=
  match ev with
  | EvDownloadSegment node _ _ _ => node = 0%nat
  | _ => True
  end.

End Spec.

(** ** Concrete pages and collaborators used as examples *)

Module Scenarios.

Import Js Effects.

Definition code : string := "privshare://0g-ab12-cd34-ef56-gh78".

Definition tx_two_segments : ZgStorage.fileTx :=
  {| ZgStorage.tx_seq := 7; ZgStorage.tx_size := 262145;
     ZgStorage.tx_startEntryIndex := 0 |}.

Definition info_two_segments : ZgStorage.fileInfo :=
  {| ZgStorage.finalized := true;
     ZgStorage.tx := Some tx_two_segments;
     ZgStorage.uploadedSegNum := Some 2%Z;
     ZgStorage.numSegments := None |}.

Definition tx_one_segment : ZgStorage.fileTx :=
  {| ZgStorage.tx_seq := 7; ZgStorage.tx_size := 256;
     ZgStorage.tx_startEntryIndex := 0 |}.

Definition info_one_segment : ZgStorage.fileInfo :=
  {| ZgStorage.finalized := true;
     ZgStorage.tx := Some tx_one_segment;
     ZgStorage.uploadedSegNum := None;
     ZgStorage.numSegments := None |}.

(** A healthy network holding a one-segment file whose bytes are [content]:
    every collaborator answers. *)
Definition healthy (content : ZgStorage.bytes) : ZgStorage.env :=
  {| ZgStorage.cdn_script := ZgStorage.ScriptDefinesSdk;
     ZgStorage.new_Indexer := Ok tt;
     ZgStorage.getFileLocations := fun _ _ => Ok (Some ["https://node-a"; "https://node-b"]);
     ZgStorage.getFileInfo := fun _ _ _ => Ok (Some info_one_segment);
     ZgStorage.queryFile := fun _ => Ok (Some info_one_segment, None);
     ZgStorage.getShardConfig := fun _ => Ok tt;
     ZgStorage.downloadTask := fun _ _ _ => Ok (Some content, None);
     ZgStorage.downloadSegmentByTxSeq := fun _ _ _ _ => Ok (Some "AQ==");
     ZgStorage.decodeBase64 := fun _ => Ok content;
     ZgStorage.getAddress := fun _ => Ok "0xabc";
     ZgStorage.new_Blob := Ok tt;
     ZgStorage.merkleTree := Ok (Some "0xroot", None);
     ZgStorage.getNetwork := Ok 16602%Z;
     ZgStorage.getBlockNumber := Ok tt;
     ZgStorage.getFeeData := Ok tt;
     ZgStorage.getBalance := Ok 1%Z;
     ZgStorage.estimateGas := Ok tt;
     ZgStorage.indexer_upload := Ok (Some (Some "0xroot", Some "0xtx"), None) |}.

(** A two-segment file; the task (or segment) with index 0 is served, the one
    with index 1 is not.  With [primary = false] the SDK's [queryFile]
    rejects, which sends the download to the fallback. *)
Definition second_segment_lost (primary : bool) : ZgStorage.env :=
  {| ZgStorage.cdn_script := ZgStorage.ScriptDefinesSdk;
     ZgStorage.new_Indexer := Ok tt;
     ZgStorage.getFileLocations := fun _ _ => Ok (Some ["https://node-a"]);
     ZgStorage.getFileInfo := fun _ _ _ => Ok (Some info_two_segments);
     ZgStorage.queryFile :=
       fun _ => if primary then Ok (Some info_two_segments, None)
                else Throw (JsError "query failed");
     ZgStorage.getShardConfig := fun _ => Ok tt;
     ZgStorage.downloadTask :=
       fun taskInd _ _ =>
         match taskInd with
         | O => Ok (Some [Byte.x01], None)
         | _ => Ok (None, Some "segment unavailable")
         end;
     ZgStorage.downloadSegmentByTxSeq :=
       fun _ _ startIndex _ =>
         if (startIndex =? 0)%Z then Ok (Some "AQ==")
         else Throw (JsError "segment unavailable");
     ZgStorage.decodeBase64 := fun _ => Ok [Byte.x01];
     ZgStorage.getAddress := fun _ => Ok "0xabc";
     ZgStorage.new_Blob := Ok tt;
     ZgStorage.merkleTree := Ok (Some "0xroot", None);
     ZgStorage.getNetwork := Ok 16602%Z;
     ZgStorage.getBlockNumber := Ok tt;
     ZgStorage.getFeeData := Ok tt;
     ZgStorage.getBalance := Ok 1%Z;
     ZgStorage.estimateGas := Ok tt;
     ZgStorage.indexer_upload := Ok (Some (Some "0xroot", Some "0xtx"), None) |}.

(** A one-segment file on two ranked nodes: the first node times out on the
    segment, the second would serve it.  [queryFile] rejects, so the download
    runs in the fallback. *)
Definition first_node_down : ZgStorage.env :=
  {| ZgStorage.cdn_script := ZgStorage.ScriptDefinesSdk;
     ZgStorage.new_Indexer := Ok tt;
     ZgStorage.getFileLocations := fun _ _ => Ok (Some ["https://node-a"; "https://node-b"]);
     ZgStorage.getFileInfo := fun _ _ _ => Ok (Some info_one_segment);
     ZgStorage.queryFile := fun _ => Throw (JsError "query failed");
     ZgStorage.getShardConfig := fun _ => Ok tt;
     ZgStorage.downloadTask := fun _ _ _ => Throw (JsError "timeout");
     ZgStorage.downloadSegmentByTxSeq :=
       fun node _ _ _ =>
         match node with
         | O => Throw (JsError "timeout")
         | _ => Ok (Some "AQ==")
         end;
     ZgStorage.decodeBase64 := fun _ => Ok [Byte.x01];
     ZgStorage.getAddress := fun _ => Ok "0xabc";
     ZgStorage.new_Blob := Ok tt;
     ZgStorage.merkleTree := Ok (Some "0xroot", None);
     ZgStorage.getNetwork := Ok 16602%Z;
     ZgStorage.getBlockNumber := Ok tt;
     ZgStorage.getFeeData := Ok tt;
     ZgStorage.getBalance := Ok 1%Z;
     ZgStorage.estimateGas := Ok tt;
     ZgStorage.indexer_upload := Ok (Some (Some "0xroot", Some "0xtx"), None) |}.

(** The indexer rejects with an [Error] whose message is empty. *)
Definition silent_indexer : ZgStorage.env :=
  {| ZgStorage.cdn_script := ZgStorage.ScriptDefinesSdk;
     ZgStorage.new_Indexer := Ok tt;
     ZgStorage.getFileLocations := fun _ _ => Throw (JsError "");
     ZgStorage.getFileInfo := fun _ _ _ => Ok (Some info_one_segment);
     ZgStorage.queryFile := fun _ => Ok (Some info_one_segment, None);
     ZgStorage.getShardConfig := fun _ => Ok tt;
     ZgStorage.downloadTask := fun _ _ _ => Ok (Some [Byte.x01], None);
     ZgStorage.downloadSegmentByTxSeq := fun _ _ _ _ => Ok (Some "AQ==");
     ZgStorage.decodeBase64 := fun _ => Ok [Byte.x01];
     ZgStorage.getAddress := fun _ => Ok "0xabc";
     ZgStorage.new_Blob := Ok tt;
     ZgStorage.merkleTree := Ok (Some "0xroot", None);
     ZgStorage.getNetwork := Ok 16602%Z;
     ZgStorage.getBlockNumber := Ok tt;
     ZgStorage.getFeeData := Ok tt;
     ZgStorage.getBalance := Ok 1%Z;
     ZgStorage.estimateGas := Ok tt;
     ZgStorage.indexer_upload := Ok (Some (Some "0xroot", Some "0xtx"), None) |}.

(** A pointer record for root hash [root] with the given IV. *)
Definition record (root : string) (iv : option string) : ZgStore.MappingRecord :=
  {| ZgStore.rootHash := root;
     ZgStore.iv := iv;
     ZgStore.fileName := Some "report.pdf";
     ZgStore.fileSize := Some 1%Z;
     ZgStore.mimeType := Some "application/pdf";
     ZgStore.uploader := Some "0xabc";
     ZgStore.uploadTime := Some 1700000000%Z;
     ZgStore.txHash := Some "0xtx";
     ZgStore.other := ∅ |}.

(** [localStorage] works; every cached text parses to [rec]. *)
Definition cache_of (rec : ZgStore.MappingRecord) : ZgStore.env :=
  {| ZgStore.storage_available := true;
     ZgStore.setItem_throws := false;
     ZgStore.JSON_stringify := fun _ => "{...}";
     ZgStore.JSON_parse := fun _ => Ok (Some rec) |}.

(** A page whose cache has an entry for [code]. *)
Definition cached : world :=
  {| localStorage := {[ ZgStore.cache_key code := "{...}" ]};
     sdk_on_window := false; indexer_set := false;
     downloadInfo := None; trace := [] |}.

(** The hook's context: storage service connected; the cipher is the
    identity on the bytes. *)
Definition connected : Hooks.env :=
  {| Hooks.zgStorage_present := true;
     Hooks.isConnected := true;
     Hooks.zgError := None;
     Hooks.enableProofVerification := true;
     Hooks.decryptFileFromBlob := fun ciphertext _ _ => Ok ciphertext |}.

(** Pinata configured; the API host cannot be reached. *)
Definition pinata_offline : PinataStore.env :=
  {| PinataStore.pinata_configured := true;
     PinataStore.pinJSONToIPFS := fun _ _ => Throw (JsError "Failed to fetch");
     PinataStore.pinList := fun _ => Throw (JsError "Failed to fetch");
     PinataStore.gateway := fun _ => Throw (JsError "Failed to fetch") |}.

(** Pinata configured and answering: pins succeed, searches find nothing. *)
Definition pinata_online : PinataStore.env :=
  {| PinataStore.pinata_configured := true;
     PinataStore.pinJSONToIPFS :=
       fun _ _ => Ok {| PinataStore.ok := true; PinataStore.status := 200;
                        PinataStore.statusText := "OK";
                        PinataStore.json := Ok (Some "QmHash") |};
     PinataStore.pinList :=
       fun _ => Ok {| PinataStore.ok := true; PinataStore.status := 200;
                      PinataStore.statusText := "OK";
                      PinataStore.json := Ok (Some []) |};
     PinataStore.gateway := fun _ => Throw (JsError "Failed to fetch") |}.

Definition no_metadata : PinataStore.metadata :=
  {| PinataStore.md_shareCode := None; PinataStore.md_rootHash := None;
     PinataStore.md_fileName := Some "report.pdf"; PinataStore.md_fileSize := Some 1%Z;
     PinataStore.md_mimeType := None; PinataStore.md_isEncrypted := Some false;
     PinataStore.md_encryptionKey := None; PinataStore.md_iv := None;
     PinataStore.md_uploader := None; PinataStore.md_txHash := None;
     PinataStore.md_provider := None |}.

End Scenarios.

(** ** [convertBigIntToString] of [src/lib/ipfs-mapping.ts] *)

Module JsValue.

(** The values the helper distinguishes.  An object is its own enumerable
    properties in the order [Object.entries] lists them. *)
#[warnings="-register-all"]
Inductive jsval : Type :=
| JNull
| JUndefined
| JBigInt (z : Z)
| JNumber (n : Z)
| JString (s : string)
| JBool (b : bool)
| JArray (items : list jsval)
| JObject (entries : list (string * jsval)).

Fixpoint convertBigIntToString (obj : jsval) : jsval :=
  match obj with
  | JNull => JNull
  | JUndefined => JUndefined
  | JBigInt z => JString (ZgStorage.show z)
  | JArray items => JArray (map convertBigIntToString items)
  | JObject entries =>
      JObject (map (fun kv => (fst kv, convertBigIntToString (snd kv))) entries)
  | other => other
  end.

(** Whether a [bigint] occurs anywhere in the value ([JSON.stringify] throws
    on one). *)
Fixpoint has_bigint (v : jsval) : bool :=
  match v with
  | JBigInt _ => true
  | JArray items => existsb has_bigint items
  | JObject entries => existsb (fun kv => has_bigint (snd kv)) entries
  | _ => false
  end.

(** The shape of a value: every leaf forgotten, keys and lengths kept. *)
Fixpoint shape (v : jsval) : jsval :=
  match v with
  | JArray items => JArray (map shape items)
  | JObject entries => JObject (map (fun kv => (fst kv, shape (snd kv))) entries)
  | _ => JNull
  end.

End JsValue.

(** ** What [storeMappingTo0G] leaves in the cache *)

Module StoreSpec.

Import Js Effects.

(** The record [storeMappingTo0G] hands to [saveMappingLocally], for the
    upload result [ur]. *)
Definition saved_record (record : ZgStore.MappingRecord) (ur : ZgStorage.UploadResult)
  : ZgStore.MappingRecord :=
  {| ZgStore.rootHash := ZgStore.rootHash record;
     ZgStore.iv := ZgStore.iv record;
     ZgStore.fileName := ZgStore.fileName record;
     ZgStore.fileSize := ZgStore.fileSize record;
     ZgStore.mimeType := ZgStore.mimeType record;
     ZgStore.uploader := ZgStore.uploader record;
     ZgStore.uploadTime := ZgStore.uploadTime record;
     ZgStore.txHash := if truthy_string (ZgStorage.up_txHash ur)
                       then Some (ZgStorage.up_txHash ur)
                       else ZgStore.txHash record;
     ZgStore.other := ZgStore.other record |}.

(** The world after [localStorage.setItem(key, text)]. *)
Definition with_item (key text : string) (w : world) : world :=
  snd (set_localStorage (<[key := text]> (localStorage w)) w).

End StoreSpec.

(** ** Requests to Pinata *)

Module PinataSpec.

Import Js Effects.

Definition is_get (ev : event) : Prop := exists url, ev = EvHttp "GET" url.

Definition is_post (ev : event) : Prop := exists url, ev = EvHttp "POST" url.

(** The name [storeMappingToIPFS] gives the pin of a share code. *)
Definition pin_name (shareCode : string) : string :=
  "privshare-0g-" ++ replace_first "privshare://0g-" shareCode.

(** The document [storeMappingToIPFS] pins. *)
Definition pin_content (shareCode rootHash : string) (md : PinataStore.metadata)
  : PinataStore.metadata :=
  {| PinataStore.md_shareCode := Some shareCode;
     PinataStore.md_rootHash := Some rootHash;
     PinataStore.md_fileName := PinataStore.md_fileName md;
     PinataStore.md_fileSize := PinataStore.md_fileSize md;
     PinataStore.md_mimeType := PinataStore.md_mimeType md;
     PinataStore.md_isEncrypted := PinataStore.md_isEncrypted md;
     PinataStore.md_encryptionKey := PinataStore.md_encryptionKey md;
     PinataStore.md_iv := PinataStore.md_iv md;
     PinataStore.md_uploader := Some (or_else (PinataStore.md_uploader md) "anonymous");
     PinataStore.md_txHash := PinataStore.md_txHash md;
     PinataStore.md_provider := Some "0g-storage" |}.

Definition pin_event : event :=
  EvHttp "POST" (PinataStore.PINATA_API_URL ++ "/pinning/pinJSONToIPFS").

End PinataSpec.

(** ** The [node_crypto] stand-in of [ensureCryptoPolyfill] ([src/lib/0g-storage.ts]) *)

Module NodeCrypto.

Import Js.

(** [ToInt32]: the signed 32-bit value of an integer. *)
Definition to_int32 (z : Z) : Z := ((z + 2 ^ 31) mod 2 ^ 32 - 2 ^ 31)%Z.

(** [a << n] for [0 <= n < 32] *)
Definition shl (a n : Z) : Z := to_int32 (Z.shiftl (to_int32 a) n).

(** [a & b] *)
Definition band (a b : Z) : Z := Z.land (to_int32 a) (to_int32 b).

(** [str.charCodeAt(i)]; the characters of a text have codes below 256. *)
Definition charCodeAt (c : ascii) : Z := Z.of_nat (nat_of_ascii c).

(** The [for] loop of [digest], from the current value of [hash]. *)
Fixpoint hash_loop (str : string) (hash : Z) : Z :=
  match str with
  | EmptyString => hash
  | String c rest =>
      let hash1 := (shl hash 5 - hash + charCodeAt c)%Z in
      hash_loop rest (band hash1 hash1)
  end.

(** What a hasher has been fed: a string or a [Uint8Array]. *)
Inductive chunk : Type :=
| Text (s : string)
| Binary (b : list Byte.byte).

Section Hasher.

(** [new TextDecoder().decode] *)
Variable decode : list Byte.byte -> string.

Definition as_text (d : chunk) : string :=
  match d with
  | Text s => s
  | Binary b => decode b
  end.

(** [update(newData)] on the state [data] ([None] is [null]). *)
Definition update (data : option chunk) (newData : chunk) : option chunk :=
  match data with
  | None => Some newData
  | Some (Binary a) =>
      match newData with
      | Binary b => Some (Binary (a ++ b)%list)
      | Text _ => Some (Text (decode a ++ as_text newData))
      end
  | Some (Text a) => Some (Text (a ++ as_text newData))
  end.

(** The number [digest] renders. *)
Definition hash_of (data : chunk) : Z := hash_loop (as_text data) 0.

(** [digest(encoding)] of a hasher that was updated at least once; the
    algorithm name given to [createHash] is ignored by the code. *)
Definition digest (data : chunk) (encoding : string) : string :=
  let hash := hash_of data in
  if String.eqb encoding "hex"
  then HexadecimalString.NilZero.string_of_int (Z.to_hex_int hash)
  else ZgStorage.show hash.

End Hasher.

(** The polynomial [c0 * 31^(n-1) + ... + c(n-1)] of a string's character
    codes, on top of [31^n * acc]. *)
Fixpoint poly (str : string) (acc : Z) : Z :=
  match str with
  | EmptyString => acc
  | String c rest => poly rest (31 * acc + charCodeAt c)
  end.

End NodeCrypto.

(** ** Reading the service's loops: which node answers, which calls fetch data *)

Module ServiceSpec.

Import Js Effects.

(** The info node [node] gives for the file when it reports it finalized
    ([fileInfo && fileInfo.finalized]). *)
Definition finalized_info (e : ZgStorage.env) (ph : ZgStorage.phase)
           (rootHash : string) (node : nat) : option ZgStorage.fileInfo :=
  match ZgStorage.getFileInfo e ph node rootHash with
  | Ok (Some info) => if ZgStorage.finalized info then Some info else None
  | _ => None
  end.

(** The first finalized info in the order of [nodes]. *)
Fixpoint first_found (e : ZgStorage.env) (ph : ZgStorage.phase) (rootHash : string)
         (nodes : list nat) : option ZgStorage.fileInfo :=
  match nodes with
  | [] => None
  | node :: rest =>
      match finalized_info e ph rootHash node with
      | Some info => Some info
      | None => first_found e ph rootHash rest
      end
  end.

(** The nodes of [nodes] up to and including the first that reports the
    file finalized. *)
Fixpoint asked (e : ZgStorage.env) (ph : ZgStorage.phase) (rootHash : string)
         (nodes : list nat) : list nat :=
  match nodes with
  | [] => []
  | node :: rest =>
      match finalized_info e ph rootHash node with
      | Some _ => [node]
      | None => node :: asked e ph rootHash rest
      end
  end.

(** Node [node] answers [getShardConfig]. *)
Definition answered (e : ZgStorage.env) (node : nat) : bool :=
  is_ok (ZgStorage.getShardConfig e node).

(** The calls that fetch a file's content or prepare to. *)
Definition is_retrieval (ev : event) : bool :=
  match ev with
  | EvQueryFile _ | EvGetShardConfig _ | EvDownloadTask _
  | EvDownloadSegment _ _ _ _ => true
  | _ => false
  end.

(** The calls [initializeSDK] can make. *)
Definition is_sdk_load (ev : event) : Prop := ev = EvSdkLoad.

(** The result object of a failed upload. *)
Definition upload_failed (msg : string) : ZgStorage.UploadResult :=
  {| ZgStorage.up_success := false; ZgStorage.up_rootHash := "";
     ZgStorage.up_txHash := ""; ZgStorage.up_error := Some msg |}.

(** The result object of a failed download. *)
Definition download_failed (msg : string) : ZgStorage.DownloadResult :=
  {| ZgStorage.success := false; ZgStorage.data := None;
     ZgStorage.error := Some msg |}.

End ServiceSpec.

(** ** A computation seen from outside: calls, value, exception *)

Module Outcome.

Import Js Effects.

(** From any state, the calls [m] adds satisfy [P]; it returns only values
    satisfying [Q] and throws only values satisfying [E]. *)
Definition yields {A} (P : event -> Prop) (Q : A -> Prop) (E : thrown -> Prop)
           (m : Eff A) : Prop :=
  forall w, exists evs,
    trace (snd (m w)) = (trace w ++ evs)%list
    /\ Forall P evs
    /\ match fst (m w) with
       | Ok a => Q a
       | Throw t => E t
       end.

End Outcome.

(** ** [src/lib/wagmi.ts]: the chain the wallet is configured for *)

Module Wagmi.

(** The two revisions of the file. *)
Inductive revision : Type := Mainnet | Galileo.

(** [zgChain.id] *)
Definition zgChain_id (r : revision) : Z :=
  match r with
  | Mainnet => 16661
  | Galileo => 16601
  end.

End Wagmi.


(** ** Further situations *)

Module Cases.

Import Js Effects.

(** [e] with another answer to [getFileInfo]. *)
Definition with_getFileInfo
    (f : ZgStorage.phase -> nat -> string -> result (option ZgStorage.fileInfo))
    (e : ZgStorage.env) : ZgStorage.env :=
  {| ZgStorage.cdn_script := ZgStorage.cdn_script e;
     ZgStorage.new_Indexer := ZgStorage.new_Indexer e;
     ZgStorage.getFileLocations := ZgStorage.getFileLocations e;
     ZgStorage.getFileInfo := f;
     ZgStorage.queryFile := ZgStorage.queryFile e;
     ZgStorage.getShardConfig := ZgStorage.getShardConfig e;
     ZgStorage.downloadTask := ZgStorage.downloadTask e;
     ZgStorage.downloadSegmentByTxSeq := ZgStorage.downloadSegmentByTxSeq e;
     ZgStorage.decodeBase64 := ZgStorage.decodeBase64 e;
     ZgStorage.getAddress := ZgStorage.getAddress e;
     ZgStorage.new_Blob := ZgStorage.new_Blob e;
     ZgStorage.merkleTree := ZgStorage.merkleTree e;
     ZgStorage.getNetwork := ZgStorage.getNetwork e;
     ZgStorage.getBlockNumber := ZgStorage.getBlockNumber e;
     ZgStorage.getFeeData := ZgStorage.getFeeData e;
     ZgStorage.getBalance := ZgStorage.getBalance e;
     ZgStorage.estimateGas := ZgStorage.estimateGas e;
     ZgStorage.indexer_upload := ZgStorage.indexer_upload e |}.

(** [e] with the wallet on chain [chainId]. *)
Definition on_chain (chainId : Z) (e : ZgStorage.env) : ZgStorage.env :=
  {| ZgStorage.cdn_script := ZgStorage.cdn_script e;
     ZgStorage.new_Indexer := ZgStorage.new_Indexer e;
     ZgStorage.getFileLocations := ZgStorage.getFileLocations e;
     ZgStorage.getFileInfo := ZgStorage.getFileInfo e;
     ZgStorage.queryFile := ZgStorage.queryFile e;
     ZgStorage.getShardConfig := ZgStorage.getShardConfig e;
     ZgStorage.downloadTask := ZgStorage.downloadTask e;
     ZgStorage.downloadSegmentByTxSeq := ZgStorage.downloadSegmentByTxSeq e;
     ZgStorage.decodeBase64 := ZgStorage.decodeBase64 e;
     ZgStorage.getAddress := ZgStorage.getAddress e;
     ZgStorage.new_Blob := ZgStorage.new_Blob e;
     ZgStorage.merkleTree := ZgStorage.merkleTree e;
     ZgStorage.getNetwork := Ok chainId;
     ZgStorage.getBlockNumber := ZgStorage.getBlockNumber e;
     ZgStorage.getFeeData := ZgStorage.getFeeData e;
     ZgStorage.getBalance := ZgStorage.getBalance e;
     ZgStorage.estimateGas := ZgStorage.estimateGas e;
     ZgStorage.indexer_upload := ZgStorage.indexer_upload e |}.

Definition info_pending : ZgStorage.fileInfo :=
  {| ZgStorage.finalized := false;
     ZgStorage.tx := Some Scenarios.tx_one_segment;
     ZgStorage.uploadedSegNum := None;
     ZgStorage.numSegments := None |}.

(** The file is known to every node, finalized on none. *)
Definition pending : ZgStorage.env :=
  with_getFileInfo (fun _ _ _ => Ok (Some info_pending)) (Scenarios.healthy [Byte.x01]).

(** A page on which the service has been set up. *)
Definition ready : world :=
  {| localStorage := ∅; sdk_on_window := true; indexer_set := true;
     downloadInfo := None; trace := [] |}.

End Cases.


(** ** What [uploadFile] reports about the wallet's network *)

Module UploadSpec.

Import Js Effects.

(** The value thrown by the network check of [uploadFile]. *)
Definition wrong_network (chainId : Z) : thrown :=
  JsError ("Wrong network! Expected chainId 16602, got " ++ ZgStorage.show chainId).

(** Submission of the file: [indexer.upload]. *)
Definition is_submission (ev : event) : bool :=
  match ev with
  | EvIndexerUpload => true
  | _ => false
  end.

Definition asks_network (ev : event) : bool :=
  match ev with
  | EvRpc what => String.eqb what "getNetwork"
  | _ => false
  end.

End UploadSpec.


(** ** [src/config.ts] *)

Module Config.

(** [maxFileSize: 256 * 1024 * 1024] *)
Definition maxFileSize : Z := 256 * 1024 * 1024.

(** [enableProofVerification: true] *)
Definition enableProofVerification : bool := true.

End Config.

(** ** Counting segments *)

Module PlanSpec.

(** The segments of 1024 chunks a file of [size] bytes fills, the last one
    possibly in part. *)
Definition segments_needed (size : Z) : Z :=
  ((ZgStorage.numChunks size + 1023) / 1024)%Z.

(** Where in its segment the file's first chunk lies. *)
Definition first_offset (startEntryIndex : Z) : Z :=
  (startEntryIndex mod 1024)%Z.

(** Where in its segment the file's last chunk would lie if the file
    started on a segment boundary. *)
Definition last_offset (size : Z) : Z :=
  ((ZgStorage.numChunks size - 1) mod 1024)%Z.

End PlanSpec.


(** ** [getNetworkStatus] and [downloadFileAsBlob] of [ZgStorageService] *)

Module ZgStatus.

Import Js Effects.
Local Open Scope eff_scope.

(** What [getNetworkStatus] asks of the chain and of the indexer. *)
Record env : Type := {
  new_JsonRpcProvider : result unit;       (* new ethers.JsonRpcProvider(rpcUrl) *)
  provider_getBlockNumber : result Z;
  (* indexer.getShardedNodes(); [None] when it resolves to null or undefined *)
  getShardedNodes : result (option unit)
}.

(** The object [{ rpc, indexer }]. *)
Record status : Type := {
  rpc : bool;
  indexer : bool
}.

Definition getNetworkStatus (s : env) (e : ZgStorage.env) : Eff status :=
  try_catch
    (lift (new_JsonRpcProvider s) ;;;
     call (EvRpc "getBlockNumber") (provider_getBlockNumber s) ;;;
     ZgStorage.initializeSDK e ;;;
     nodes <- ZgStorage.on_indexer
                (call (EvRpc "getShardedNodes") (getShardedNodes s)) ;;
     match nodes with
     | None => throw_error "Cannot read properties of null"   (* nodes.trusted *)
     | Some _ => ret {| rpc := true; indexer := true |}
     end)
    (fun error =>
       throw_error ("Failed to initialize 0G Storage SDK: " ++ message_of error)).

(** [downloadFileAsBlob]: the bytes of the [Blob], or [null]. *)
Definition downloadFileAsBlob (e : ZgStorage.env) (rootHash : string) (withProof : bool)
  : Eff (option ZgStorage.bytes) :=
  try_catch
    (result <- ZgStorage.downloadFile e rootHash withProof ;;
     match ZgStorage.data result with
     | Some d => if ZgStorage.success result then ret (Some d) else ret None
     | None => ret None
     end)
    (fun _ => ret None).

End ZgStatus.

(** ** [src/providers/ZgStorageProvider.tsx] *)

Module Provider.

Import Js Effects.
Local Open Scope eff_scope.

(** The three pieces of React state of [ZgStorageProvider]. *)
Record state : Type := {
  zgStorage : bool;            (* zgStorage !== null *)
  isConnected : bool;
  error : option string
}.

Definition initial : state :=
  {| zgStorage := false; isConnected := false; error := None |}.

Definition setError (v : option string) (st : state) : state :=
  {| zgStorage := zgStorage st; isConnected := isConnected st; error := v |}.

Definition setZgStorage (v : bool) (st : state) : state :=
  {| zgStorage := v; isConnected := isConnected st; error := error st |}.

Definition setIsConnected (v : bool) (st : state) : state :=
  {| zgStorage := zgStorage st; isConnected := v; error := error st |}.

(** [initializeZgStorage]: the state it leaves.  The constructor of the
    service and the state setters do not throw, so the [catch] block runs
    exactly when [getNetworkStatus] rejects. *)
Definition initializeZgStorage (s : ZgStatus.env) (e : ZgStorage.env) (st : state)
  : Eff state :=
  let st := setError None st in
  let st := setZgStorage true st in
  r <- attempt (ZgStatus.getNetworkStatus s e) ;;
  match r with
  | Ok networkStatus =>
      if ZgStatus.rpc networkStatus && ZgStatus.indexer networkStatus
      then ret (setIsConnected true st)
      else ret (setError (Some "Failed to connect to 0G Storage")
                         (setIsConnected false st))
  | Throw error =>
      ret (setIsConnected false (setError (Some (message_of error)) st))
  end.

End Provider.


(** ** The key conversion of [useFileUpload] *)

Module HexKey.

(** [n.toString(16)] of a non-negative integer. *)
Definition toString16 (n : Z) : string :=
  HexadecimalString.NilZero.string_of_uint (N.to_hex_uint (Z.to_N n)).

(** [s.padStart(targetLength, fill)] with a fill of one character. *)
Definition padStart (targetLength : nat) (fill : ascii) (s : string) : string :=
  string_of_list_ascii (List.repeat fill (targetLength - String.length s)) ++ s.

(** [char => char.charCodeAt(0).toString(16).padStart(2, '0')], on the code
    [charCodeAt(0)] gives. *)
Definition hex2 (code : Z) : string := padStart 2 "0" (toString16 code).

(** [Array.from(customKey, ...).join('')], on the codes of the key's
    characters. *)
Definition hexKey (codes : list Z) : string := Js.join "" (map hex2 codes).

(** The codes of a key whose characters are all below 256. *)
Definition codes_of (key : string) : list Z :=
  map NodeCrypto.charCodeAt (list_ascii_of_string key).

(** All codes below 256. *)
Definition one_byte_each (codes : list Z) : Prop :=
  List.Forall (fun c => (0 <= c < 256)%Z) codes.

(** The codes below 256, in order. *)
Definition one_byte_codes : list Z := map Z.of_nat (seq 0 256).

Definition two_digits (c : Z) : bool := (String.length (hex2 c) =? 2)%nat.

Definition unlike_the_others (c : Z) : bool :=
  forallb (fun d => implb (String.eqb (hex2 c) (hex2 d)) (c =? d)%Z) one_byte_codes.

End HexKey.


(** ** [useFileUpload], the upload hook *)

Module UploadHook.

Import Js Effects.
Local Open Scope eff_scope.

(** The fields of the [File] the hook reads. *)
Record file : Type := {
  f_name : string;
  f_size : Z;
  f_type : string
}.

(** What the hook gets from its React context, the wallet, the cipher and
    the browser. *)
Record env : Type := {
  zgStorage_present : bool;              (* zgStorage !== null *)
  address : option string;               (* useAccount().address *)
  isConnected : bool;
  zgError : option string;
  signer_present : bool;                 (* useEthersSigner() *)
  (* encryptFile(file, key): iv and encryptedData *)
  encryptFile : string -> result (option string * string);
  atob : string -> result ZgStorage.bytes;
  generateKey : result string;
  arrayBuffer : result ZgStorage.bytes;  (* file.arrayBuffer() *)
  random : nat -> Q                      (* Math.random(), call by call *)
}.

Record UploadedInfo : Type := {
  ui_fileName : string;
  ui_fileSize : Z;
  ui_rootHash : string;
  ui_txHash : string;
  ui_shareCode : string;
  ui_encryptionKey : option string;
  ui_isEncrypted : bool
}.

(** What the hook has in hand once the file is on 0G Storage. *)
Record uploaded : Type := {
  result_of_upload : ZgStorage.UploadResult;
  encryptionKey : option string;
  iv : option string
}.

Definition show_bool (b : bool) : string := if b then "true" else "false".

(** The four checks at the head of [mutationFn]. *)
Definition checks (e : env) (f : file) : Eff unit :=
  if negb (zgStorage_present e)
  then throw_error
         "0G Storage not available. Please check your wallet connection and try again."
  else if negb (truthy (address e))
  then throw_error "Wallet not connected. Please connect your wallet to upload files."
  else if negb (isConnected e)
  then throw_error ("0G Storage connection failed: " ++ or_else (zgError e) "Unknown error")
  else if (Config.maxFileSize <? f_size f)%Z
  then throw_error ("File too large. Maximum size is "
                    ++ ZgStorage.show (Config.maxFileSize / 1024 / 1024) ++ "MB")
  else ret tt.

(** The bytes to upload, the key to show and the IV. *)
Definition prepare (e : env) (isEncrypted : bool) (customKey : option string)
  : Eff (ZgStorage.bytes * option string * option string) :=
  if isEncrypted then
    if truthy customKey then
      let key := or_else customKey "" in
      let hexKey := HexKey.hexKey (HexKey.codes_of key) in
      encryptedResult <- lift (encryptFile e hexKey) ;;
      fileData <- lift (atob e (snd encryptedResult)) ;;
      ret (fileData, Some key, fst encryptedResult)
    else
      key <- lift (generateKey e) ;;
      encryptedResult <- lift (encryptFile e key) ;;
      fileData <- lift (atob e (snd encryptedResult)) ;;
      ret (fileData, Some key, fst encryptedResult)
  else
    fileData <- lift (arrayBuffer e) ;;
    ret (fileData, None, None).

(** [mutationFn] up to the check of the upload's result. *)
Definition upload_part (e : env) (se : ZgStatus.env) (ze : ZgStorage.env)
           (f : file) (isEncrypted : bool) (customKey : option string)
  : Eff uploaded :=
  checks e f ;;;
  prepared <- prepare e isEncrypted customKey ;;
  networkStatus <- ZgStatus.getNetworkStatus se ze ;;
  if negb (ZgStatus.rpc networkStatus) || negb (ZgStatus.indexer networkStatus)
  then throw_error ("0G Storage network error: RPC="
                    ++ show_bool (ZgStatus.rpc networkStatus)
                    ++ ", Indexer=" ++ show_bool (ZgStatus.indexer networkStatus))
  else if negb (signer_present e) then throw_error "Wallet not connected"
  else
    uploadResult <- ZgStorage.uploadFile ze true ;;
    if negb (ZgStorage.up_success uploadResult)
    then throw_error ("Upload failed: "
                      ++ or_else (ZgStorage.up_error uploadResult) "Unknown error")
    else ret {| result_of_upload := uploadResult;
                encryptionKey := snd (fst prepared);
                iv := snd prepared |}.

(** The metadata object handed to [storeMappingToIPFS]. *)
Definition metadata_of (e : env) (f : file) (isEncrypted : bool) (u : uploaded)
  : PinataStore.metadata :=
  {| PinataStore.md_shareCode := None;
     PinataStore.md_rootHash := None;
     PinataStore.md_fileName := Some (f_name f);
     PinataStore.md_fileSize := Some (f_size f);
     PinataStore.md_mimeType := Some (f_type f);
     PinataStore.md_isEncrypted := Some isEncrypted;
     PinataStore.md_encryptionKey := encryptionKey u;
     PinataStore.md_iv := iv u;
     PinataStore.md_uploader := address e;
     PinataStore.md_txHash := Some (ZgStorage.up_txHash (result_of_upload u));
     PinataStore.md_provider := None |}.

(** The rest of [mutationFn]: the share code, its record, the info shown. *)
Definition share_part (e : env) (pe : PinataStore.env) (f : file) (isEncrypted : bool)
           (u : uploaded) : Eff UploadedInfo :=
  let shareCode := Pinata.generateRandomShareCode (random e) in
  let rootHash := ZgStorage.up_rootHash (result_of_upload u) in
  PinataStore.storeMappingToIPFS pe shareCode rootHash (metadata_of e f isEncrypted u) ;;;
  ret {| ui_fileName := f_name f;
         ui_fileSize := f_size f;
         ui_rootHash := rootHash;
         ui_txHash := ZgStorage.up_txHash (result_of_upload u);
         ui_shareCode := shareCode;
         ui_encryptionKey := encryptionKey u;
         ui_isEncrypted := isEncrypted |}.

(** [mutationFn] of [useFileUpload]; the value is the object given to
    [setUploadedInfo]. *)
Definition useFileUpload (e : env) (se : ZgStatus.env) (ze : ZgStorage.env)
           (pe : PinataStore.env) (f : file) (isEncrypted : bool)
           (customKey : option string) : Eff UploadedInfo :=
  u <- upload_part e se ze f isEncrypted customKey ;;
  share_part e pe f isEncrypted u.

End UploadHook.

(** ** Reading the trace of an upload *)

Module UploadTrace.

Import Js Effects.

(** The calls of the storage service when it uploads or reports its status. *)
Definition is_service_call (ev : event) : Prop :=
  match ev with
  | EvSdkLoad | EvRpc _ | EvIndexerUpload => True
  | _ => False
  end.

End UploadTrace.


(** ** What the upload hook hands out and pins *)

Module UploadHookSpec.

Import Js Effects.

(** The object the hook gives to [setUploadedInfo] after the upload [u]. *)
Definition info_of (e : UploadHook.env) (f : UploadHook.file) (isEncrypted : bool)
           (u : UploadHook.uploaded) : UploadHook.UploadedInfo :=
  {| UploadHook.ui_fileName := UploadHook.f_name f;
     UploadHook.ui_fileSize := UploadHook.f_size f;
     UploadHook.ui_rootHash := ZgStorage.up_rootHash (UploadHook.result_of_upload u);
     UploadHook.ui_txHash := ZgStorage.up_txHash (UploadHook.result_of_upload u);
     UploadHook.ui_shareCode := Pinata.generateRandomShareCode (UploadHook.random e);
     UploadHook.ui_encryptionKey := UploadHook.encryptionKey u;
     UploadHook.ui_isEncrypted := isEncrypted |}.

(** The request that pins the record of the upload [u]. *)
Definition pin_request (e : UploadHook.env) (pe : PinataStore.env) (f : UploadHook.file)
           (isEncrypted : bool) (u : UploadHook.uploaded)
  : result (PinataStore.response (option string)) :=
  PinataStore.pinJSONToIPFS pe
    (PinataSpec.pin_name (Pinata.generateRandomShareCode (UploadHook.random e)))
    (PinataSpec.pin_content
       (Pinata.generateRandomShareCode (UploadHook.random e))
       (ZgStorage.up_rootHash (UploadHook.result_of_upload u))
       (UploadHook.metadata_of e f isEncrypted u)).

(** The document that request carries. *)
Definition pinned_document (e : UploadHook.env) (f : UploadHook.file)
           (isEncrypted : bool) (u : UploadHook.uploaded) : PinataStore.metadata :=
  PinataSpec.pin_content
    (Pinata.generateRandomShareCode (UploadHook.random e))
    (ZgStorage.up_rootHash (UploadHook.result_of_upload u))
    (UploadHook.metadata_of e f isEncrypted u).

End UploadHookSpec.

(** ** Situations of an upload *)

Module UploadCases.

Import Js Effects.

Definition report : UploadHook.file :=
  {| UploadHook.f_name := "report.pdf"; UploadHook.f_size := 1;
     UploadHook.f_type := "application/pdf" |}.

(** Wallet and storage connected; the cipher answers with a fixed IV. *)
Definition uploader : UploadHook.env :=
  {| UploadHook.zgStorage_present := true;
     UploadHook.address := Some "0xabc";
     UploadHook.isConnected := true;
     UploadHook.zgError := None;
     UploadHook.signer_present := true;
     UploadHook.encryptFile := fun _ => Ok (Some "00ff", "AQ==");
     UploadHook.atob := fun _ => Ok [Byte.x01];
     UploadHook.generateKey := Ok "generated";
     UploadHook.arrayBuffer := Ok [Byte.x01];
     UploadHook.random := fun k => Z.of_nat (k mod 5) # 5 |}.

(** Chain and indexer answer. *)
Definition chain_up : ZgStatus.env :=
  {| ZgStatus.new_JsonRpcProvider := Ok tt;
     ZgStatus.provider_getBlockNumber := Ok 1%Z;
     ZgStatus.getShardedNodes := Ok (Some tt) |}.

(** No Pinata credentials in the environment. *)
Definition pinata_unconfigured : PinataStore.env :=
  {| PinataStore.pinata_configured := false;
     PinataStore.pinJSONToIPFS := PinataStore.pinJSONToIPFS Scenarios.pinata_online;
     PinataStore.pinList := PinataStore.pinList Scenarios.pinata_online;
     PinataStore.gateway := PinataStore.gateway Scenarios.pinata_online |}.

End UploadCases.


(** ** The download of a file that is not encrypted *)

Module PlainSpec.

Import Js Effects.

(** What the download hook makes of the result [dr] of [downloadFile] when
    the record has no IV. *)
Definition after_plain_fetch (code : string) (key : option string)
           (mapping : ZgStore.MappingRecord) (dr : ZgStorage.DownloadResult)
  : result Hooks.downloaded :=
  let fm := Hooks.metadata_of code mapping key in
  if ZgStorage.success dr then
    match ZgStorage.data dr with
    | None => Throw (JsError "No data received from 0G Storage")
    | Some received =>
        Ok {| Hooks.dl_fileName := Hooks.fileName fm;
              Hooks.dl_fileSize := Hooks.fileSize fm;
              Hooks.dl_mimeType := Hooks.mimeType fm;
              Hooks.dl_data := received |}
    end
  else Throw (JsError ("Download failed: "
                       ++ or_else (ZgStorage.error dr) "Unknown error")).

End PlainSpec.


(** ** What a computation leaves alone *)

Module Frame.

Import Js Effects.

(** [m] leaves [localStorage] as it is. *)
Definition keeps_storage {A} (m : Eff A) : Prop :=
  forall w, localStorage (snd (m w)) = localStorage w.

End Frame.


(** ** A source of random numbers for a given share code *)

Module Reach.

(** The position of [c] in [s] (the length of [s] when it is absent). *)
Fixpoint position (c : ascii) (s : string) : nat :=
  match s with
  | EmptyString => O
  | String x rest => if Ascii.eqb x c then O else S (position c rest)
  end.

(** The characters of a share code's groups, in order. *)
Definition letters (code : string) : list ascii :=
  List.filter (fun c => negb (Ascii.eqb c "-"))
              (list_ascii_of_string (Js.replace_first ZgMapping.SHARE_CODE_PREFIX code)).

(** Values of [Math.random()] that make the generators draw [chars]. *)
Definition draws_for (chars : list ascii) : nat -> Q :=
  fun k => Z.of_nat (position (nth k chars "a"%char) ZgMapping.SHARE_CODE_ALPHABET) # 36.

End Reach.

(** ** A page without usable [localStorage] *)

Module StoreCases.

Import Js Effects.

Definition no_storage : ZgStore.env :=
  {| ZgStore.storage_available := false;
     ZgStore.setItem_throws := false;
     ZgStore.JSON_stringify := fun _ => "{...}";
     ZgStore.JSON_parse := fun _ => Ok None |}.

End StoreCases.


(** ** The hooks under the provider's state *)

Module Wiring.

(** [useZgStorage()] as the upload hook sees it: the three values are the
    provider's state. *)
Definition for_upload (st : Provider.state) (e : UploadHook.env) : UploadHook.env :=
  {| UploadHook.zgStorage_present := Provider.zgStorage st;
     UploadHook.address := UploadHook.address e;
     UploadHook.isConnected := Provider.isConnected st;
     UploadHook.zgError := Provider.error st;
     UploadHook.signer_present := UploadHook.signer_present e;
     UploadHook.encryptFile := UploadHook.encryptFile e;
     UploadHook.atob := UploadHook.atob e;
     UploadHook.generateKey := UploadHook.generateKey e;
     UploadHook.arrayBuffer := UploadHook.arrayBuffer e;
     UploadHook.random := UploadHook.random e |}.

(** The same for the download hook. *)
Definition for_download (st : Provider.state) (e : Hooks.env) : Hooks.env :=
  {| Hooks.zgStorage_present := Provider.zgStorage st;
     Hooks.isConnected := Provider.isConnected st;
     Hooks.zgError := Provider.error st;
     Hooks.enableProofVerification := Hooks.enableProofVerification e;
     Hooks.decryptFileFromBlob := Hooks.decryptFileFromBlob e |}.

(** The chain cannot be reached. *)
Definition chain_down : ZgStatus.env :=
  {| ZgStatus.new_JsonRpcProvider := Js.Ok tt;
     ZgStatus.provider_getBlockNumber := Js.Throw (Js.JsError "timeout");
     ZgStatus.getShardedNodes := Js.Ok (Some tt) |}.

End Wiring.


(* ===================================================================== *)
(** * Part II: properties *)
(* ===================================================================== *)

(** ** Matching lemmas for the regular-expression fragment *)

Section RegexFacts.

Import Regex.

Lemma match_seq_iff (r1 r2 : regex) (s out : string) :
  match_re (Seq r1 r2) s = Some out <->
  exists mid, match_re r1 s = Some mid /\ match_re r2 mid = Some out.
Proof.
  simpl. destruct (match_re r1 s) as [mid|].
  - split; [ intros H; exists mid; auto | intros (m & Hm & H); congruence ].
  - split; [ discriminate | intros (m & Hm & _); discriminate ].
Qed.

Lemma match_lit_iff (c : ascii) (s out : string) :
  match_re (Lit c) s = Some out <-> s = String c out.
Proof.
  simpl. destruct s as [|a rest].
  - split; discriminate.
  - destruct (Ascii.eqb a c) eqn:E.
    + apply Ascii.eqb_eq in E. subst a. split; congruence.
    + apply Ascii.eqb_neq in E. split; [ discriminate | congruence ].
Qed.

Lemma match_repeat_0 (r : regex) (s : string) :
  match_re (Repeat 0 r) s = Some s.
Proof. reflexivity. Qed.

Lemma match_repeat_S (n : nat) (r : regex) (s : string) :
  match_re (Repeat (S n) r) s =
  match match_re r s with
  | Some rest => match_re (Repeat n r) rest
  | None => None
  end.
Proof. reflexivity. Qed.

Lemma match_text_iff (p : string) (k : regex) (s out : string) :
  match_re (text p k) s = Some out <->
  exists rest, s = p ++ rest /\ match_re k rest = Some out.
Proof.
  revert s. induction p as [|c p IH]; intros s.
  - simpl. split; [ intros H; exists s; auto | intros (rest & -> & H); exact H ].
  - change (text (String c p) k) with (Seq (Lit c) (text p k)).
    rewrite match_seq_iff. split.
    + intros (mid & H1 & H2). apply match_lit_iff in H1. subst s.
      apply IH in H2. destruct H2 as (rest & -> & H2). exists rest. auto.
    + intros (rest & -> & H). exists (p ++ rest). split.
      * apply match_lit_iff. reflexivity.
      * apply IH. exists rest. auto.
Qed.

(** [cls{n}] consumes exactly [n] characters of the class. *)
Lemma match_repeat_class_iff (n : nat) (rg : list (ascii * ascii)) (s out : string) :
  match_re (Repeat n (Class rg)) s = Some out <->
  exists g, String.length g = n /\ Grammar.all_chars (in_class rg) g = true
            /\ s = g ++ out.
Proof.
  revert s. induction n as [|n IH]; intros s.
  - rewrite match_repeat_0. split.
    + intros [= ->]. exists "". auto.
    + intros (g & Hl & _ & ->). destruct g; [ reflexivity | discriminate ].
  - rewrite match_repeat_S. split.
    + destruct s as [|a rest]; simpl; [ discriminate |].
      destruct (in_class rg a) eqn:E; [| discriminate ].
      intros H. apply IH in H. destruct H as (g & Hl & Hc & ->).
      exists (String a g). simpl. rewrite E, Hc, Hl. auto.
    + intros (g & Hl & Hc & ->). destruct g as [|a g]; [ discriminate |].
      simpl in *. apply andb_true_iff in Hc. destruct Hc as [Ha Hc].
      rewrite Ha. apply IH. exists g. repeat split; auto.
Qed.

End RegexFacts.

(** ** Share codes: both validators accept exactly the grammar *)

Section ShareCodeFacts.

Import Regex.

Lemma append_assoc_s (a b c : string) : (a ++ b) ++ c = a ++ (b ++ c).
Proof. induction a as [|x a IH]; simpl; [ reflexivity | now rewrite IH ]. Qed.

Lemma append_nil_r_s (a : string) : a ++ "" = a.
Proof. induction a as [|x a IH]; simpl; [ reflexivity | now rewrite IH ]. Qed.

Lemma append_inv_head_s (p a b : string) : p ++ a = p ++ b -> a = b.
Proof. induction p as [|x p IH]; simpl; [ auto | intros [= H]; auto ]. Qed.

Lemma all_chars_ext (p q : ascii -> bool) (s : string) :
  (forall c, p c = q c) -> Grammar.all_chars p s = Grammar.all_chars q s.
Proof. intros E. induction s as [|c s IH]; simpl; [ reflexivity | now rewrite E, IH ]. Qed.

Lemma class_is_lower_alnum (c : ascii) :
  in_class [("a"%char, "z"%char); ("0"%char, "9"%char)] c = Grammar.lower_alnum c.
Proof.
  unfold in_class, in_range, Grammar.lower_alnum. simpl existsb.
  change (nat_of_ascii "a") with 97%nat. change (nat_of_ascii "z") with 122%nat.
  change (nat_of_ascii "0") with 48%nat. change (nat_of_ascii "9") with 57%nat.
  now rewrite orb_false_r.
Qed.

(** One group of the pattern, [[a-z0-9]{4}], against the grammar's group. *)
Lemma match_group_iff (s out : string) :
  match_re (Repeat 4 (Class [("a"%char, "z"%char); ("0"%char, "9"%char)])) s = Some out
  <-> exists g, Grammar.is_group g = true /\ s = g ++ out.
Proof.
  rewrite match_repeat_class_iff. unfold Grammar.is_group.
  split; intros (g & H).
  - destruct H as (Hl & Hc & ->). exists g. split; [| reflexivity ].
    rewrite Hl. simpl.
    rewrite (all_chars_ext _ _ g (fun c => eq_sym (class_is_lower_alnum c))).
    exact Hc.
  - destruct H as (Hg & ->). apply andb_true_iff in Hg. destruct Hg as [Hl Hc].
    exists g. repeat split.
    + now apply Nat.eqb_eq in Hl.
    + rewrite (all_chars_ext _ _ g class_is_lower_alnum). exact Hc.
Qed.

(** The grammar unfolded: four named groups. *)
Lemma well_formed_iff (s : string) :
  Grammar.well_formed s <->
  exists g1 g2 g3 g4,
    Grammar.is_group g1 = true /\ Grammar.is_group g2 = true /\
    Grammar.is_group g3 = true /\ Grammar.is_group g4 = true /\
    s = Grammar.prefix ++ g1 ++ "-" ++ g2 ++ "-" ++ g3 ++ "-" ++ g4.
Proof.
  unfold Grammar.well_formed, Grammar.of_groups. split.
  - intros (gs & Hl & Hg & ->).
    destruct gs as [|g1 [|g2 [|g3 [|g4 [|? ?]]]]]; try discriminate.
    simpl in Hg. rewrite !andb_true_iff in Hg.
    destruct Hg as (H1 & H2 & H3 & H4 & _).
    exists g1, g2, g3, g4. repeat split; auto.
  - intros (g1 & g2 & g3 & g4 & H1 & H2 & H3 & H4 & ->).
    exists [g1; g2; g3; g4]. repeat split.
    simpl. now rewrite H1, H2, H3, H4.
Qed.

Lemma test_anchored_iff (r : regex) (s : string) :
  test_anchored r s = true <-> match_re r s = Some "".
Proof.
  unfold test_anchored. destruct (match_re r s) as [[|c t]|];
    split; congruence.
Qed.

Lemma pinata_validate_iff (s : string) :
  Pinata.validateShareCode s = true <-> Grammar.well_formed s.
Proof.
  unfold Pinata.validateShareCode. rewrite test_anchored_iff, well_formed_iff.
  unfold Pinata.pattern, Pinata.alnum. rewrite match_text_iff. split.
  - intros (r0 & -> & H).
    apply match_seq_iff in H. destruct H as (r1 & G1 & H).
    apply match_group_iff in G1. destruct G1 as (g1 & G1 & ->).
    apply match_seq_iff in H. destruct H as (r2 & D1 & H).
    apply match_lit_iff in D1. subst r1.
    apply match_seq_iff in H. destruct H as (r3 & G2 & H).
    apply match_group_iff in G2. destruct G2 as (g2 & G2 & ->).
    apply match_seq_iff in H. destruct H as (r4 & D2 & H).
    apply match_lit_iff in D2. subst r3.
    apply match_seq_iff in H. destruct H as (r5 & G3 & H).
    apply match_group_iff in G3. destruct G3 as (g3 & G3 & ->).
    apply match_seq_iff in H. destruct H as (r6 & D3 & H).
    apply match_lit_iff in D3. subst r5.
    apply match_group_iff in H. destruct H as (g4 & G4 & ->).
    exists g1, g2, g3, g4. rewrite append_nil_r_s. repeat split; auto.
  - intros (g1 & g2 & g3 & g4 & H1 & H2 & H3 & H4 & ->).
    eexists. split; [ reflexivity |].
    apply match_seq_iff. eexists. split; [ apply match_group_iff; eauto |].
    apply match_seq_iff. eexists. split; [ apply match_lit_iff; reflexivity |].
    apply match_seq_iff. eexists. split; [ apply match_group_iff; eauto |].
    apply match_seq_iff. eexists. split; [ apply match_lit_iff; reflexivity |].
    apply match_seq_iff. eexists. split; [ apply match_group_iff; eauto |].
    apply match_seq_iff. eexists. split; [ apply match_lit_iff; reflexivity |].
    apply match_group_iff. exists g4. rewrite append_nil_r_s. auto.
Qed.

(** One ["xxxx-"] block of the 0G pattern. *)
Lemma match_block_iff (s out : string) :
  match_re (Seq (Repeat 4 (Class [("a"%char, "z"%char); ("0"%char, "9"%char)]))
                (Lit "-")) s = Some out
  <-> exists g, Grammar.is_group g = true /\ s = g ++ "-" ++ out.
Proof.
  rewrite match_seq_iff. split.
  - intros (mid & G & D). apply match_group_iff in G. destruct G as (g & G & ->).
    apply match_lit_iff in D. subst mid. exists g. auto.
  - intros (g & G & ->). exists ("-" ++ out). split.
    + apply match_group_iff. eauto.
    + apply match_lit_iff. reflexivity.
Qed.

Lemma zg_validate_iff (s : string) :
  ZgMapping.validateShareCode s = true <-> Grammar.well_formed s.
Proof.
  rewrite well_formed_iff. unfold ZgMapping.validateShareCode.
  destruct s as [|c0 s0].
  { simpl. split; [ discriminate |].
    intros (g1 & g2 & g3 & g4 & _ & _ & _ & _ & E). discriminate E. }
  cbn [Js.truthy_string negb]. rewrite test_anchored_iff.
  unfold ZgMapping.pattern, ZgMapping.alnum, ZgMapping.SHARE_CODE_PREFIX,
    ZgMapping.SHARE_CODE_BODY_GROUPS, ZgMapping.SHARE_CODE_GROUP_LENGTH.
  change (4 - 1)%nat with 3%nat.
  rewrite match_text_iff. split.
  - intros (r0 & E & H). rewrite E. clear E.
    apply match_seq_iff in H. destruct H as (r1 & B & G4).
    rewrite match_repeat_S in B.
    destruct (match_re _ r0) as [m1|] eqn:B1; [| discriminate ].
    rewrite match_repeat_S in B.
    destruct (match_re _ m1) as [m2|] eqn:B2; [| discriminate ].
    rewrite match_repeat_S in B.
    destruct (match_re _ m2) as [m3|] eqn:B3; [| discriminate ].
    rewrite match_repeat_0 in B. injection B as ->.
    apply match_block_iff in B1. destruct B1 as (g1 & G1 & ->).
    apply match_block_iff in B2. destruct B2 as (g2 & G2 & ->).
    apply match_block_iff in B3. destruct B3 as (g3 & G3 & ->).
    apply match_group_iff in G4. destruct G4 as (g4 & G4 & ->).
    exists g1, g2, g3, g4. rewrite append_nil_r_s. repeat split; auto.
  - intros (g1 & g2 & g3 & g4 & H1 & H2 & H3 & H4 & E).
    eexists. split; [ exact E |].
    apply match_seq_iff. exists g4. split.
    + rewrite match_repeat_S.
      replace (match_re _ (g1 ++ "-" ++ g2 ++ "-" ++ g3 ++ "-" ++ g4))
        with (Some (g2 ++ "-" ++ g3 ++ "-" ++ g4))
        by (symmetry; apply match_block_iff; eauto).
      rewrite match_repeat_S.
      replace (match_re _ (g2 ++ "-" ++ g3 ++ "-" ++ g4))
        with (Some (g3 ++ "-" ++ g4))
        by (symmetry; apply match_block_iff; eauto).
      rewrite match_repeat_S.
      replace (match_re _ (g3 ++ "-" ++ g4)) with (Some g4)
        by (symmetry; apply match_block_iff; eauto).
      apply match_repeat_0.
    + apply match_group_iff. exists g4. rewrite append_nil_r_s. auto.
Qed.

End ShareCodeFacts.

(** ** Share codes: what the generators draw *)

Section GeneratorFacts.

Variable rnd : nat -> Q.
Hypothesis rnd_unit : forall k, (0 <= rnd k)%Q /\ (rnd k < 1)%Q.

Lemma floor_mul_range (r : Q) (n : nat) :
  (0 <= r)%Q -> (r < 1)%Q -> (0 < n)%nat ->
  (0 <= Js.floor_mul r n < Z.of_nat n)%Z.
Proof.
  intros H0 H1 Hn. unfold Js.floor_mul.
  set (m := inject_Z (Z.of_nat n)).
  assert (Hm : (0 < m)%Q).
  { unfold m. change 0%Q with (inject_Z 0). rewrite <- Zlt_Qlt. lia. }
  split.
  - change 0%Z with (Qfloor 0). apply Qfloor_resp_le.
    apply Qmult_le_0_compat; [ exact H0 | apply Qlt_le_weak; exact Hm ].
  - assert (Hlt : (r * m < 1 * m)%Q)
      by (apply (proj2 (Qmult_lt_r _ _ _ Hm)); exact H1).
    rewrite Qmult_1_l in Hlt.
    assert (Hf : (inject_Z (Qfloor (r * m)) < m)%Q).
    { eapply Qle_lt_trans; [ apply Qfloor_le | exact Hlt ]. }
    unfold m in Hf. now rewrite <- Zlt_Qlt in Hf.
Qed.

Lemma alphabet_char (i : Z) :
  (0 <= i < 36)%Z ->
  exists c, String.get (Z.to_nat i) "abcdefghijklmnopqrstuvwxyz0123456789" = Some c
            /\ Grammar.lower_alnum c = true.
Proof.
  intros Hi. assert (Hn : (Z.to_nat i < 36)%nat) by lia.
  revert Hn. generalize (Z.to_nat i) as n. intros n Hn.
  do 36 (destruct n as [|n]; [ eexists; split; reflexivity |]).
  lia.
Qed.

Lemma lower_alnum_not_terminator (c : ascii) :
  Grammar.lower_alnum c = true -> Regex.is_line_terminator c = false.
Proof.
  unfold Grammar.lower_alnum, Regex.is_line_terminator.
  generalize (nat_of_ascii c) as n. intros n H.
  apply orb_true_iff in H. rewrite !andb_true_iff, !Nat.leb_le in H.
  apply orb_false_iff. split; apply Nat.eqb_neq; lia.
Qed.

(** One draw of the 0G generator appends one character of the alphabet. *)
Lemma zg_draw (k : nat) :
  exists c, Js.index_text ZgMapping.SHARE_CODE_ALPHABET
              (Js.floor_mul (rnd k) (String.length ZgMapping.SHARE_CODE_ALPHABET))
            = String c "" /\ Grammar.lower_alnum c = true.
Proof.
  destruct (rnd_unit k) as [H0 H1].
  pose proof (floor_mul_range (rnd k) 36 H0 H1 ltac:(lia)) as Hr.
  change (String.length ZgMapping.SHARE_CODE_ALPHABET) with 36%nat.
  destruct (alphabet_char _ Hr) as (c & Hc & Hal).
  exists c. split; [| exact Hal ].
  unfold Js.index_text, ZgMapping.SHARE_CODE_ALPHABET.
  destruct (Z.ltb_spec (Js.floor_mul (rnd k) 36) 0) as [Hneg|_]; [ lia |].
  now rewrite Hc.
Qed.

(** One draw of the Pinata generator, likewise. *)
Lemma pinata_draw (k : nat) :
  exists c, Js.charAt Pinata.chars
              (Js.floor_mul (rnd k) (String.length Pinata.chars))
            = String c "" /\ Grammar.lower_alnum c = true.
Proof.
  destruct (rnd_unit k) as [H0 H1].
  pose proof (floor_mul_range (rnd k) 36 H0 H1 ltac:(lia)) as Hr.
  change (String.length Pinata.chars) with 36%nat.
  destruct (alphabet_char _ Hr) as (c & Hc & Hal).
  exists c. split; [| exact Hal ].
  unfold Js.charAt, Pinata.chars.
  destruct (Z.ltb_spec (Js.floor_mul (rnd k) 36) 0) as [Hneg|_]; [ lia |].
  now rewrite Hc.
Qed.

Lemma randomGroup_is_group (k : nat) :
  exists g, ZgMapping.randomGroup rnd k = (g, (4 + k)%nat)
            /\ Grammar.is_group g = true.
Proof.
  unfold ZgMapping.randomGroup, ZgMapping.SHARE_CODE_GROUP_LENGTH.
  destruct (zg_draw k) as (c0 & E0 & A0).
  destruct (zg_draw (S k)) as (c1 & E1 & A1).
  destruct (zg_draw (S (S k))) as (c2 & E2 & A2).
  destruct (zg_draw (S (S (S k)))) as (c3 & E3 & A3).
  exists (String c0 (String c1 (String c2 (String c3 "")))). split.
  - cbn [ZgMapping.randomGroup_loop]. rewrite E0, E1, E2, E3. reflexivity.
  - unfold Grammar.is_group. simpl. now rewrite A0, A1, A2, A3.
Qed.

Lemma generateShareCode_well_formed :
  Grammar.well_formed (ZgMapping.generateShareCode rnd).
Proof.
  unfold ZgMapping.generateShareCode, ZgMapping.SHARE_CODE_BODY_GROUPS.
  destruct (randomGroup_is_group 0) as (g1 & E1 & G1).
  destruct (randomGroup_is_group 4) as (g2 & E2 & G2).
  destruct (randomGroup_is_group 8) as (g3 & E3 & G3).
  destruct (randomGroup_is_group 12) as (g4 & E4 & G4).
  cbn [ZgMapping.groups_from]. rewrite E1. cbn [Nat.add].
  rewrite E2. cbn [Nat.add]. rewrite E3. cbn [Nat.add]. rewrite E4.
  exists [g1; g2; g3; g4]. repeat split.
  simpl. now rewrite G1, G2, G3, G4.
Qed.

(** Four draws of the Pinata loop append one group. *)
Lemma draw_chars_group (k : nat) :
  exists g, Grammar.is_group g = true /\
            forall n acc, Pinata.draw_chars rnd k (4 + n) acc
                          = Pinata.draw_chars rnd (4 + k) n (acc ++ g).
Proof.
  destruct (pinata_draw k) as (c0 & E0 & A0).
  destruct (pinata_draw (S k)) as (c1 & E1 & A1).
  destruct (pinata_draw (S (S k))) as (c2 & E2 & A2).
  destruct (pinata_draw (S (S (S k)))) as (c3 & E3 & A3).
  exists (String c0 (String c1 (String c2 (String c3 "")))). split.
  - unfold Grammar.is_group. simpl. now rewrite A0, A1, A2, A3.
  - intros n acc. cbn [Nat.add Pinata.draw_chars].
    rewrite E0, E1, E2, E3. rewrite !append_assoc_s. reflexivity.
Qed.

Lemma is_group_chars (g : string) :
  Grammar.is_group g = true ->
  exists c0 c1 c2 c3,
    g = String c0 (String c1 (String c2 (String c3 ""))) /\
    Grammar.lower_alnum c0 = true /\ Grammar.lower_alnum c1 = true /\
    Grammar.lower_alnum c2 = true /\ Grammar.lower_alnum c3 = true.
Proof.
  unfold Grammar.is_group. intros H. apply andb_true_iff in H.
  destruct H as [Hl Hc]. apply Nat.eqb_eq in Hl.
  destruct g as [|c0 [|c1 [|c2 [|c3 [|c4 g]]]]]; try discriminate.
  simpl in Hc. rewrite !andb_true_iff in Hc.
  destruct Hc as (A0 & A1 & A2 & A3 & _).
  exists c0, c1, c2, c3. auto.
Qed.

(** [match(/.{1,4}/g)] cuts a leading group off as one piece. *)
Lemma pieces_group (g rest : string) (acc : list string) :
  Grammar.is_group g = true ->
  Regex.pieces 4 (g ++ rest) "" 4 acc = Regex.pieces 4 rest "" 4 (acc ++ [g])%list.
Proof.
  intros H. destruct (is_group_chars g H) as (c0 & c1 & c2 & c3 & -> & A0 & A1 & A2 & A3).
  apply lower_alnum_not_terminator in A0, A1, A2, A3.
  simpl. now rewrite A0, A1, A2, A3.
Qed.

Lemma generateRandomShareCode_well_formed :
  Grammar.well_formed (Pinata.generateRandomShareCode rnd).
Proof.
  unfold Pinata.generateRandomShareCode.
  destruct (draw_chars_group 0) as (g1 & G1 & D1).
  destruct (draw_chars_group 4) as (g2 & G2 & D2).
  destruct (draw_chars_group 8) as (g3 & G3 & D3).
  destruct (draw_chars_group 12) as (g4 & G4 & D4).
  assert (E : Pinata.draw_chars rnd 0 16 "" = ((g1 ++ g2) ++ g3) ++ g4).
  { etransitivity; [ exact (D1 12%nat "") |].
    etransitivity; [ exact (D2 8%nat _) |].
    etransitivity; [ exact (D3 4%nat _) |].
    etransitivity; [ exact (D4 0%nat _) |]. reflexivity. }
  rewrite E. clear E D1 D2 D3 D4.
  rewrite !append_assoc_s.
  unfold Regex.match_all_dot_1_4.
  rewrite (pieces_group g1 _ _ G1), (pieces_group g2 _ _ G2), (pieces_group g3 _ _ G3).
  rewrite <- (append_nil_r_s g4) at 1. rewrite (pieces_group g4 _ _ G4).
  cbn [Regex.pieces Regex.flush app].
  destruct (is_group_chars g1 G1) as (c0 & c1 & c2 & c3 & -> & _).
  cbn [Js.join Js.truthy_string append].
  apply well_formed_iff.
  exists (String c0 (String c1 (String c2 (String c3 "")))), g2, g3, g4.
  repeat split; auto.
Qed.

End GeneratorFacts.

(** ** The effect monad and the trace *)

Section EffectFacts.

Import Js Effects.

Lemma log_nil (w : world) : log [] w = w.
Proof. destruct w. unfold log. simpl. now rewrite app_nil_r. Qed.

Lemma log_log (a b : list event) (w : world) : log b (log a w) = log (a ++ b)%list w.
Proof. unfold log. simpl. now rewrite app_assoc. Qed.

Lemma trace_log (evs : list event) (w : world) : trace (log evs w) = (trace w ++ evs)%list.
Proof. reflexivity. Qed.

Lemma localStorage_log (evs : list event) (w : world) :
  localStorage (log evs w) = localStorage w.
Proof. reflexivity. Qed.

End EffectFacts.

(** ** Reassembly is concatenation *)

Section AssembleFacts.

Import ZgStorage.

Lemma fold_length_from (segments : list bytes) (n : nat) :
  fold_left (fun sum seg => (sum + List.length seg)%nat) segments n
  = (n + List.length (concat segments))%nat.
Proof.
  revert n. induction segments as [|seg rest IH]; intros n; simpl.
  - lia.
  - rewrite IH, length_app. lia.
Qed.

Lemma set_at_fill (done seg : bytes) (z : nat) :
  (List.length seg <= z)%nat ->
  set_at (done ++ replicate z Byte.x00)%list seg (List.length done)
  = ((done ++ seg) ++ replicate (z - List.length seg) Byte.x00)%list.
Proof.
  intros Hz. unfold set_at.
  rewrite take_app_length, drop_app_add, drop_replicate.
  now rewrite <- app_assoc.
Qed.

Lemma fill_segments (segments : list bytes) (done : bytes) (z : nat) :
  (List.length (concat segments) <= z)%nat ->
  fold_left
    (fun (st : bytes * nat) seg =>
       (set_at (fst st) seg (snd st), (snd st + List.length seg)%nat))
    segments ((done ++ replicate z Byte.x00)%list, List.length done)
  = (((done ++ concat segments)
        ++ replicate (z - List.length (concat segments)) Byte.x00)%list,
     (List.length done + List.length (concat segments))%nat).
Proof.
  revert done z. induction segments as [|seg rest IH]; intros done z Hz.
  - simpl. rewrite app_nil_r, Nat.sub_0_r, Nat.add_0_r. reflexivity.
  - simpl in Hz. rewrite length_app in Hz.
    cbn [fold_left fst snd]. rewrite set_at_fill by lia.
    replace (List.length done + List.length seg)%nat
      with (List.length (done ++ seg)%list) by (rewrite length_app; lia).
    rewrite IH by lia. cbn [concat]. rewrite !length_app, <- !app_assoc.
    rewrite Nat.sub_add_distr, Nat.add_assoc. reflexivity.
Qed.

Lemma assemble_concat (segments : list bytes) : assemble segments = concat segments.
Proof.
  unfold assemble. rewrite fold_length_from. cbn [Nat.add].
  pose proof (fill_segments segments [] (List.length (concat segments)) (le_n _)) as H.
  cbn [app List.length] in H. rewrite H. cbn [fst].
  rewrite Nat.sub_diag. apply app_nil_r.
Qed.

End AssembleFacts.

(** ** The two segment loops *)

Section LoopFacts.

Import Js Effects ZgStorage.

Variable e : env.

Lemma task_loop_spec (chunks : Z) (withProof : bool) (tasks : list nat) :
  forall (segments : list bytes) (w : world),
    task_loop e chunks withProof tasks segments w
    = (Ok (segments ++ Kept.keep (Kept.of_task e chunks withProof) tasks)%list,
       log (map EvDownloadTask tasks) w).
Proof.
  induction tasks as [|taskInd rest IH]; intros segments w.
  - simpl. unfold ret. now rewrite app_nil_r, log_nil.
  - cbn [task_loop Kept.keep map]. unfold bind, attempt, call, Kept.of_task.
    destruct (downloadTask e taskInd chunks withProof) as [[segmentData [taskError|]]|err].
    + rewrite IH, log_log. reflexivity.
    + destruct (nonempty_segment segmentData) as [d|].
      * rewrite IH, log_log, <- app_assoc. reflexivity.
      * rewrite IH, log_log. reflexivity.
    + rewrite IH, log_log. reflexivity.
Qed.

Lemma fallback_loop_spec (node : nat) (t : fileTx) (indices : list nat) :
  forall (segments : list bytes) (w : world),
    fallback_loop e node t indices segments w
    = (Ok (segments ++ Kept.keep (Kept.of_segment e node t) indices)%list,
       log (map (Kept.segment_event node t) indices) w).
Proof.
  induction indices as [|i rest IH]; intros segments w.
  - simpl. unfold ret. now rewrite app_nil_r, log_nil.
  - cbn [fallback_loop Kept.keep map].
    unfold bind, attempt, fallback_segment, call, lift, throw_error, throw,
      Kept.of_segment, Kept.segment_event, Kept.segment_bounds.
    cbn [bind].
    destruct (downloadSegmentByTxSeq e node (tx_seq t) _ _) as [segment|err].
    + destruct (truthy segment).
      * destruct (decodeBase64 e (or_else segment "")) as [d|err].
        -- destruct (nonempty_segment (Some d)) as [d'|].
           ++ rewrite IH, log_log, <- app_assoc. reflexivity.
           ++ rewrite IH, log_log. reflexivity.
        -- rewrite IH, log_log. reflexivity.
      * rewrite IH, log_log. reflexivity.
    + rewrite IH, log_log. reflexivity.
Qed.

Lemma combine_or_fail_spec (segments : list bytes) (w : world) :
  combine_or_fail segments w
  = (match segments with
     | [] => Throw (JsError "No segments were successfully downloaded")
     | _ => Ok (concat segments)
     end, w).
Proof.
  destruct segments as [|s rest]; [ reflexivity |].
  unfold combine_or_fail, ret. now rewrite assemble_concat.
Qed.

End LoopFacts.

(** ** Segment arithmetic of the download plan *)

Section PlanFacts.

Import ZgStorage.

Lemma Qfloor_div (n m : Z) : Qfloor (inject_Z n / inject_Z m) = (n / m)%Z.
Proof. symmetry. apply Zdiv_Qdiv. Qed.

Lemma numChunks_div (size : Z) : numChunks size = ((size + 255) / 256)%Z.
Proof.
  unfold numChunks, Qceiling, DEFAULT_CHUNK_SIZE.
  assert (E : (- (inject_Z size / inject_Z 256) == inject_Z (- size) / inject_Z 256)%Q).
  { rewrite inject_Z_opp. field. }
  rewrite (Qfloor_comp _ _ E), Qfloor_div.
  Z.div_mod_to_equations. lia.
Qed.

Lemma startSegmentIndex_div (startEntryIndex : Z) :
  startSegmentIndex startEntryIndex = (startEntryIndex / 1024)%Z.
Proof. apply Qfloor_div. Qed.

Lemma endSegmentIndex_div (startEntryIndex size : Z) :
  endSegmentIndex startEntryIndex size
  = ((startEntryIndex + (size + 255) / 256 - 1) / 1024)%Z.
Proof. unfold endSegmentIndex. now rewrite Qfloor_div, numChunks_div. Qed.

Lemma numTasks_positive (startEntryIndex size : Z) :
  (0 <= startEntryIndex)%Z -> (1 <= size)%Z ->
  (1 <= numTasks startEntryIndex size)%Z.
Proof.
  intros Hs Hz. unfold numTasks.
  rewrite endSegmentIndex_div, startSegmentIndex_div.
  Z.div_mod_to_equations. lia.
Qed.

End PlanFacts.

(** ** Rules for [emits] and [throws_with_message] *)

Section SpecRules.

Import Js Effects Spec.

Context {A B : Type}.

Lemma emits_ret (P : event -> Prop) (a : A) : emits P (ret a).
Proof. intros w. exists []. simpl. rewrite app_nil_r. auto. Qed.

Lemma emits_throw (P : event -> Prop) (t : thrown) : emits P (@throw A t).
Proof. intros w. exists []. simpl. rewrite app_nil_r. auto. Qed.

Lemma emits_throw_error (P : event -> Prop) (msg : string) : emits P (@throw_error A msg).
Proof. apply emits_throw. Qed.

Lemma emits_lift (P : event -> Prop) (r : result A) : emits P (lift r).
Proof. intros w. exists []. simpl. rewrite app_nil_r. auto. Qed.

Lemma emits_call (P : event -> Prop) (ev : event) (r : result A) :
  P ev -> emits P (call ev r).
Proof. intros H w. exists [ev]. simpl. auto. Qed.

Lemma emits_bind (P : event -> Prop) (m : Eff A) (k : A -> Eff B) :
  emits P m -> (forall a, emits P (k a)) -> emits P (bind m k).
Proof.
  intros Hm Hk w. unfold bind. destruct (Hm w) as (evs & E & F).
  destruct (m w) as [[a|t] w1]; simpl in E.
  - destruct (Hk a w1) as (evs' & E' & F'). exists (evs ++ evs')%list.
    rewrite E', E, app_assoc. split; [ reflexivity | apply Forall_app; auto ].
  - exists evs. simpl. auto.
Qed.

Lemma emits_try_catch (P : event -> Prop) (m : Eff A) (h : thrown -> Eff A) :
  emits P m -> (forall t, emits P (h t)) -> emits P (try_catch m h).
Proof.
  intros Hm Hh w. unfold try_catch. destruct (Hm w) as (evs & E & F).
  destruct (m w) as [[a|t] w1]; simpl in E.
  - exists evs. simpl. auto.
  - destruct (Hh t w1) as (evs' & E' & F'). exists (evs ++ evs')%list.
    rewrite E', E, app_assoc. split; [ reflexivity | apply Forall_app; auto ].
Qed.

Lemma emits_attempt (P : event -> Prop) (m : Eff A) : emits P m -> emits P (attempt m).
Proof.
  intros Hm w. unfold attempt. destruct (Hm w) as (evs & E & F).
  destruct (m w) as [r w1]. exists evs. auto.
Qed.

Lemma emits_weaken (P Q : event -> Prop) (m : Eff A) :
  (forall ev, P ev -> Q ev) -> emits P m -> emits Q m.
Proof.
  intros HPQ Hm w. destruct (Hm w) as (evs & E & F). exists evs.
  split; [ exact E | eapply Forall_impl; eauto ].
Qed.

Lemma post_ret (Q : A -> Prop) (E : thrown -> Prop) (a : A) : Q a -> post Q E (ret a).
Proof. intros H w. exact H. Qed.

Lemma post_throw (Q : A -> Prop) (E : thrown -> Prop) (t : thrown) :
  E t -> post Q E (throw t).
Proof. intros H w. exact H. Qed.

Lemma post_throw_error (Q : A -> Prop) (E : thrown -> Prop) (msg : string) :
  E (JsError msg) -> post Q E (throw_error msg).
Proof. intros H w. exact H. Qed.

Lemma post_lift (Q : A -> Prop) (E : thrown -> Prop) (r : result A) :
  match r with Ok a => Q a | Throw t => E t end -> post Q E (lift r).
Proof. intros H w. exact H. Qed.

Lemma post_call (Q : A -> Prop) (E : thrown -> Prop) (ev : event) (r : result A) :
  match r with Ok a => Q a | Throw t => E t end -> post Q E (call ev r).
Proof. intros H w. exact H. Qed.

Lemma post_bind (Q' : A -> Prop) (Q : B -> Prop) (E : thrown -> Prop)
      (m : Eff A) (k : A -> Eff B) :
  post Q' E m -> (forall a, Q' a -> post Q E (k a)) -> post Q E (bind m k).
Proof.
  intros Hm Hk w. unfold bind. specialize (Hm w).
  destruct (m w) as [[a|t] w1]; simpl in *; [ apply Hk; exact Hm | exact Hm ].
Qed.

Lemma post_try_catch (Q : A -> Prop) (E' E : thrown -> Prop)
      (m : Eff A) (h : thrown -> Eff A) :
  post Q E' m -> (forall t, E' t -> post Q E (h t)) -> post Q E (try_catch m h).
Proof.
  intros Hm Hh w. unfold try_catch. specialize (Hm w).
  destruct (m w) as [[a|t] w1]; simpl in *; [ exact Hm | apply Hh; exact Hm ].
Qed.

Lemma post_attempt (Q : result A -> Prop) (E : thrown -> Prop) (m : Eff A) :
  (forall r, Q r) -> post Q E (attempt m).
Proof. intros H w. unfold attempt. destruct (m w). apply H. Qed.

Lemma post_weaken (Q Q' : A -> Prop) (E E' : thrown -> Prop) (m : Eff A) :
  (forall a, Q a -> Q' a) -> (forall t, E t -> E' t) -> post Q E m -> post Q' E' m.
Proof.
  intros HQ HE Hm w. specialize (Hm w).
  destruct (fst (m w)); [ apply HQ | apply HE ]; exact Hm.
Qed.

End SpecRules.

Section SpecRulesState.

Import Js Effects Spec.

Lemma emits_get_world (P : event -> Prop) : emits P get_world.
Proof. intros w. exists []. simpl. rewrite app_nil_r. auto. Qed.

Lemma emits_set_localStorage (P : event -> Prop) ls : emits P (set_localStorage ls).
Proof. intros w. exists []. simpl. rewrite app_nil_r. auto. Qed.

Lemma emits_set_sdk_on_window (P : event -> Prop) b : emits P (set_sdk_on_window b).
Proof. intros w. exists []. simpl. rewrite app_nil_r. auto. Qed.

Lemma emits_set_indexer (P : event -> Prop) b : emits P (set_indexer b).
Proof. intros w. exists []. simpl. rewrite app_nil_r. auto. Qed.

Lemma emits_setDownloadInfo (P : event -> Prop) d : emits P (setDownloadInfo d).
Proof. intros w. exists []. simpl. rewrite app_nil_r. auto. Qed.

Lemma post_get_world (Q : world -> Prop) (E : thrown -> Prop) :
  (forall w, Q w) -> post Q E get_world.
Proof. intros H w. apply H. Qed.

Lemma post_unit (E : thrown -> Prop) (m : Eff unit) :
  (forall w, exists w', m w = (Ok tt, w')) -> post (fun _ => True) E m.
Proof. intros H w. destruct (H w) as (w' & ->). exact I. Qed.

Lemma prefixed_message (p s : string) : p <> "" -> p ++ s <> "".
Proof. destruct p; [ congruence | discriminate ]. Qed.

Lemma post_total {A} (Q : A -> Prop) (m : Eff A) :
  post Q (fun _ => False) m -> forall w, exists a w', m w = (Ok a, w') /\ Q a.
Proof.
  intros H w. specialize (H w). destruct (m w) as [[a|t] w']; simpl in H;
    [ eauto | contradiction ].
Qed.

End SpecRulesState.

(** ** The storage service: what its methods return and throw *)

Section ServiceFacts.

Import Js Effects Spec ZgStorage.

Variable e : env.

Abbreviation Emsg := (carries_message e).

Lemma post_trivial {A} (m : Eff A) : post (fun _ => True) (fun _ => True) m.
Proof. intros w. destruct (fst (m w)); exact I. Qed.

Lemma own_message (msg : string) : msg <> "" -> Emsg (JsError msg).
Proof. intros H. left. exact H. Qed.

Lemma collaborator_message {A} (r : result A) :
  (forall t, r = Throw t -> raised_by_collaborator e t) ->
  match r with Ok _ => True | Throw t => Emsg t end.
Proof. destruct r as [a|t]; [ auto | intros H; right; now apply H ]. Qed.

Lemma post_initializeSDK : post (fun _ => True) Emsg (initializeSDK e).
Proof.
  unfold initializeSDK.
  apply post_bind with (Q' := fun _ => True); [ now apply post_get_world |].
  intros w _. destruct (indexer_set w); [ now apply post_ret |].
  apply post_try_catch with (E' := fun _ => True); [ apply post_trivial |].
  intros t _. apply post_throw_error, own_message, prefixed_message. discriminate.
Qed.

Lemma post_on_indexer {A} (Q : A -> Prop) (m : Eff A) :
  post Q Emsg m -> post Q Emsg (on_indexer m).
Proof.
  intros Hm. unfold on_indexer.
  apply post_bind with (Q' := fun _ => True); [ now apply post_get_world |].
  intros w _. destruct (indexer_set w); [ exact Hm |].
  apply post_throw_error, own_message. discriminate.
Qed.

Lemma post_nonempty_locations (locations : option (list string)) :
  post (fun _ => True) Emsg (nonempty_locations locations).
Proof.
  destruct locations as [[|l ls]|]; simpl;
    first [ now apply post_ret | apply post_throw_error, own_message; discriminate ].
Qed.

Lemma post_locations (ph : phase) (root : string) :
  post (fun _ => True) Emsg
       (on_indexer (call (EvGetFileLocations root) (getFileLocations e ph root))).
Proof.
  apply post_on_indexer, post_call, collaborator_message.
  intros t Ht. left. eauto.
Qed.

Lemma first_finalized_total (ph : phase) (root : string) (nodes : list nat) :
  post (fun _ => True) (fun _ => False) (first_finalized e ph root nodes).
Proof.
  induction nodes as [|node rest IH]; [ now apply post_ret |].
  cbn [first_finalized].
  apply post_bind with (Q' := fun _ => True); [ now apply post_attempt |].
  intros [[info|]|t] _; [ destruct (finalized info) | |]; auto.
  now apply post_ret.
Qed.

Lemma post_combine_or_fail (segments : list bytes) :
  post (fun _ => True) Emsg (combine_or_fail segments).
Proof.
  destruct segments; simpl;
    first [ now apply post_ret | apply post_throw_error, own_message; discriminate ].
Qed.

Lemma post_downloadFileDataFallback (root : string) (withProof : bool) :
  post (fun _ => True) Emsg (downloadFileDataFallback e root withProof).
Proof.
  unfold downloadFileDataFallback.
  apply post_try_catch with (E' := Emsg); [| intros t Ht; now apply post_throw ].
  apply post_bind with (Q' := fun _ => True); [ apply post_locations |].
  intros locations _.
  apply post_bind with (Q' := fun _ => True); [ apply post_nonempty_locations |].
  intros ls _.
  apply post_bind with (Q' := fun _ => True).
  { eapply post_weaken; [ | | apply first_finalized_total ]; [ auto | intros t [] ]. }
  intros [info|] _; [| apply post_throw_error, own_message; discriminate ].
  destruct (tx info) as [t|]; [| apply post_throw_error, own_message; discriminate ].
  apply post_bind with (Q' := fun _ => True).
  { intros w. rewrite fallback_loop_spec. exact I. }
  intros segments _. apply post_combine_or_fail.
Qed.

Lemma post_downloadFileData (root : string) (withProof : bool) :
  post (fun _ => True) Emsg (downloadFileData e root withProof).
Proof.
  unfold downloadFileData.
  apply post_try_catch with (E' := fun _ => True); [ apply post_trivial |].
  intros t _. apply post_downloadFileDataFallback.
Qed.

Lemma post_downloadFile (root : string) (withProof : bool) :
  post (download_result_shape e) (fun _ => False) (downloadFile e root withProof).
Proof.
  unfold downloadFile.
  apply post_try_catch with (E' := Emsg).
  - apply post_bind with (Q' := fun _ => True); [ apply post_initializeSDK |].
    intros _ _.
    apply post_bind with (Q' := fun _ => True); [ apply post_locations |].
    intros locations _.
    apply post_bind with (Q' := fun _ => True); [ apply post_nonempty_locations |].
    intros ls _.
    apply post_bind with (Q' := fun _ => True).
    { eapply post_weaken; [ | | apply first_finalized_total ]; [ auto | intros t [] ]. }
    intros [info|] _; [| apply post_throw_error, own_message; discriminate ].
    apply post_bind with (Q' := fun _ => True); [ apply post_downloadFileData |].
    intros fileData _. apply post_ret. left. simpl. eauto.
  - intros t Ht. apply post_ret. right. simpl. eauto.
Qed.

Lemma post_getAddress (site : nat) :
  post (fun _ => True) Emsg (call (EvRpc "getAddress") (getAddress e site)).
Proof.
  apply post_call, collaborator_message. intros t Ht. right. left. eauto.
Qed.

Lemma post_upload_inner (rootHash : option string) :
  post (fun ur => up_success ur = true /\ up_error ur = None) Emsg
       (upload_inner e rootHash).
Proof.
  unfold upload_inner.
  apply post_bind with (Q' := fun _ => True); [ apply post_getAddress |].
  intros _ _.
  apply post_bind with (Q' := fun _ => True); [ now apply post_attempt |].
  intros _ _.
  apply post_bind with (Q' := fun _ => True).
  { apply post_call, collaborator_message. intros t Ht. do 4 right. left. exact Ht. }
  intros chainId _.
  destruct (negb (chainId =? 16602)%Z).
  { apply post_throw_error, own_message, prefixed_message. discriminate. }
  apply post_bind with (Q' := fun _ => True).
  { apply post_try_catch with (E' := fun _ => True); [ apply post_trivial |].
    intros t _. apply post_throw_error, own_message, prefixed_message. discriminate. }
  intros _ _.
  apply post_bind with (Q' := fun _ => True).
  { apply post_on_indexer, post_call, collaborator_message.
    intros t Ht. do 5 right. exact Ht. }
  intros [[[resRoot resTx]|] [uploadErr|]] _.
  - apply post_throw_error, own_message, prefixed_message. discriminate.
  - apply post_ret. simpl. auto.
  - apply post_throw_error, own_message, prefixed_message. discriminate.
  - apply post_throw_error, own_message. discriminate.
Qed.

Lemma post_uploadFile (signer : bool) :
  post (upload_result_shape e) (fun _ => False) (uploadFile e signer).
Proof.
  unfold uploadFile.
  apply post_try_catch with (E' := Emsg).
  - apply post_bind with (Q' := fun _ => True).
    { destruct signer; simpl;
        [ now apply post_ret | apply post_throw_error, own_message; discriminate ]. }
    intros _ _.
    apply post_bind with (Q' := fun _ => True); [ apply post_initializeSDK |].
    intros _ _.
    apply post_bind with (Q' := fun _ => True); [ apply post_getAddress |].
    intros _ _.
    apply post_bind with (Q' := fun _ => True); [ apply post_initializeSDK |].
    intros _ _.
    apply post_bind with (Q' := fun _ => True).
    { apply post_lift, collaborator_message. intros t Ht. do 2 right. left. exact Ht. }
    intros _ _.
    apply post_bind with (Q' := fun _ => True).
    { apply post_lift, collaborator_message. intros t Ht. do 3 right. left. exact Ht. }
    intros [rootHash [treeErr|]] _.
    { apply post_throw_error, own_message, prefixed_message. discriminate. }
    apply post_bind with (Q' := fun _ => True); [ apply post_getAddress |].
    intros _ _.
    apply post_try_catch with (E' := Emsg); [| intros t Ht; now apply post_throw ].
    eapply post_weaken; [ | | apply post_upload_inner ]; [| auto ].
    intros ur [Hs He]. left. auto.
  - intros t Ht. apply post_ret. right. simpl. eauto 6.
Qed.

(** ** The fallback talks to the first node only *)

Lemma first_finalized_emits (P : event -> Prop) (ph : phase) (root : string)
      (nodes : list nat) :
  (forall node, P (EvGetFileInfo node root)) ->
  emits P (first_finalized e ph root nodes).
Proof.
  intros HP. induction nodes as [|node rest IH]; [ apply emits_ret |].
  cbn [first_finalized].
  apply emits_bind; [ apply emits_attempt, emits_call, HP |].
  intros [[info|]|t]; [ destruct (finalized info) | |]; auto.
  apply emits_ret.
Qed.

Lemma fallback_loop_emits (node : nat) (t : fileTx) (indices : list nat)
      (segments : list bytes) :
  emits (fun ev => exists s a b, ev = EvDownloadSegment node s a b)
        (fallback_loop e node t indices segments).
Proof.
  intros w. rewrite fallback_loop_spec. eexists. split; [ reflexivity |].
  apply List.Forall_forall. intros ev Hin. apply in_map_iff in Hin.
  destruct Hin as (i & <- & _). unfold Kept.segment_event, Kept.segment_bounds.
  eauto.
Qed.

Lemma on_indexer_emits {A} (P : event -> Prop) (m : Eff A) :
  emits P m -> emits P (on_indexer m).
Proof.
  intros Hm. unfold on_indexer. apply emits_bind; [ apply emits_get_world |].
  intros w. destruct (indexer_set w); [ exact Hm | apply emits_throw_error ].
Qed.

Lemma nonempty_locations_emits (P : event -> Prop) (locations : option (list string)) :
  emits P (nonempty_locations locations).
Proof.
  destruct locations as [[|l ls]|]; simpl;
    first [ apply emits_ret | apply emits_throw_error ].
Qed.

Lemma combine_or_fail_emits (P : event -> Prop) (segments : list bytes) :
  emits P (combine_or_fail segments).
Proof.
  destruct segments; simpl; first [ apply emits_ret | apply emits_throw_error ].
Qed.

Lemma downloadFileDataFallback_first_node (root : string) (withProof : bool) :
  emits to_first_node (downloadFileDataFallback e root withProof).
Proof.
  unfold downloadFileDataFallback.
  apply emits_try_catch; [| intros t; apply emits_throw ].
  apply emits_bind; [ apply on_indexer_emits, emits_call; exact I |].
  intros locations. apply emits_bind; [ apply nonempty_locations_emits |].
  intros ls. apply emits_bind; [ apply first_finalized_emits; intros; exact I |].
  intros [info|]; [| apply emits_throw_error ].
  destruct (tx info) as [t|]; [| apply emits_throw_error ].
  apply emits_bind; [| intros; apply combine_or_fail_emits ].
  eapply emits_weaken; [| apply fallback_loop_emits ].
  intros ev (s & a & b & ->). reflexivity.
Qed.

End ServiceFacts.

(** ** The display state is the hook's alone *)

Section KeepsInfo.

Import Js Effects Spec ZgStorage.

Lemma keeps_ret {A} (a : A) : keeps_info (ret a).
Proof. intros w. reflexivity. Qed.

Lemma keeps_throw_error {A} (msg : string) : keeps_info (@throw_error A msg).
Proof. intros w. reflexivity. Qed.

Lemma keeps_throw {A} (t : thrown) : keeps_info (@throw A t).
Proof. intros w. reflexivity. Qed.

Lemma keeps_lift {A} (r : result A) : keeps_info (lift r).
Proof. intros w. reflexivity. Qed.

Lemma keeps_call {A} (ev : event) (r : result A) : keeps_info (call ev r).
Proof. intros w. reflexivity. Qed.

Lemma keeps_get_world : keeps_info get_world.
Proof. intros w. reflexivity. Qed.

Lemma keeps_set_indexer (b : bool) : keeps_info (set_indexer b).
Proof. intros w. reflexivity. Qed.

Lemma keeps_set_sdk_on_window (b : bool) : keeps_info (set_sdk_on_window b).
Proof. intros w. reflexivity. Qed.

Lemma keeps_bind {A B} (m : Eff A) (k : A -> Eff B) :
  keeps_info m -> (forall a, keeps_info (k a)) -> keeps_info (bind m k).
Proof.
  intros Hm Hk w. unfold bind. specialize (Hm w).
  destruct (m w) as [[a|t] w1]; simpl in *; [ now rewrite Hk | exact Hm ].
Qed.

Lemma keeps_try_catch {A} (m : Eff A) (h : thrown -> Eff A) :
  keeps_info m -> (forall t, keeps_info (h t)) -> keeps_info (try_catch m h).
Proof.
  intros Hm Hh w. unfold try_catch. specialize (Hm w).
  destruct (m w) as [[a|t] w1]; simpl in *; [ exact Hm | now rewrite Hh ].
Qed.

Lemma keeps_attempt {A} (m : Eff A) : keeps_info m -> keeps_info (attempt m).
Proof.
  intros Hm w. unfold attempt. specialize (Hm w). now destruct (m w).
Qed.

Variable e : env.

Lemma keeps_initializeSDK : keeps_info (initializeSDK e).
Proof.
  unfold initializeSDK. apply keeps_bind; [ apply keeps_get_world |].
  intros w. destruct (indexer_set w); [ apply keeps_ret |].
  apply keeps_try_catch; [| intros; apply keeps_throw_error ].
  apply keeps_bind.
  - unfold loadSDKFromCDN. apply keeps_bind; [ apply keeps_get_world |].
    intros w'. destruct (sdk_on_window w'); [ apply keeps_ret |].
    destruct (cdn_script e); try apply keeps_call.
    apply keeps_bind; [ apply keeps_call | intros; apply keeps_set_sdk_on_window ].
  - intros _. apply keeps_bind; [ apply keeps_lift | intros; apply keeps_set_indexer ].
Qed.

Lemma keeps_on_indexer {A} (m : Eff A) : keeps_info m -> keeps_info (on_indexer m).
Proof.
  intros Hm. unfold on_indexer. apply keeps_bind; [ apply keeps_get_world |].
  intros w. destruct (indexer_set w); [ exact Hm | apply keeps_throw_error ].
Qed.

Lemma keeps_nonempty_locations (locations : option (list string)) :
  keeps_info (nonempty_locations locations).
Proof.
  destruct locations as [[|l ls]|]; simpl;
    first [ apply keeps_ret | apply keeps_throw_error ].
Qed.

Lemma keeps_first_finalized (ph : phase) (root : string) (nodes : list nat) :
  keeps_info (first_finalized e ph root nodes).
Proof.
  induction nodes as [|node rest IH]; [ apply keeps_ret |].
  cbn [first_finalized]. apply keeps_bind; [ apply keeps_attempt, keeps_call |].
  intros [[info|]|t]; [ destruct (finalized info) | |]; auto. apply keeps_ret.
Qed.

Lemma keeps_collect_shard_configs (nodes : list nat) (configs : list unit) :
  keeps_info (collect_shard_configs e nodes configs).
Proof.
  revert configs. induction nodes as [|node rest IH]; intros configs;
    [ apply keeps_ret |].
  cbn [collect_shard_configs]. apply keeps_bind; [ apply keeps_attempt, keeps_call |].
  intros [config|t]; apply IH.
Qed.

Lemma keeps_combine_or_fail (segments : list bytes) : keeps_info (combine_or_fail segments).
Proof.
  destruct segments; simpl; first [ apply keeps_ret | apply keeps_throw_error ].
Qed.

Lemma keeps_downloadFileDataFallback (root : string) (withProof : bool) :
  keeps_info (downloadFileDataFallback e root withProof).
Proof.
  unfold downloadFileDataFallback.
  apply keeps_try_catch; [| intros; apply keeps_throw ].
  apply keeps_bind; [ apply keeps_on_indexer, keeps_call |].
  intros locations. apply keeps_bind; [ apply keeps_nonempty_locations |].
  intros ls. apply keeps_bind; [ apply keeps_first_finalized |].
  intros [info|]; [| apply keeps_throw_error ].
  destruct (tx info) as [t|]; [| apply keeps_throw_error ].
  apply keeps_bind; [| intros; apply keeps_combine_or_fail ].
  intros w. now rewrite fallback_loop_spec.
Qed.

Lemma keeps_downloadFileData (root : string) (withProof : bool) :
  keeps_info (downloadFileData e root withProof).
Proof.
  unfold downloadFileData.
  apply keeps_try_catch; [| intros; apply keeps_downloadFileDataFallback ].
  unfold downloadFileData_primary.
  apply keeps_bind; [ apply keeps_initializeSDK |]. intros _.
  apply keeps_bind; [ apply keeps_on_indexer, keeps_call |].
  intros locations. apply keeps_bind; [ apply keeps_nonempty_locations |].
  intros ls. apply keeps_bind; [ apply keeps_call |].
  intros [[info|] [queryError|]]; try apply keeps_throw_error.
  destruct (negb (finalized info)); [ apply keeps_throw_error |].
  destruct (tx info) as [t|]; [| apply keeps_throw_error ].
  apply keeps_bind.
  { unfold getShardConfigs. apply keeps_bind;
      [ apply keeps_collect_shard_configs | intros; apply keeps_ret ]. }
  intros [configs|]; [| apply keeps_throw_error ].
  apply keeps_bind; [| intros; apply keeps_combine_or_fail ].
  intros w. now rewrite task_loop_spec.
Qed.

Lemma keeps_downloadFile (root : string) (withProof : bool) :
  keeps_info (downloadFile e root withProof).
Proof.
  unfold downloadFile. apply keeps_try_catch; [| intros; apply keeps_ret ].
  apply keeps_bind; [ apply keeps_initializeSDK |]. intros _.
  apply keeps_bind; [ apply keeps_on_indexer, keeps_call |].
  intros locations. apply keeps_bind; [ apply keeps_nonempty_locations |].
  intros ls. apply keeps_bind; [ apply keeps_first_finalized |].
  intros [info|]; [| apply keeps_throw_error ].
  apply keeps_bind; [ apply keeps_downloadFileData | intros; apply keeps_ret ].
Qed.

End KeepsInfo.

(** ** Resolution of a share code *)

Section MappingFacts.

Import Js Effects Spec.

Variable me : ZgStore.env.

Lemma loadMappingLocally_run (code : string) (w : world) :
  ZgStore.loadMappingLocally me code w = (Ok (cached_record me code w), w).
Proof.
  unfold ZgStore.loadMappingLocally, cached_record, try_catch, bind, get_world,
    lift, ret.
  destruct (ZgStore.storage_available me); [| reflexivity ].
  destruct (localStorage w !! ZgStore.cache_key code) as [raw|]; [| reflexivity ].
  cbn [truthy or_else]. destruct (truthy_string raw); [| reflexivity ].
  destruct (ZgStore.JSON_parse me raw) as [found|t]; reflexivity.
Qed.

Lemma getMappingFrom0G_run (code : string) (w : world) :
  ZgMapping.validateShareCode code = true ->
  ZgStore.getMappingFrom0G me code w
  = (match cached_record me code w with
     | Some record => Ok record
     | None => Throw (JsError "Mapping record not found.")
     end, w).
Proof.
  intros Hv. unfold ZgStore.getMappingFrom0G. rewrite Hv. cbn [negb].
  unfold bind. rewrite loadMappingLocally_run.
  destruct (cached_record me code w); reflexivity.
Qed.

Lemma getMappingFrom0G_invalid (code : string) (w : world) :
  ZgMapping.validateShareCode code = false ->
  ZgStore.getMappingFrom0G me code w
  = (Throw (JsError "Invalid share code format"), w).
Proof. intros Hv. unfold ZgStore.getMappingFrom0G. now rewrite Hv. Qed.

Lemma getMappingFrom0G_silent (code : string) : silent (ZgStore.getMappingFrom0G me code).
Proof.
  intros w. exists []. rewrite app_nil_r. split; [| constructor ].
  destruct (ZgMapping.validateShareCode code) eqn:Hv.
  - now rewrite getMappingFrom0G_run.
  - now rewrite getMappingFrom0G_invalid.
Qed.

Lemma cached_record_frame (code : string) (w w' : world) :
  localStorage w' = localStorage w ->
  cached_record me code w' = cached_record me code w.
Proof. intros H. unfold cached_record. now rewrite H. Qed.

(** The operations that check the grammar stop there on a malformed code:
    they throw the format error and touch neither the cache nor the network.
    (The download hook has by then cleared its displayed info.) *)
Lemma validating_operations_fail_fast
      (ze : ZgStorage.env) (he : Hooks.env) (code : string)
      (record : ZgStore.MappingRecord) (signer : bool) (key : option string)
      (w : world) :
  ZgMapping.validateShareCode code = false ->
  ZgStore.storeMappingTo0G me ze code record signer w
  = (Throw (JsError "Invalid share code format"), w)
  /\ ZgStore.getMappingFrom0G me code w
     = (Throw (JsError "Invalid share code format"), w)
  /\ Hooks.useFilePreview me code w
     = (Throw (JsError "Invalid share code format"), w)
  /\ Hooks.useFileDownload he me ze code key w
     = (Throw (JsError "Invalid share code format"),
        snd (setDownloadInfo None w))
  /\ trace (snd (setDownloadInfo None w)) = trace w
  /\ localStorage (snd (setDownloadInfo None w)) = localStorage w.
Proof.
  intros Hv.
  unfold ZgStore.storeMappingTo0G, ZgStore.getMappingFrom0G, Hooks.useFilePreview,
    Hooks.useFileDownload, bind.
  rewrite Hv. cbn. repeat split.
Qed.

End MappingFacts.

Section PinataFacts.

Import Js Effects Spec PinataStore.

Variable pe : env.

Lemma getMappingFromIPFS_total (shareCode : string) :
  post (fun _ => True) (fun _ => False) (getMappingFromIPFS pe shareCode).
Proof.
  unfold getMappingFromIPFS.
  apply post_try_catch with (E' := fun _ => True).
  - intros w. destruct (fst _); exact I.
  - intros t _. now apply post_ret.
Qed.

Lemma getMappingFromIPFS_unreachable (shareCode : string) (t : thrown) (w : world) :
  pinata_configured pe = true ->
  pinList pe (Pinata.extractCodeFromShareCode shareCode) = Throw t ->
  getMappingFromIPFS pe shareCode w
  = (Ok None,
     log [EvHttp "GET" (pinList_url (Pinata.extractCodeFromShareCode shareCode))] w).
Proof.
  intros Hc Hp. unfold getMappingFromIPFS, try_catch, bind, getPinataHeaders, call.
  rewrite Hc. cbn. rewrite Hp. reflexivity.
Qed.

Lemma getMappingFromIPFS_unconfigured (shareCode : string) (w : world) :
  pinata_configured pe = false ->
  getMappingFromIPFS pe shareCode w = (Ok None, w).
Proof.
  intros Hc. unfold getMappingFromIPFS, try_catch, bind, getPinataHeaders.
  rewrite Hc. reflexivity.
Qed.

End PinataFacts.

(** ** The download hook, step by step *)

Section HookFacts.

Import Js Effects Spec.

Variables (e : Hooks.env) (me : ZgStore.env) (ze : ZgStorage.env).
Variables (code : string) (key : option string) (mapping : ZgStore.MappingRecord).
Variable w : world.

Hypothesis Hvalid : ZgMapping.validateShareCode code = true.
Hypothesis Hresolved : fst (ZgStore.getMappingFrom0G me code w) = Ok mapping.

Lemma resolved_cached : cached_record me code w = Some mapping.
Proof.
  rewrite getMappingFrom0G_run in Hresolved by exact Hvalid. simpl in Hresolved.
  destruct (cached_record me code w); [ congruence | discriminate ].
Qed.

Abbreviation fm := (Hooks.metadata_of code mapping key).
Abbreviation displayed := (Spec.displayed code key mapping w).
Abbreviation fetch_and_decrypt := (Hooks.fetch_and_decrypt e ze fm key).

Lemma hook_run :
  Hooks.useFileDownload e me ze code key w
  = if truthy (ZgStore.iv mapping) && negb (truthy key)
    then (Throw key_required, displayed)
    else if negb (Hooks.zgStorage_present e)
    then (Throw (JsError "0G Storage not available. Please check your connection and try again."),
          displayed)
    else if negb (Hooks.isConnected e)
    then (Throw (JsError ("0G Storage connection failed: "
                          ++ or_else (Hooks.zgError e) "Unknown error")), displayed)
    else fetch_and_decrypt displayed.
Proof.
  unfold Hooks.useFileDownload. rewrite Hvalid. cbn [negb].
  unfold bind at 1. cbn [setDownloadInfo].
  unfold bind at 1. rewrite getMappingFrom0G_run by exact Hvalid.
  replace (cached_record me code _) with (Some mapping)
    by (rewrite <- resolved_cached; apply cached_record_frame; reflexivity).
  unfold bind at 1. cbn [setDownloadInfo Hooks.isEncrypted Hooks.metadata_of].
  destruct (truthy (ZgStore.iv mapping) && negb (truthy key)); [ reflexivity |].
  destruct (negb (Hooks.zgStorage_present e)); [ reflexivity |].
  destruct (negb (Hooks.isConnected e)); reflexivity.
Qed.

Lemma decrypt_step_run (received : ZgStorage.bytes) (w2 : world) :
  truthy (ZgStore.iv mapping) = true -> truthy key = true ->
  Hooks.decrypt_step e (Hooks.metadata_of code mapping key) key received w2
  = (match Hooks.decryptFileFromBlob e received (or_else key "")
                                     (or_else (ZgStore.iv mapping) "") with
     | Ok plain => Ok plain
     | Throw t => Throw (JsError ("Decryption failed: " ++ message_of t))
     end,
     log [EvDecrypt received (or_else key "") (or_else (ZgStore.iv mapping) "")] w2).
Proof.
  intros Hiv Hkey. unfold Hooks.decrypt_step, try_catch.
  rewrite Hkey. cbn [Hooks.iv Hooks.metadata_of negb]. rewrite Hkey, Hiv. cbn [negb].
  unfold call. destruct (Hooks.decryptFileFromBlob e received _ _); reflexivity.
Qed.

Lemma fetch_and_decrypt_encrypted (w1 : world) :
  truthy (ZgStore.iv mapping) = true -> truthy key = true ->
  exists dr w2,
    ZgStorage.downloadFile ze (ZgStore.rootHash mapping)
                           (Hooks.enableProofVerification e) w1 = (Ok dr, w2)
    /\ fetch_and_decrypt w1 = after_fetch e code key mapping dr w2.
Proof.
  intros Hiv Hkey.
  destruct (post_total _ _ (post_downloadFile ze (ZgStore.rootHash mapping)
                              (Hooks.enableProofVerification e)) w1)
    as (dr & w2 & Hrun & _).
  exists dr, w2. split; [ exact Hrun |].
  unfold Hooks.fetch_and_decrypt, after_fetch, bind.
  cbn [Hooks.pieceCid Hooks.metadata_of Hooks.isEncrypted]. rewrite Hrun.
  destruct (ZgStorage.success dr); [| reflexivity ]. cbn [negb].
  destruct (ZgStorage.data dr) as [received|]; [| reflexivity ].
  rewrite Hiv, Hkey. cbn [andb].
  pose proof (decrypt_step_run received w2 Hiv Hkey) as Hd.
  cbn [Hooks.metadata_of] in Hd. rewrite Hd.
  destruct (Hooks.decryptFileFromBlob e received _ _); reflexivity.
Qed.

Lemma fetch_and_decrypt_keeps_info : keeps_info fetch_and_decrypt.
Proof.
  unfold Hooks.fetch_and_decrypt. apply keeps_bind; [ apply keeps_downloadFile |].
  intros dr. destruct (negb (ZgStorage.success dr)); [ apply keeps_throw_error |].
  destruct (ZgStorage.data dr) as [received|]; [| apply keeps_throw_error ].
  apply keeps_bind; [| intros; apply keeps_ret ].
  destruct (_ && _); [| apply keeps_ret ].
  unfold Hooks.decrypt_step.
  apply keeps_try_catch; [| intros; apply keeps_throw_error ].
  destruct (negb _); [ apply keeps_throw_error |].
  destruct (negb _); [ apply keeps_throw_error | apply keeps_call ].
Qed.

Lemma fetch_and_decrypt_plain (w1 : world) :
  truthy (ZgStore.iv mapping) = false ->
  fst (fetch_and_decrypt w1) <> Throw key_required.
Proof.
  intros Hiv.
  destruct (post_total _ _ (post_downloadFile ze (ZgStore.rootHash mapping)
                              (Hooks.enableProofVerification e)) w1)
    as (dr & w2 & Hrun & _).
  unfold Hooks.fetch_and_decrypt, bind.
  cbn [Hooks.pieceCid Hooks.metadata_of Hooks.isEncrypted]. rewrite Hrun, Hiv.
  cbn [andb]. unfold key_required.
  destruct (ZgStorage.success dr); cbn [negb]; [| simpl; discriminate ].
  destruct (ZgStorage.data dr) as [received|]; simpl; discriminate.
Qed.

End HookFacts.

Lemma length_append_s (a b : string) :
  String.length (a ++ b) = (String.length a + String.length b)%nat.
Proof. induction a as [|c a IH]; simpl; [ reflexivity | now rewrite IH ]. Qed.

Lemma append_one_differs (s : string) : s <> s ++ "x".
Proof.
  intros H. apply (f_equal String.length) in H.
  rewrite length_append_s in H. simpl in H. lia.
Qed.

(* ===================================================================== *)
(** * Part III: the claims *)
(* ===================================================================== *)

(** C6.  Both [validateShareCode] functions return [true] exactly for the
    strings made of the prefix followed by four groups of four lowercase
    alphanumeric characters joined by ['-'].  They accept
    ["privshare://0g-ab12-cd34-ef56-gh78"], reject the code with three groups
    and the code with an uppercase group.  The check reads nothing but the
    string: the accepted example validates on a page where no pointer record
    exists and its resolution fails. *)
Theorem validateShareCode_exact :
  (forall s, ZgMapping.validateShareCode s = true <-> Grammar.well_formed s)
  /\ (forall s, Pinata.validateShareCode s = true <-> Grammar.well_formed s)
  /\ ZgMapping.validateShareCode (Grammar.prefix ++ "ab12-cd34-ef56-gh78") = true
  /\ ZgMapping.validateShareCode (Grammar.prefix ++ "ab12-cd34-ef56") = false
  /\ ZgMapping.validateShareCode (Grammar.prefix ++ "AB12-cd34-ef56-gh78") = false
  /\ Pinata.validateShareCode (Grammar.prefix ++ "ab12-cd34-ef56-gh78") = true
  /\ Pinata.validateShareCode (Grammar.prefix ++ "ab12-cd34-ef56") = false
  /\ Pinata.validateShareCode (Grammar.prefix ++ "AB12-cd34-ef56-gh78") = false
  /\ (forall me : ZgStore.env,
        fst (ZgStore.getMappingFrom0G me (Grammar.prefix ++ "ab12-cd34-ef56-gh78")
                                      Effects.fresh)
        = Js.Throw (Js.JsError "Mapping record not found.")).
Proof.
  split; [ exact zg_validate_iff |].
  split; [ exact pinata_validate_iff |].
  repeat (split; [ reflexivity |]).
  intros me. unfold ZgStore.getMappingFrom0G.
  change (ZgMapping.validateShareCode (Grammar.prefix ++ "ab12-cd34-ef56-gh78")) with true.
  cbn [negb]. unfold Effects.bind, ZgStore.loadMappingLocally, Effects.try_catch.
  destruct (ZgStore.storage_available me); reflexivity.
Qed.

(** C7.  Whatever values in [[0, 1)] [Math.random()] returns, the code
    produced by [generateShareCode] and the code produced by
    [generateRandomShareCode] pass [validateShareCode] (either revision). *)
Theorem generated_codes_validate (rnd : nat -> Q)
  (Hrnd : forall k, (0 <= rnd k)%Q /\ (rnd k < 1)%Q) :
  ZgMapping.validateShareCode (ZgMapping.generateShareCode rnd) = true
  /\ Pinata.validateShareCode (Pinata.generateRandomShareCode rnd) = true
  /\ ZgMapping.validateShareCode (Pinata.generateRandomShareCode rnd) = true
  /\ Pinata.validateShareCode (ZgMapping.generateShareCode rnd) = true.
Proof.
  pose proof (generateShareCode_well_formed rnd Hrnd) as Hz.
  pose proof (generateRandomShareCode_well_formed rnd Hrnd) as Hp.
  repeat split;
    first [ apply zg_validate_iff; assumption | apply pinata_validate_iff; assumption ].
Qed.

Lemma generated_codes_validate_witness :
  ZgMapping.validateShareCode (ZgMapping.generateShareCode (fun k => Z.of_nat (k mod 7) # 7)) = true
  /\ Pinata.validateShareCode (Pinata.generateRandomShareCode (fun k => Z.of_nat (k mod 7) # 7)) = true
  /\ ZgMapping.validateShareCode (Pinata.generateRandomShareCode (fun k => Z.of_nat (k mod 7) # 7)) = true
  /\ Pinata.validateShareCode (ZgMapping.generateShareCode (fun k => Z.of_nat (k mod 7) # 7)) = true.
Proof.
  apply (generated_codes_validate (fun k => Z.of_nat (k mod 7) # 7)).
  intros k. unfold Qle, Qlt. cbn [Qnum Qden].
  pose proof (Nat.mod_upper_bound k 7). lia.
Defined.



Example download_plan_example :
  ZgStorage.numChunks 262145 = 1025%Z
  /\ map (ZgStorage.segment_of_task 1000) (ZgStorage.task_indices 1000 262145)
     = [0%Z; 1%Z].
Proof. split; reflexivity. Qed.

(** C1 (as stated, refuted).  A plan of two tasks of which the second fails:
    [downloadFileData] returns the bytes of the first segment alone, as a
    complete file, on the primary path and on the fallback path. *)
Lemma partial_file_returned_as_complete :
  ZgStorage.task_indices 0 262145 = [0; 1]%nat
  /\ Kept.task_succeeded (Scenarios.second_segment_lost true) 1025 true 0 = true
  /\ Kept.task_succeeded (Scenarios.second_segment_lost true) 1025 true 1 = false
  /\ fst (ZgStorage.downloadFileData (Scenarios.second_segment_lost true)
            "0xroot" true Effects.fresh) = Js.Ok [Byte.x01]
  /\ Kept.of_segment (Scenarios.second_segment_lost false) 0
       Scenarios.tx_two_segments 0 = Some [Byte.x01]
  /\ Kept.of_segment (Scenarios.second_segment_lost false) 0
       Scenarios.tx_two_segments 1 = None
  /\ fst (ZgStorage.downloadFileData (Scenarios.second_segment_lost false)
            "0xroot" true Effects.fresh) = Js.Ok [Byte.x01]
  /\ fst (ZgStorage.downloadFile (Scenarios.second_segment_lost true)
            "0xroot" true Effects.fresh)
     = Js.Ok {| ZgStorage.success := true; ZgStorage.data := Some [Byte.x01];
                ZgStorage.error := None |}.
Proof. repeat split; vm_compute; reflexivity. Qed.

(** C1 (amended).  Both segment loops attempt every task of the plan, drop
    the tasks that fail or yield no bytes, and hand what is left to the
    reassembly: the operation fails, with "No segments were successfully
    downloaded", exactly when no task yielded a segment, and otherwise
    returns the concatenation, in task order, of the segments that were
    fetched. *)
Theorem segments_kept_or_failure (e : ZgStorage.env) (chunks : Z) (withProof : bool)
  (tasks : list nat) (node : nat) (t : ZgStorage.fileTx) (indices : list nat)
  (w : Effects.world) :
  Effects.bind (ZgStorage.task_loop e chunks withProof tasks [])
               ZgStorage.combine_or_fail w
  = (match Kept.keep (Kept.of_task e chunks withProof) tasks with
     | [] => Js.Throw (Js.JsError "No segments were successfully downloaded")
     | kept => Js.Ok (concat kept)
     end,
     Effects.log (map Effects.EvDownloadTask tasks) w)
  /\ Effects.bind (ZgStorage.fallback_loop e node t indices [])
                  ZgStorage.combine_or_fail w
     = (match Kept.keep (Kept.of_segment e node t) indices with
        | [] => Js.Throw (Js.JsError "No segments were successfully downloaded")
        | kept => Js.Ok (concat kept)
        end,
        Effects.log (map (Kept.segment_event node t) indices) w).
Proof.
  split; unfold Effects.bind.
  - rewrite task_loop_spec, combine_or_fail_spec. cbn [app].
    destruct (Kept.keep _ tasks); reflexivity.
  - rewrite fallback_loop_spec, combine_or_fail_spec. cbn [app].
    destruct (Kept.keep _ indices); reflexivity.
Qed.

(** C3 (as stated, refuted).  A one-segment file on two ranked nodes, the
    first of which times out while the second would serve the segment: the
    download makes a single segment request, to the first node, and fails. *)
Lemma second_node_never_tried :
  ZgStorage.storageNodes ["https://node-a"; "https://node-b"] = [0; 1]%nat
  /\ Kept.of_segment Scenarios.first_node_down 0 Scenarios.tx_one_segment 0 = None
  /\ Kept.of_segment Scenarios.first_node_down 1 Scenarios.tx_one_segment 0
     = Some [Byte.x01]
  /\ fst (ZgStorage.downloadFileData Scenarios.first_node_down "0xroot" true
                                     Effects.fresh)
     = Js.Throw (Js.JsError "No segments were successfully downloaded")
  /\ filter Spec.is_segment_request
       (Effects.trace (snd (ZgStorage.downloadFileData Scenarios.first_node_down
                              "0xroot" true Effects.fresh)))
     = [Effects.EvDownloadSegment 0 7 0 1].
Proof. repeat split; vm_compute; reflexivity. Qed.

(** C3 (amended).  Every task is attempted exactly once.  The fallback loop
    makes one [downloadSegmentByTxSeq] request per segment index, all to the
    node it was given, and [downloadFileDataFallback] addresses no node but
    the first of the list; the primary loop makes one [downloadTask] call per
    task.  A task whose single attempt fails is dropped; no other candidate
    node is tried for it. *)
Theorem one_attempt_per_task (e : ZgStorage.env) (chunks : Z) (withProof : bool)
  (tasks : list nat) (node : nat) (t : ZgStorage.fileTx) (indices : list nat)
  (segments : list ZgStorage.bytes) (rootHash : string) (w : Effects.world) :
  ZgStorage.fallback_loop e node t indices segments w
  = (Js.Ok (segments ++ Kept.keep (Kept.of_segment e node t) indices)%list,
     Effects.log (map (Kept.segment_event node t) indices) w)
  /\ (forall i, exists startIndex endIndex,
        Kept.segment_event node t i
        = Effects.EvDownloadSegment node (ZgStorage.tx_seq t) startIndex endIndex)
  /\ ZgStorage.task_loop e chunks withProof tasks segments w
     = (Js.Ok (segments ++ Kept.keep (Kept.of_task e chunks withProof) tasks)%list,
        Effects.log (map Effects.EvDownloadTask tasks) w)
  /\ Spec.emits Spec.to_first_node
       (ZgStorage.downloadFileDataFallback e rootHash withProof).
Proof.
  split; [ apply fallback_loop_spec |].
  split; [ intros i; unfold Kept.segment_event, Kept.segment_bounds; eauto |].
  split; [ apply task_loop_spec |].
  apply downloadFileDataFallback_first_node.
Qed.



(** C2 (as stated, refuted).  No digest of the downloaded bytes is compared
    with the root hash before decryption: for every digest function there is
    a download of an encrypted file whose bytes are handed to the cipher
    although their digest differs from the root hash the fetch was addressed
    by. *)
Lemma no_digest_check_before_decrypt :
  ~ exists D : ZgStorage.bytes -> string, Spec.decrypt_after_verify D.
Proof.
  intros [D H].
  set (root := D [Byte.x01] ++ "x").
  specialize (H Scenarios.connected
                (Scenarios.cache_of (Scenarios.record root (Some "iv")))
                (Scenarios.healthy [Byte.x01]) Scenarios.code (Some "k")
                Scenarios.cached [Byte.x01] "k" "iv" root eq_refl).
  assert (Htrace :
    Effects.trace
      (snd (Hooks.useFileDownload Scenarios.connected
              (Scenarios.cache_of (Scenarios.record root (Some "iv")))
              (Scenarios.healthy [Byte.x01]) Scenarios.code (Some "k")
              Scenarios.cached))
    = [Effects.EvSdkLoad; Effects.EvGetFileLocations root;
       Effects.EvGetFileInfo 0 root; Effects.EvGetFileLocations root;
       Effects.EvQueryFile root; Effects.EvGetShardConfig 0;
       Effects.EvGetShardConfig 1; Effects.EvDownloadTask 0;
       Effects.EvDecrypt [Byte.x01] "k" "iv"]).
  { generalize root. intros r. vm_compute. reflexivity. }
  rewrite Htrace in H.
  apply (append_one_differs (D [Byte.x01])). apply H; simpl; auto 10.
Qed.

(** C2 (amended).  On a download of an encrypted file (the resolved record
    has an IV, a key was supplied, the storage service is connected) the hook
    calls the service's [downloadFile] once and goes by its result alone: if
    it reports success with data, exactly those bytes are handed to the
    cipher with the supplied key and the record's IV, whatever their digest;
    a reported failure is thrown as "Download failed: ..." and a cipher error
    as "Decryption failed: ...".  Nothing is retried. *)
Theorem download_decrypts_what_it_receives
  (e : Hooks.env) (me : ZgStore.env) (ze : ZgStorage.env) (code : string)
  (key : option string) (mapping : ZgStore.MappingRecord) (w : Effects.world)
  (Hvalid : ZgMapping.validateShareCode code = true)
  (Hresolved : fst (ZgStore.getMappingFrom0G me code w) = Js.Ok mapping)
  (Hiv : Js.truthy (ZgStore.iv mapping) = true)
  (Hkey : Js.truthy key = true)
  (Hpresent : Hooks.zgStorage_present e = true)
  (Hconnected : Hooks.isConnected e = true) :
  exists (dr : ZgStorage.DownloadResult) (w2 : Effects.world),
    ZgStorage.downloadFile ze (ZgStore.rootHash mapping)
      (Hooks.enableProofVerification e) (Spec.displayed code key mapping w)
    = (Js.Ok dr, w2)
    /\ Hooks.useFileDownload e me ze code key w
       = Spec.after_fetch e code key mapping dr w2.
Proof.
  rewrite (hook_run e me ze code key mapping w Hvalid Hresolved).
  rewrite Hkey, Hpresent, Hconnected, andb_false_r. cbn [negb].
  apply fetch_and_decrypt_encrypted; assumption.
Qed.

Lemma download_decrypts_what_it_receives_witness :
  exists (dr : ZgStorage.DownloadResult) (w2 : Effects.world),
    ZgStorage.downloadFile (Scenarios.healthy [Byte.x01]) "0xroot" true
      (Spec.displayed Scenarios.code (Some "k")
         (Scenarios.record "0xroot" (Some "iv")) Scenarios.cached)
    = (Js.Ok dr, w2)
    /\ Hooks.useFileDownload Scenarios.connected
         (Scenarios.cache_of (Scenarios.record "0xroot" (Some "iv")))
         (Scenarios.healthy [Byte.x01]) Scenarios.code (Some "k") Scenarios.cached
       = Spec.after_fetch Scenarios.connected Scenarios.code (Some "k")
           (Scenarios.record "0xroot" (Some "iv")) dr w2.
Proof.
  apply (download_decrypts_what_it_receives Scenarios.connected
           (Scenarios.cache_of (Scenarios.record "0xroot" (Some "iv")))
           (Scenarios.healthy [Byte.x01]) Scenarios.code (Some "k")
           (Scenarios.record "0xroot" (Some "iv")) Scenarios.cached);
    vm_compute; reflexivity.
Defined.

(** C4 (as stated, refuted).  With the Pinata index out of reach (and no
    cache: [getMappingFromIPFS] has none), resolving a well-formed code
    through [getMappingFromIPFS] does not fail: the promise resolves with
    [null], and so does [getCidFromIPFS]. *)
Lemma unreachable_index_resolves_to_null :
  Pinata.validateShareCode Scenarios.code = true
  /\ fst (PinataStore.getMappingFromIPFS Scenarios.pinata_offline Scenarios.code
                                         Effects.fresh) = Js.Ok None
  /\ fst (PinataStore.getCidFromIPFS Scenarios.pinata_offline Scenarios.code
                                     Effects.fresh) = Js.Ok None.
Proof. repeat split; vm_compute; reflexivity. Qed.

(** C4 (amended).  For every well-formed share code, [getMappingFrom0G]
    consults the local cache and nothing else, making no network call: with
    no cache entry it throws "Mapping record not found.", and with an entry
    whose text parses to a record it returns that record; in both cases it
    leaves the world as it was.  [getMappingFromIPFS] has no cache; it never
    throws, and when the index cannot be reached it resolves with [null]
    after its one request. *)
Theorem resolution_from_cache_only
  (me : ZgStore.env) (pe : PinataStore.env) (code : string) (w : Effects.world)
  (Hvalid : ZgMapping.validateShareCode code = true) :
  (Effects.localStorage w !! ZgStore.cache_key code = None ->
   ZgStore.getMappingFrom0G me code w
   = (Js.Throw (Js.JsError "Mapping record not found."), w))
  /\ (forall (raw : string) (record : ZgStore.MappingRecord),
        ZgStore.storage_available me = true ->
        Effects.localStorage w !! ZgStore.cache_key code = Some raw ->
        Js.truthy_string raw = true ->
        ZgStore.JSON_parse me raw = Js.Ok (Some record) ->
        ZgStore.getMappingFrom0G me code w = (Js.Ok record, w))
  /\ Spec.silent (ZgStore.getMappingFrom0G me code)
  /\ (exists (found : option PinataStore.mapping) (w' : Effects.world),
        PinataStore.getMappingFromIPFS pe code w = (Js.Ok found, w'))
  /\ (forall t : Js.thrown,
        PinataStore.pinata_configured pe = true ->
        PinataStore.pinList pe (Pinata.extractCodeFromShareCode code) = Js.Throw t ->
        PinataStore.getMappingFromIPFS pe code w
        = (Js.Ok None,
           Effects.log
             [Effects.EvHttp "GET"
                (PinataStore.pinList_url (Pinata.extractCodeFromShareCode code))] w)).
Proof.
  split; [| split; [| split; [| split ]]].
  - intros Hnone. rewrite getMappingFrom0G_run by exact Hvalid.
    unfold Spec.cached_record. rewrite Hnone.
    destruct (ZgStore.storage_available me); reflexivity.
  - intros raw record Hs Hraw Htruthy Hparse.
    rewrite getMappingFrom0G_run by exact Hvalid.
    unfold Spec.cached_record. now rewrite Hs, Hraw, Htruthy, Hparse.
  - apply getMappingFrom0G_silent.
  - destruct (post_total _ _ (getMappingFromIPFS_total pe code) w) as (found & w' & H & _).
    eauto.
  - intros t Hc Hp. now apply getMappingFromIPFS_unreachable with (t := t).
Qed.

Lemma resolution_from_cache_only_witness :
  ZgStore.getMappingFrom0G (Scenarios.cache_of (Scenarios.record "0xroot" None))
                           Scenarios.code Scenarios.cached
  = (Js.Ok (Scenarios.record "0xroot" None), Scenarios.cached)
  /\ ZgStore.getMappingFrom0G (Scenarios.cache_of (Scenarios.record "0xroot" None))
                              Scenarios.code Effects.fresh
     = (Js.Throw (Js.JsError "Mapping record not found."), Effects.fresh).
Proof.
  split.
  - apply (proj1 (proj2 (resolution_from_cache_only
                           (Scenarios.cache_of (Scenarios.record "0xroot" None))
                           Scenarios.pinata_offline Scenarios.code Scenarios.cached
                           eq_refl)) "{...}");
      reflexivity.
  - apply (proj1 (resolution_from_cache_only
                    (Scenarios.cache_of (Scenarios.record "0xroot" None))
                    Scenarios.pinata_offline Scenarios.code Effects.fresh
                    eq_refl)).
    reflexivity.
Defined.


(** C10 (as stated, refuted).  A resolved record whose IV field is present
    and empty: the download info flags the file as not encrypted, no key is
    demanded, and the fetch goes ahead without one. *)
Lemma empty_iv_is_not_encrypted :
  ZgStore.iv (Scenarios.record "0xroot" (Some "")) = Some ""
  /\ fst (ZgStore.getMappingFrom0G
            (Scenarios.cache_of (Scenarios.record "0xroot" (Some "")))
            Scenarios.code Scenarios.cached)
     = Js.Ok (Scenarios.record "0xroot" (Some ""))
  /\ fst (Hooks.useFileDownload Scenarios.connected
            (Scenarios.cache_of (Scenarios.record "0xroot" (Some "")))
            (Scenarios.healthy [Byte.x01]) Scenarios.code None Scenarios.cached)
     = Js.Ok {| Hooks.dl_fileName := "report.pdf"; Hooks.dl_fileSize := 1;
                Hooks.dl_mimeType := "application/pdf";
                Hooks.dl_data := [Byte.x01] |}
  /\ option_map Effects.di_isEncrypted
       (Effects.downloadInfo
          (snd (Hooks.useFileDownload Scenarios.connected
                  (Scenarios.cache_of (Scenarios.record "0xroot" (Some "")))
                  (Scenarios.healthy [Byte.x01]) Scenarios.code None Scenarios.cached)))
     = Some false
  /\ option_map (fun p => Hooks.isEncrypted (Hooks.pv_metadata p))
       (match fst (Hooks.useFilePreview
                     (Scenarios.cache_of (Scenarios.record "0xroot" (Some "")))
                     Scenarios.code Scenarios.cached) with
        | Js.Ok p => Some p
        | Js.Throw _ => None
        end)
     = Some false.
Proof. repeat split; vm_compute; reflexivity. Qed.

(** C10 (amended).  When a share code is resolved through
    [getMappingFrom0G], the file is treated as encrypted exactly when the
    record's [iv] is a non-empty string ([!!mapping.iv]): that is the flag of
    the preview's metadata and of the download info, and the decryption key
    is demanded, before any fetch, exactly when it holds and no key was
    supplied (the hook's [onError] then clears the display).  No other
    property of the record, a stored [encryptionKey] among them, enters the
    decision. *)
Theorem encrypted_iff_iv_truthy
  (e : Hooks.env) (me : ZgStore.env) (ze : ZgStorage.env) (code : string)
  (key : option string) (mapping : ZgStore.MappingRecord) (w : Effects.world)
  (Hvalid : ZgMapping.validateShareCode code = true)
  (Hresolved : fst (ZgStore.getMappingFrom0G me code w) = Js.Ok mapping) :
  Hooks.isEncrypted (Hooks.metadata_of code mapping key) = Js.truthy (ZgStore.iv mapping)
  /\ (Js.truthy (ZgStore.iv mapping) = true
      <-> exists s, ZgStore.iv mapping = Some s /\ s <> "")
  /\ (forall mapping' : ZgStore.MappingRecord,
        ZgStore.iv mapping' = ZgStore.iv mapping ->
        Hooks.isEncrypted (Hooks.metadata_of code mapping' key)
        = Hooks.isEncrypted (Hooks.metadata_of code mapping key))
  /\ fst (Hooks.useFilePreview me code w)
     = Js.Ok {| Hooks.pv_metadata := Hooks.metadata_of code mapping None;
                Hooks.pv_isValid := true |}
  /\ (exists di : Effects.DownloadInfo,
        Effects.downloadInfo (snd (Hooks.useFileDownload e me ze code key w)) = Some di
        /\ Effects.di_isEncrypted di = Js.truthy (ZgStore.iv mapping))
  /\ (Js.truthy (ZgStore.iv mapping) = true -> Js.truthy key = false ->
      Hooks.useFileDownload e me ze code key w
      = (Js.Throw Spec.key_required, Spec.displayed code key mapping w)
      /\ Effects.trace (Spec.displayed code key mapping w) = Effects.trace w)
  /\ (Js.truthy (ZgStore.iv mapping) = false \/ Js.truthy key = true ->
      fst (Hooks.useFileDownload e me ze code key w) <> Js.Throw Spec.key_required).
Proof.
  pose proof (hook_run e me ze code key mapping w Hvalid Hresolved) as Hrun.
  split; [ reflexivity |].
  split.
  { destruct (ZgStore.iv mapping) as [[|c s]|]; simpl; split;
      first [ discriminate | intros (s' & [= <-] & Hs'); congruence
            | intros (s' & Hs' & _); discriminate
            | intros _; eexists; split; [ reflexivity | discriminate ]
            | reflexivity ]. }
  split.
  { intros mapping' Hiv. simpl. now rewrite Hiv. }
  split.
  { unfold Hooks.useFilePreview. rewrite Hvalid. cbn [negb]. unfold Effects.bind.
    rewrite getMappingFrom0G_run by exact Hvalid.
    rewrite (resolved_cached me code mapping w Hvalid Hresolved). reflexivity. }
  split.
  { exists (Hooks.info_of (Hooks.metadata_of code mapping key)).
    split; [| reflexivity ]. rewrite Hrun.
    destruct (Js.truthy (ZgStore.iv mapping) && negb (Js.truthy key));
      [ reflexivity |].
    destruct (negb (Hooks.zgStorage_present e)); [ reflexivity |].
    destruct (negb (Hooks.isConnected e)); [ reflexivity |].
    rewrite fetch_and_decrypt_keeps_info. reflexivity. }
  split.
  { intros Hiv Hkey. rewrite Hrun, Hiv, Hkey. split; reflexivity. }
  intros Hcase. rewrite Hrun.
  destruct (Js.truthy (ZgStore.iv mapping)) eqn:Hiv;
    destruct (Js.truthy key) eqn:Hkey; cbn [andb negb];
    try (destruct Hcase; discriminate).
  all: destruct (negb (Hooks.zgStorage_present e));
         [ unfold Spec.key_required; simpl; discriminate |].
  all: destruct (negb (Hooks.isConnected e));
         [ unfold Spec.key_required; simpl; discriminate |].
  - destruct (fetch_and_decrypt_encrypted e ze code key mapping
                (Spec.displayed code key mapping w) Hiv Hkey) as (dr & w2 & _ & ->).
    unfold Spec.after_fetch, Spec.key_required.
    destruct (ZgStorage.success dr); [| simpl; discriminate ].
    destruct (ZgStorage.data dr); [| simpl; discriminate ].
    destruct (Hooks.decryptFileFromBlob e _ _ _); simpl; discriminate.
  - apply fetch_and_decrypt_plain. exact Hiv.
  - apply fetch_and_decrypt_plain. exact Hiv.
Qed.

Lemma encrypted_iff_iv_truthy_witness :
  Hooks.useFileDownload Scenarios.connected
    (Scenarios.cache_of (Scenarios.record "0xroot" (Some "iv")))
    (Scenarios.healthy [Byte.x01]) Scenarios.code None Scenarios.cached
  = (Js.Throw Spec.key_required,
     Spec.displayed Scenarios.code None (Scenarios.record "0xroot" (Some "iv"))
                    Scenarios.cached)
  /\ Effects.trace
       (Spec.displayed Scenarios.code None (Scenarios.record "0xroot" (Some "iv"))
                       Scenarios.cached)
     = Effects.trace Scenarios.cached.
Proof.
  apply (encrypted_iff_iv_truthy Scenarios.connected
           (Scenarios.cache_of (Scenarios.record "0xroot" (Some "iv")))
           (Scenarios.healthy [Byte.x01]) Scenarios.code None
           (Scenarios.record "0xroot" (Some "iv")) Scenarios.cached);
    reflexivity.
Defined.

(* ===================================================================== *)
(** * Part IV: further properties of the code *)
(* ===================================================================== *)

(** ** [convertBigIntToString] *)

Section JsValueFacts.

Import JsValue.

Lemma jsval_induction (P : jsval -> Prop) :
  P JNull -> P JUndefined -> (forall z, P (JBigInt z)) -> (forall n, P (JNumber n)) ->
  (forall s, P (JString s)) -> (forall b, P (JBool b)) ->
  (forall items, List.Forall P items -> P (JArray items)) ->
  (forall entries, List.Forall (fun kv => P (snd kv)) entries -> P (JObject entries)) ->
  forall v, P v.
Proof.
  intros Hnull Hundef Hbig Hnum Hstr Hbool Harr Hobj.
  refine (fix IH (v : jsval) : P v :=
            match v with
            | JNull => Hnull
            | JUndefined => Hundef
            | JBigInt z => Hbig z
            | JNumber n => Hnum n
            | JString s => Hstr s
            | JBool b => Hbool b
            | JArray items =>
                Harr items
                  ((fix go (l : list jsval) : List.Forall P l :=
                      match l with
                      | [] => @List.Forall_nil _ _
                      | x :: r => @List.Forall_cons _ _ x r (IH x) (go r)
                      end) items)
            | JObject entries =>
                Hobj entries
                  ((fix go (l : list (string * jsval))
                      : List.Forall (fun kv => P (snd kv)) l :=
                      match l with
                      | [] => @List.Forall_nil _ _
                      | x :: r => @List.Forall_cons _ _ x r (IH (snd x)) (go r)
                      end) entries)
            end).
Qed.

Lemma convert_no_bigint (v : jsval) : has_bigint (convertBigIntToString v) = false.
Proof.
  induction v as [| | z | n | s | b | items IH | entries IH] using jsval_induction;
    try reflexivity.
  - cbn [convertBigIntToString has_bigint].
    induction IH as [|x r Hx _ IHr]; [ reflexivity |].
    cbn [map existsb]. now rewrite Hx, IHr.
  - cbn [convertBigIntToString has_bigint].
    induction IH as [|x r Hx _ IHr]; [ reflexivity |].
    cbn [map existsb snd]. now rewrite Hx, IHr.
Qed.

Lemma convert_without_bigint (v : jsval) :
  has_bigint v = false -> convertBigIntToString v = v.
Proof.
  induction v as [| | z | n | s | b | items IH | entries IH] using jsval_induction;
    try reflexivity; try discriminate.
  - cbn [convertBigIntToString has_bigint]. intros H. f_equal.
    induction IH as [|x r Hx _ IHr]; [ reflexivity |].
    cbn [map existsb] in *. apply orb_false_iff in H. destruct H as [H1 H2].
    now rewrite Hx, IHr.
  - cbn [convertBigIntToString has_bigint]. intros H. f_equal.
    induction IH as [|[k x] r Hx _ IHr]; [ reflexivity |].
    cbn [map existsb fst snd] in *. apply orb_false_iff in H. destruct H as [H1 H2].
    now rewrite Hx, IHr.
Qed.

Lemma convert_shape (v : jsval) : shape (convertBigIntToString v) = shape v.
Proof.
  induction v as [| | z | n | s | b | items IH | entries IH] using jsval_induction;
    try reflexivity.
  - cbn [convertBigIntToString shape]. f_equal.
    induction IH as [|x r Hx _ IHr]; [ reflexivity |].
    cbn [map]. now rewrite Hx, IHr.
  - cbn [convertBigIntToString shape]. f_equal.
    induction IH as [|[k x] r Hx _ IHr]; [ reflexivity |].
    cbn [map fst snd] in *. now rewrite Hx, IHr.
Qed.

End JsValueFacts.


(** ** Share codes, continued *)

Section ShareCodeMore.

Import Regex.

Lemma is_group_length (g : string) : Grammar.is_group g = true -> String.length g = 4%nat.
Proof.
  unfold Grammar.is_group. intros H. apply andb_true_iff in H.
  now apply Nat.eqb_eq.
Qed.

Lemma well_formed_length (s : string) : Grammar.well_formed s -> String.length s = 34%nat.
Proof.
  intros H. apply well_formed_iff in H.
  destruct H as (g1 & g2 & g3 & g4 & H1 & H2 & H3 & H4 & ->).
  rewrite !length_append_s.
  rewrite (is_group_length g1 H1), (is_group_length g2 H2),
    (is_group_length g3 H3), (is_group_length g4 H4).
  reflexivity.
Qed.

Lemma replace_first_unfold (pat s : string) :
  Js.replace_first pat s
  = if String.prefix pat s
    then String.substring (String.length pat) (String.length s - String.length pat) s
    else match s with
         | EmptyString => EmptyString
         | String c rest => String c (Js.replace_first pat rest)
         end.
Proof. destruct s; reflexivity. Qed.

Lemma prefix_append (p b : string) : String.prefix p (p ++ b) = true.
Proof.
  induction p as [|c p IH]; simpl.
  - destruct b; reflexivity.
  - destruct (ascii_dec c c); [ exact IH | congruence ].
Qed.

Lemma substring_whole (b : string) : String.substring 0 (String.length b) b = b.
Proof. induction b as [|c b IH]; simpl; [ reflexivity | now rewrite IH ]. Qed.

Lemma substring_skip (p b : string) (n : nat) :
  String.substring (String.length p) n (p ++ b) = String.substring 0 n b.
Proof. induction p as [|c p IH]; simpl; [ reflexivity | exact IH ]. Qed.

Lemma replace_first_prefix (p b : string) : Js.replace_first p (p ++ b) = b.
Proof.
  rewrite replace_first_unfold, prefix_append, substring_skip, length_append_s.
  replace (String.length p + String.length b - String.length p)%nat
    with (String.length b) by lia.
  apply substring_whole.
Qed.

End ShareCodeMore.

(** X2.  A code that [validateShareCode] accepts has exactly 34 characters
    and begins with ["privshare://0g-"]; nothing may follow it: an accepted
    code with any text appended (a space, a line break) is rejected. *)
Theorem valid_code_has_no_slack (s t : string)
  (Hvalid : ZgMapping.validateShareCode s = true) :
  String.length s = 34%nat
  /\ String.prefix ZgMapping.SHARE_CODE_PREFIX s = true
  /\ Pinata.validateShareCode s = true
  /\ (ZgMapping.validateShareCode (s ++ t) = true -> t = "")
  /\ (t <> "" -> ZgMapping.validateShareCode (s ++ t) = false
                 /\ Pinata.validateShareCode (s ++ t) = false).
Proof.
  pose proof (proj1 (zg_validate_iff s) Hvalid) as Hwf.
  pose proof (well_formed_length s Hwf) as Hlen.
  assert (Hext : forall u, Grammar.well_formed (s ++ u) -> u = "").
  { intros u Hu. apply well_formed_length in Hu. rewrite length_append_s in Hu.
    destruct u; [ reflexivity | simpl in Hu; lia ]. }
  split; [ exact Hlen |].
  split.
  { apply well_formed_iff in Hwf.
    destruct Hwf as (g1 & g2 & g3 & g4 & _ & _ & _ & _ & ->).
    apply prefix_append. }
  split; [ now apply pinata_validate_iff |].
  split; [ intros H; apply Hext; now apply zg_validate_iff |].
  intros Ht. split.
  - destruct (ZgMapping.validateShareCode (s ++ t)) eqn:E; [| reflexivity ].
    exfalso. apply Ht, Hext. now apply zg_validate_iff.
  - destruct (Pinata.validateShareCode (s ++ t)) eqn:E; [| reflexivity ].
    exfalso. apply Ht, Hext. now apply pinata_validate_iff.
Qed.

Lemma valid_code_has_no_slack_witness :
  String.length Scenarios.code = 34%nat
  /\ String.prefix ZgMapping.SHARE_CODE_PREFIX Scenarios.code = true
  /\ Pinata.validateShareCode Scenarios.code = true
  /\ (ZgMapping.validateShareCode (Scenarios.code ++ " ") = true -> " " = "")
  /\ (" " <> "" -> ZgMapping.validateShareCode (Scenarios.code ++ " ") = false
                   /\ Pinata.validateShareCode (Scenarios.code ++ " ") = false).
Proof. apply (valid_code_has_no_slack Scenarios.code " "). reflexivity. Defined.

(** X3.  On a code that validates, both [extractCodeFromShareCode] return
    the 19 characters after the prefix, so that prefix and extracted part
    give the code back; the 0G revision throws "Invalid share code format"
    on every other string, where the Pinata revision returns a string. *)
Theorem extractCode_round_trip (code : string) :
  (ZgMapping.validateShareCode code = true ->
   exists body : string,
     ZgStore.extractCodeFromShareCode code = Js.Ok body
     /\ Pinata.extractCodeFromShareCode code = body
     /\ ZgMapping.SHARE_CODE_PREFIX ++ body = code
     /\ String.length body = 19%nat)
  /\ (ZgMapping.validateShareCode code = false ->
      ZgStore.extractCodeFromShareCode code
      = Js.Throw (Js.JsError "Invalid share code format"))
  /\ (forall body : string,
        Pinata.extractCodeFromShareCode ("privshare://0g-" ++ body) = body).
Proof.
  split; [| split ].
  - intros Hv. pose proof (proj1 (zg_validate_iff code) Hv) as Hwf.
    pose proof (well_formed_length code Hwf) as Hlen.
    apply well_formed_iff in Hwf.
    destruct Hwf as (g1 & g2 & g3 & g4 & _ & _ & _ & _ & E).
    exists (g1 ++ "-" ++ g2 ++ "-" ++ g3 ++ "-" ++ g4).
    unfold ZgStore.extractCodeFromShareCode, Pinata.extractCodeFromShareCode.
    rewrite Hv. cbn [negb]. subst code.
    unfold ZgMapping.SHARE_CODE_PREFIX, Grammar.prefix in *.
    rewrite !replace_first_prefix. repeat split.
    rewrite length_append_s in Hlen.
    change (String.length "privshare://0g-") with 15%nat in Hlen. lia.
  - intros Hv. unfold ZgStore.extractCodeFromShareCode. now rewrite Hv.
  - intros body. apply replace_first_prefix.
Qed.

Section GeneratorsAgree.

Variable rnd : nat -> Q.
Hypothesis rnd_unit : forall k, (0 <= rnd k)%Q /\ (rnd k < 1)%Q.

(** In range, [chars.charAt(i)] and [SHARE_CODE_ALPHABET[i]] are the same
    one-character string. *)
Lemma same_draw (k : nat) :
  exists c,
    Js.charAt Pinata.chars (Js.floor_mul (rnd k) (String.length Pinata.chars))
    = String c ""
    /\ Js.index_text ZgMapping.SHARE_CODE_ALPHABET
         (Js.floor_mul (rnd k) (String.length ZgMapping.SHARE_CODE_ALPHABET))
       = String c ""
    /\ Regex.is_line_terminator c = false.
Proof.
  destruct (rnd_unit k) as [H0 H1].
  pose proof (floor_mul_range (rnd k) 36 H0 H1 ltac:(lia)) as Hr.
  change (String.length Pinata.chars) with 36%nat.
  change (String.length ZgMapping.SHARE_CODE_ALPHABET) with 36%nat.
  destruct (alphabet_char _ Hr) as (c & Hc & Hal).
  exists c. unfold Js.charAt, Js.index_text, Pinata.chars, ZgMapping.SHARE_CODE_ALPHABET.
  destruct (Z.ltb_spec (Js.floor_mul (rnd k) 36) 0) as [Hneg|_]; [ lia |].
  rewrite Hc. repeat split. now apply lower_alnum_not_terminator.
Qed.

Lemma randomGroup_explicit (k : nat) :
  ZgMapping.randomGroup rnd k
  = (((("" ++ Js.index_text ZgMapping.SHARE_CODE_ALPHABET
                (Js.floor_mul (rnd k) (String.length ZgMapping.SHARE_CODE_ALPHABET)))
         ++ Js.index_text ZgMapping.SHARE_CODE_ALPHABET
              (Js.floor_mul (rnd (S k)) (String.length ZgMapping.SHARE_CODE_ALPHABET)))
        ++ Js.index_text ZgMapping.SHARE_CODE_ALPHABET
             (Js.floor_mul (rnd (S (S k))) (String.length ZgMapping.SHARE_CODE_ALPHABET)))
       ++ Js.index_text ZgMapping.SHARE_CODE_ALPHABET
            (Js.floor_mul (rnd (S (S (S k)))) (String.length ZgMapping.SHARE_CODE_ALPHABET)),
     (4 + k)%nat).
Proof. reflexivity. Qed.

Lemma generators_agree :
  Pinata.generateRandomShareCode rnd = ZgMapping.generateShareCode rnd.
Proof.
  destruct (same_draw 0) as (c0 & P0 & Z0 & T0).
  destruct (same_draw 1) as (c1 & P1 & Z1 & T1).
  destruct (same_draw 2) as (c2 & P2 & Z2 & T2).
  destruct (same_draw 3) as (c3 & P3 & Z3 & T3).
  destruct (same_draw 4) as (c4 & P4 & Z4 & T4).
  destruct (same_draw 5) as (c5 & P5 & Z5 & T5).
  destruct (same_draw 6) as (c6 & P6 & Z6 & T6).
  destruct (same_draw 7) as (c7 & P7 & Z7 & T7).
  destruct (same_draw 8) as (c8 & P8 & Z8 & T8).
  destruct (same_draw 9) as (c9 & P9 & Z9 & T9).
  destruct (same_draw 10) as (c10 & P10 & Z10 & T10).
  destruct (same_draw 11) as (c11 & P11 & Z11 & T11).
  destruct (same_draw 12) as (c12 & P12 & Z12 & T12).
  destruct (same_draw 13) as (c13 & P13 & Z13 & T13).
  destruct (same_draw 14) as (c14 & P14 & Z14 & T14).
  destruct (same_draw 15) as (c15 & P15 & Z15 & T15).
  unfold Pinata.generateRandomShareCode, ZgMapping.generateShareCode,
    ZgMapping.SHARE_CODE_BODY_GROUPS, Regex.match_all_dot_1_4.
  cbn [Pinata.draw_chars ZgMapping.groups_from].
  rewrite (randomGroup_explicit 0). cbn [Nat.add].
  rewrite (randomGroup_explicit 4). cbn [Nat.add].
  rewrite (randomGroup_explicit 8). cbn [Nat.add].
  rewrite (randomGroup_explicit 12).
  rewrite P0, P1, P2, P3, P4, P5, P6, P7, P8, P9, P10, P11, P12, P13, P14, P15.
  rewrite Z0, Z1, Z2, Z3, Z4, Z5, Z6, Z7, Z8, Z9, Z10, Z11, Z12, Z13, Z14, Z15.
  cbn [append Regex.pieces].
  rewrite T0, T1, T2, T3, T4, T5, T6, T7, T8, T9, T10, T11, T12, T13, T14, T15.
  reflexivity.
Qed.

End GeneratorsAgree.

(** X4.  Fed the same values of [Math.random()], the two generators produce
    the same share code: [generateRandomShareCode] and [generateShareCode]
    differ in how they build it, not in what they build. *)
Theorem generators_produce_the_same_code (rnd : nat -> Q)
  (Hrnd : forall k, (0 <= rnd k)%Q /\ (rnd k < 1)%Q) :
  Pinata.generateRandomShareCode rnd = ZgMapping.generateShareCode rnd
  /\ String.length (ZgMapping.generateShareCode rnd) = 34%nat.
Proof.
  split; [ now apply generators_agree |].
  apply well_formed_length. now apply generateShareCode_well_formed.
Qed.

Lemma generators_produce_the_same_code_witness :
  Pinata.generateRandomShareCode (fun k => Z.of_nat (k mod 5) # 5)
  = ZgMapping.generateShareCode (fun k => Z.of_nat (k mod 5) # 5)
  /\ String.length (ZgMapping.generateShareCode (fun k => Z.of_nat (k mod 5) # 5))
     = 34%nat.
Proof.
  apply (generators_produce_the_same_code (fun k => Z.of_nat (k mod 5) # 5)).
  intros k. unfold Qle, Qlt. cbn [Qnum Qden].
  pose proof (Nat.mod_upper_bound k 5). lia.
Defined.

(** ** The pointer record: store, then resolve *)

(** X5.  For a well-formed code and a working [localStorage],
    [storeMappingTo0G] never throws: it uploads the record, writes the cache
    entry and returns the upload's hashes whatever the upload reported, a
    failed upload included.  Resolving the code afterwards with
    [getMappingFrom0G] returns the record that was passed in, with the
    upload's transaction hash when there is one. *)
Theorem store_then_resolve
  (me : ZgStore.env) (ze : ZgStorage.env) (code : string)
  (record : ZgStore.MappingRecord) (signer : bool) (w : Effects.world)
  (Hvalid : ZgMapping.validateShareCode code = true)
  (Havailable : ZgStore.storage_available me = true)
  (Hwritable : ZgStore.setItem_throws me = false) :
  exists (ur : ZgStorage.UploadResult) (w1 : Effects.world),
    ZgStorage.uploadFile ze signer w = (Js.Ok ur, w1)
    /\ let saved := StoreSpec.saved_record record ur in
       let text := ZgStore.JSON_stringify me saved in
       let w2 := StoreSpec.with_item (ZgStore.cache_key code) text w1 in
       ZgStore.storeMappingTo0G me ze code record signer w
       = (Js.Ok {| ZgStore.st_rootHash := Some (ZgStorage.up_rootHash ur);
                   ZgStore.st_txHash := Some (ZgStorage.up_txHash ur) |}, w2)
       /\ Effects.trace w2 = Effects.trace w1
       /\ (Js.truthy_string text = true ->
           ZgStore.JSON_parse me text = Js.Ok (Some saved) ->
           ZgStore.getMappingFrom0G me code w2 = (Js.Ok saved, w2)).
Proof.
  destruct (post_total _ _ (post_uploadFile ze signer) w) as (ur & w1 & Hup & _).
  exists ur, w1. split; [ exact Hup |]. cbv zeta.
  split; [| split; [ reflexivity |] ].
  - unfold ZgStore.storeMappingTo0G. rewrite Hvalid. cbn [negb].
    unfold ZgStore.extractCodeFromShareCode. rewrite Hvalid. cbn [negb].
    unfold Effects.bind at 1. cbn [Effects.lift].
    unfold Effects.bind at 1. rewrite Hup.
    unfold Effects.bind at 1.
    unfold ZgStore.saveMappingLocally, Effects.try_catch.
    rewrite Havailable, Hwritable. reflexivity.
  - intros Htext Hparse. rewrite getMappingFrom0G_run by exact Hvalid.
    unfold Spec.cached_record, StoreSpec.with_item. rewrite Havailable.
    cbn [Effects.set_localStorage snd Effects.localStorage].
    rewrite lookup_insert_eq, Htext, Hparse. reflexivity.
Qed.

Lemma store_then_resolve_witness :
  exists (ur : ZgStorage.UploadResult) (w1 : Effects.world),
    ZgStorage.uploadFile Scenarios.silent_indexer false Effects.fresh = (Js.Ok ur, w1)
    /\ ZgStorage.up_success ur = false
    /\ ZgStore.getMappingFrom0G
         (Scenarios.cache_of (Scenarios.record "0xroot" None)) Scenarios.code
         (StoreSpec.with_item (ZgStore.cache_key Scenarios.code) "{...}" w1)
       = (Js.Ok (Scenarios.record "0xroot" None),
          StoreSpec.with_item (ZgStore.cache_key Scenarios.code) "{...}" w1).
Proof.
  destruct (store_then_resolve
              (Scenarios.cache_of (Scenarios.record "0xroot" None))
              Scenarios.silent_indexer Scenarios.code
              (Scenarios.record "0xroot" None) false Effects.fresh
              eq_refl eq_refl eq_refl) as (ur & w1 & Hup & Hrest).
  exists ur, w1. split; [ exact Hup |].
  assert (E : ur = {| ZgStorage.up_success := false; ZgStorage.up_txHash := "";
                      ZgStorage.up_rootHash := "";
                      ZgStorage.up_error := Some "Wallet not connected" |})
    by (vm_compute in Hup; congruence).
  subst ur. split; [ reflexivity |].
  destruct Hrest as (_ & _ & Hres). apply Hres; reflexivity.
Defined.

(** ** The Pinata index *)

Section PinataMore.

Import Js Effects PinataStore.

Variable pe : env.

Lemma getMappingFromIPFS_cases (shareCode : string) (w : world) :
  let code := Pinata.extractCodeFromShareCode shareCode in
  (getMappingFromIPFS pe shareCode w = (Ok None, w)
   /\ pinata_configured pe = false)
  \/ (getMappingFromIPFS pe shareCode w
      = (Ok None, log [EvHttp "GET" (pinList_url code)] w)
      /\ pinata_configured pe = true)
  \/ (exists ipfsHash rows r1,
        pinata_configured pe = true
        /\ pinList pe code = Ok r1 /\ ok r1 = true
        /\ json r1 = Ok (Some (ipfsHash :: rows))
        /\ ((getMappingFromIPFS pe shareCode w
             = (Ok None,
                log [EvHttp "GET" (pinList_url code);
                     EvHttp "GET" (PINATA_GATEWAY_URL ++ "/ipfs/" ++ ipfsHash)] w))
            \/ (exists r2 md,
                  gateway pe ipfsHash = Ok r2 /\ ok r2 = true /\ json r2 = Ok md
                  /\ getMappingFromIPFS pe shareCode w
                     = (Ok (Some {| mp_shareCode := md_shareCode md;
                                    mp_pieceCid := md_rootHash md;
                                    mp_metadata := md;
                                    mp_rootHash := md_rootHash md;
                                    mp_txHash := md_txHash md;
                                    mp_provider := md_provider md |}),
                        log [EvHttp "GET" (pinList_url code);
                             EvHttp "GET" (PINATA_GATEWAY_URL ++ "/ipfs/" ++ ipfsHash)]
                            w)))).
Proof.
  cbv zeta.
  unfold getMappingFromIPFS, try_catch, bind, getPinataHeaders, call, lift, ret,
    throw_error, throw.
  destruct (pinata_configured pe) eqn:Hc; [| left; auto ].
  right.
  destruct (pinList pe (Pinata.extractCodeFromShareCode shareCode)) as [r1|t] eqn:Hp;
    [| left; auto ].
  destruct (ok r1) eqn:Hok; cbn [negb]; [| left; auto ].
  destruct (json r1) as [[[|ipfsHash rows]|]|t] eqn:Hj; try (left; auto; fail).
  right. exists ipfsHash, rows, r1. repeat (split; [ assumption || reflexivity |]).
  rewrite !log_log. cbn [app].
  destruct (gateway pe ipfsHash) as [r2|t] eqn:Hg; [| left; reflexivity ].
  destruct (ok r2) eqn:Hok2; [| left; reflexivity ].
  destruct (json r2) as [md|t] eqn:Hj2; [| left; reflexivity ].
  right. exists r2, md. auto.
Qed.

End PinataMore.

(** X6.  [getCidFromIPFS] never throws and sends at most two requests, both
    [GET].  It returns a CID only when Pinata was configured, the search
    answered with at least one row, the gateway delivered the document of the
    first row, and that document has a non-empty [rootHash]: the CID is that
    [rootHash].  In every other case the answer is [null]. *)
Theorem getCidFromIPFS_only_from_first_row
  (pe : PinataStore.env) (shareCode : string) (w : Effects.world) :
  exists (found : option string) (evs : list Effects.event),
    PinataStore.getCidFromIPFS pe shareCode w = (Js.Ok found, Effects.log evs w)
    /\ (List.length evs <= 2)%nat
    /\ List.Forall PinataSpec.is_get evs
    /\ (forall cid : string,
          found = Some cid ->
          cid <> ""
          /\ exists ipfsHash rows r1 r2 md,
               PinataStore.pinata_configured pe = true
               /\ PinataStore.pinList pe (Pinata.extractCodeFromShareCode shareCode)
                  = Js.Ok r1
               /\ PinataStore.ok r1 = true
               /\ PinataStore.json r1 = Js.Ok (Some (ipfsHash :: rows))
               /\ PinataStore.gateway pe ipfsHash = Js.Ok r2
               /\ PinataStore.ok r2 = true
               /\ PinataStore.json r2 = Js.Ok md
               /\ PinataStore.md_rootHash md = Some cid).
Proof.
  unfold PinataStore.getCidFromIPFS, Effects.bind, Effects.ret.
  destruct (getMappingFromIPFS_cases pe shareCode w)
    as [[-> Hc] | [[-> Hc] | (ipfsHash & rows & r1 & Hc & Hp & Hok & Hj & Hrest)]].
  - exists None, []. rewrite log_nil. repeat split; auto. discriminate.
  - eexists None, _. split; [ reflexivity |].
    split; [ simpl; lia |]. split; [| discriminate ].
    repeat constructor. eexists. reflexivity.
  - destruct Hrest as [-> | (r2 & md & Hg & Hok2 & Hj2 & ->)].
    + eexists None, _. split; [ reflexivity |].
      split; [ simpl; lia |]. split; [| discriminate ].
      repeat constructor; eexists; reflexivity.
    + cbn [PinataStore.mp_pieceCid].
      eexists _, _. split; [ reflexivity |].
      split; [ simpl; lia |].
      split; [ repeat constructor; eexists; reflexivity |].
      intros cid Hcid.
      destruct (PinataStore.md_rootHash md) as [[|c s]|] eqn:Hroot;
        cbn [Js.truthy Js.truthy_string] in Hcid; try discriminate.
      injection Hcid as <-. split; [ discriminate |].
      exists ipfsHash, rows, r1, r2, md. auto 10.
Qed.

(** [storeMappingToIPFS], run: without credentials it throws before any
    request; otherwise it sends one [POST] and its outcome is that of the
    request, of the status check and of reading the body. *)
Lemma storeMappingToIPFS_run
  (pe : PinataStore.env) (shareCode rootHash : string) (md : PinataStore.metadata)
  (w : Effects.world) :
  let run := PinataStore.storeMappingToIPFS pe shareCode rootHash md w in
  let request := PinataStore.pinJSONToIPFS pe (PinataSpec.pin_name shareCode)
                   (PinataSpec.pin_content shareCode rootHash md) in
  (PinataStore.pinata_configured pe = false ->
   run = (Js.Throw (Js.JsError "Pinata configuration missing"), w))
  /\ (PinataStore.pinata_configured pe = true ->
      snd run = Effects.log [PinataSpec.pin_event] w
      /\ fst run
         = match request with
           | Js.Throw t => Js.Throw t
           | Js.Ok resp =>
               if PinataStore.ok resp then
                 match PinataStore.json resp with
                 | Js.Ok ipfsHash =>
                     Js.Ok {| PinataStore.st_ipfsHash := ipfsHash;
                              PinataStore.st_shareCode := shareCode;
                              PinataStore.st_rootHash := rootHash |}
                 | Js.Throw t => Js.Throw t
                 end
               else Js.Throw (Js.JsError
                                ("Pinata API error: "
                                 ++ ZgStorage.show (PinataStore.status resp)
                                 ++ " " ++ PinataStore.statusText resp))
           end)
  /\ Effects.localStorage (snd run) = Effects.localStorage w.
Proof.
  cbv zeta.
  unfold PinataStore.storeMappingToIPFS, Effects.try_catch, Effects.bind,
    PinataStore.getPinataHeaders, Effects.call, Effects.lift, Effects.ret,
    Effects.throw_error, Effects.throw, PinataSpec.pin_name, PinataSpec.pin_content,
    PinataSpec.pin_event.
  destruct (PinataStore.pinata_configured pe).
  - split; [ discriminate |].
    destruct (PinataStore.pinJSONToIPFS pe _ _) as [resp|t].
    + destruct (PinataStore.ok resp); cbn [negb].
      * destruct (PinataStore.json resp); auto.
      * auto.
    + auto.
  - split; [ reflexivity |]. split; [ discriminate | reflexivity ].
Qed.

(** ** The stand-in hash *)

Section NodeCryptoFacts.

Import NodeCrypto.

Lemma to_int32_range (z : Z) : (- 2 ^ 31 <= to_int32 z < 2 ^ 31)%Z.
Proof.
  unfold to_int32.
  pose proof (Z.mod_pos_bound (z + 2 ^ 31) (2 ^ 32) ltac:(lia)). lia.
Qed.

Lemma to_int32_shift (x y : Z) : to_int32 (x + 2 ^ 32 * y) = to_int32 x.
Proof.
  unfold to_int32.
  replace (x + 2 ^ 32 * y + 2 ^ 31)%Z with (x + 2 ^ 31 + y * 2 ^ 32)%Z by lia.
  now rewrite Z_mod_plus_full.
Qed.

Lemma to_int32_offset (a : Z) : exists q, to_int32 a = (a + 2 ^ 32 * q)%Z.
Proof.
  exists (- ((a + 2 ^ 31) / 2 ^ 32))%Z. unfold to_int32.
  pose proof (Z.div_mod (a + 2 ^ 31) (2 ^ 32) ltac:(lia)). lia.
Qed.

Lemma to_int32_fixed (z : Z) : (- 2 ^ 31 <= z < 2 ^ 31)%Z -> to_int32 z = z.
Proof.
  intros H. unfold to_int32. rewrite Z.mod_small by lia. lia.
Qed.

Lemma to_int32_idem (z : Z) : to_int32 (to_int32 z) = to_int32 z.
Proof. apply to_int32_fixed, to_int32_range. Qed.

(** One turn of the loop is [hash * 31 + char], kept to 32 bits. *)
Lemma hash_step (hash c : Z) :
  band (shl hash 5 - hash + c) (shl hash 5 - hash + c) = to_int32 (31 * hash + c).
Proof.
  unfold band. rewrite Z.land_diag. unfold shl.
  rewrite Z.shiftl_mul_pow2 by lia.
  destruct (to_int32_offset hash) as (q1 & ->).
  destruct (to_int32_offset ((hash + 2 ^ 32 * q1) * 2 ^ 5)) as (q2 & ->).
  replace ((hash + 2 ^ 32 * q1) * 2 ^ 5 + 2 ^ 32 * q2 - hash + c)%Z
    with (31 * hash + c + 2 ^ 32 * (32 * q1 + q2))%Z by lia.
  apply to_int32_shift.
Qed.

Lemma poly_shift (str : string) (x q : Z) :
  exists q', poly str (x + 2 ^ 32 * q) = (poly str x + 2 ^ 32 * q')%Z.
Proof.
  revert x q. induction str as [|c rest IH]; intros x q; cbn [poly].
  - eauto.
  - replace (31 * (x + 2 ^ 32 * q) + charCodeAt c)%Z
      with (31 * x + charCodeAt c + 2 ^ 32 * (31 * q))%Z by lia.
    apply IH.
Qed.

Lemma hash_loop_poly (str : string) (hash : Z) :
  to_int32 hash = hash -> hash_loop str hash = to_int32 (poly str hash).
Proof.
  revert hash. induction str as [|c rest IH]; intros hash Hh; cbn [hash_loop poly].
  - now rewrite Hh.
  - rewrite hash_step. rewrite IH by apply to_int32_idem.
    destruct (to_int32_offset (31 * hash + charCodeAt c)) as (q & ->).
    destruct (poly_shift rest (31 * hash + charCodeAt c) q) as (q' & ->).
    apply to_int32_shift.
Qed.

Lemma hash_loop_append (a b : string) (hash : Z) :
  hash_loop (a ++ b) hash = hash_loop b (hash_loop a hash).
Proof.
  revert hash. induction a as [|c a IH]; intros hash; cbn [append hash_loop];
    [ reflexivity | apply IH ].
Qed.

Lemma poly_append (a b : string) (acc : Z) : poly (a ++ b) acc = poly b (poly a acc).
Proof.
  revert acc. induction a as [|c a IH]; intros acc; cbn [append poly];
    [ reflexivity | apply IH ].
Qed.

End NodeCryptoFacts.

(** X7.  The number behind the stand-in [digest] is the polynomial
    [c0 * 31^(n-1) + ... + c(n-1)] of the character codes of the text,
    reduced to a signed 32-bit integer: it always lies in
    [[-2^31, 2^31)], whatever the length of the input. *)
Theorem polyfill_hash_is_polynomial_mod_2_32
  (decode : list Byte.byte -> string) (data : NodeCrypto.chunk) :
  let text := NodeCrypto.as_text decode data in
  let hash := NodeCrypto.hash_of decode data in
  (- 2 ^ 31 <= hash < 2 ^ 31)%Z
  /\ hash = NodeCrypto.to_int32 (NodeCrypto.poly text 0)
  /\ ((hash - NodeCrypto.poly text 0) mod 2 ^ 32 = 0)%Z.
Proof.
  cbv zeta. unfold NodeCrypto.hash_of.
  rewrite hash_loop_poly by reflexivity.
  split; [ apply to_int32_range |]. split; [ reflexivity |].
  destruct (to_int32_offset (NodeCrypto.poly (NodeCrypto.as_text decode data) 0))
    as (q & ->).
  replace (NodeCrypto.poly (NodeCrypto.as_text decode data) 0 + 2 ^ 32 * q
           - NodeCrypto.poly (NodeCrypto.as_text decode data) 0)%Z
    with (q * 2 ^ 32)%Z by lia.
  apply Z_mod_mult.
Qed.

(** X8.  The stand-in hash is not collision resistant: exchanging ["Aa"] for
    ["BB"] anywhere in a text changes neither the hash nor the digest, in
    either encoding.  The hash of two texts fed one after the other is the
    loop run over the second text from the hash of the first. *)
Theorem polyfill_hash_collides
  (decode : list Byte.byte -> string) (before after encoding a b : string) :
  NodeCrypto.hash_of decode (NodeCrypto.Text (before ++ "Aa" ++ after))
  = NodeCrypto.hash_of decode (NodeCrypto.Text (before ++ "BB" ++ after))
  /\ NodeCrypto.digest decode (NodeCrypto.Text (before ++ "Aa" ++ after)) encoding
     = NodeCrypto.digest decode (NodeCrypto.Text (before ++ "BB" ++ after)) encoding
  /\ before ++ "Aa" ++ after <> before ++ "BB" ++ after
  /\ (forall st,
        NodeCrypto.update decode
          (NodeCrypto.update decode None (NodeCrypto.Text a)) (NodeCrypto.Text b)
        = Some st ->
        NodeCrypto.hash_of decode st
        = NodeCrypto.hash_loop b (NodeCrypto.hash_of decode (NodeCrypto.Text a))).
Proof.
  assert (E : NodeCrypto.hash_of decode (NodeCrypto.Text (before ++ "Aa" ++ after))
              = NodeCrypto.hash_of decode (NodeCrypto.Text (before ++ "BB" ++ after))).
  { unfold NodeCrypto.hash_of, NodeCrypto.as_text.
    rewrite !hash_loop_poly by reflexivity. f_equal.
    rewrite !poly_append. f_equal. cbn [NodeCrypto.poly].
    change (NodeCrypto.charCodeAt "A") with 65%Z.
    change (NodeCrypto.charCodeAt "a") with 97%Z.
    change (NodeCrypto.charCodeAt "B") with 66%Z. lia. }
  split; [ exact E |].
  split; [ unfold NodeCrypto.digest; now rewrite E |].
  split; [ intros H; apply append_inv_head_s in H; discriminate H |].
  intros st [= <-]. apply hash_loop_append.
Qed.

(** ** The storage service: set-up, choice of node, preconditions *)

Section OutcomeRules.

Import Js Effects Spec Outcome.

Lemma yields_intro {A} (P : event -> Prop) (Q : A -> Prop) (E : thrown -> Prop)
      (m : Eff A) :
  emits P m -> post Q E m -> yields P Q E m.
Proof.
  intros He Hp w. destruct (He w) as (evs & Ht & HF). exists evs.
  split; [ exact Ht |]. split; [ exact HF | apply Hp ].
Qed.

Lemma yields_bind {A B} (P : event -> Prop) (Q' : A -> Prop) (Q : B -> Prop)
      (E : thrown -> Prop) (m : Eff A) (k : A -> Eff B) :
  yields P Q' E m -> (forall a, Q' a -> yields P Q E (k a)) -> yields P Q E (bind m k).
Proof.
  intros Hm Hk w. unfold bind. destruct (Hm w) as (evs & Ht & HF & HQ).
  destruct (m w) as [[a|t] w1]; simpl in Ht, HQ.
  - destruct (Hk a HQ w1) as (evs' & Ht' & HF' & HQ'). exists (evs ++ evs')%list.
    rewrite Ht', Ht, app_assoc. split; [ reflexivity |].
    split; [ apply Forall_app; auto | exact HQ' ].
  - exists evs. simpl. auto.
Qed.

Lemma yields_try_catch {A} (P : event -> Prop) (Q : A -> Prop) (E' E : thrown -> Prop)
      (m : Eff A) (h : thrown -> Eff A) :
  yields P Q E' m -> (forall t, E' t -> yields P Q E (h t)) ->
  yields P Q E (try_catch m h).
Proof.
  intros Hm Hh w. unfold try_catch. destruct (Hm w) as (evs & Ht & HF & HQ).
  destruct (m w) as [[a|t] w1]; simpl in Ht, HQ.
  - exists evs. simpl. auto.
  - destruct (Hh t HQ w1) as (evs' & Ht' & HF' & HQ'). exists (evs ++ evs')%list.
    rewrite Ht', Ht, app_assoc. split; [ reflexivity |].
    split; [ apply Forall_app; auto | exact HQ' ].
Qed.

Lemma yields_any {A} (P : event -> Prop) (m : Eff A) :
  emits P m -> yields P (fun _ => True) (fun _ => True) m.
Proof.
  intros He. apply yields_intro; [ exact He |].
  intros w. destruct (fst (m w)); exact I.
Qed.

Lemma yields_throw_error {A} (P : event -> Prop) (Q : A -> Prop) (E : thrown -> Prop)
      (msg : string) :
  E (JsError msg) -> yields P Q E (throw_error msg).
Proof. intros H. apply yields_intro; [ apply emits_throw_error | now apply post_throw_error ]. Qed.

Lemma yields_ret {A} (P : event -> Prop) (Q : A -> Prop) (E : thrown -> Prop) (a : A) :
  Q a -> yields P Q E (ret a).
Proof. intros H. apply yields_intro; [ apply emits_ret | now apply post_ret ]. Qed.

Lemma yields_call {A} (P : event -> Prop) (Q : A -> Prop) (E : thrown -> Prop)
      (ev : event) (r : result A) :
  P ev -> match r with Ok a => Q a | Throw t => E t end -> yields P Q E (call ev r).
Proof. intros HP H. apply yields_intro; [ now apply emits_call | now apply post_call ]. Qed.

Lemma yields_weaken_throw {A} (P : event -> Prop) (Q : A -> Prop)
      (E E' : thrown -> Prop) (m : Eff A) :
  (forall t, E t -> E' t) -> yields P Q E m -> yields P Q E' m.
Proof.
  intros HE Hm w. destruct (Hm w) as (evs & Ht & HF & HQ). exists evs.
  split; [ exact Ht |]. split; [ exact HF |].
  destruct (fst (m w)); [ exact HQ | now apply HE ].
Qed.

End OutcomeRules.

Section ServiceMore.

Import Js Effects Spec ZgStorage ServiceSpec Outcome.

Variable e : env.

Lemma loadSDKFromCDN_emits : emits is_sdk_load (loadSDKFromCDN e).
Proof.
  unfold loadSDKFromCDN. apply emits_bind; [ apply emits_get_world |].
  intros w. destruct (sdk_on_window w); [ apply emits_ret |].
  destruct (cdn_script e).
  - apply emits_bind; [ now apply emits_call |]. intros _. apply emits_set_sdk_on_window.
  - now apply emits_call.
  - now apply emits_call.
Qed.

Lemma initializeSDK_emits : emits is_sdk_load (initializeSDK e).
Proof.
  unfold initializeSDK. apply emits_bind; [ apply emits_get_world |].
  intros w. destruct (indexer_set w); [ apply emits_ret |].
  apply emits_try_catch; [| intros t; apply emits_throw_error ].
  apply emits_bind; [ apply loadSDKFromCDN_emits |]. intros _.
  apply emits_bind; [ apply emits_lift |]. intros _. apply emits_set_indexer.
Qed.

Lemma initializeSDK_ready (w : world) :
  indexer_set w = true -> initializeSDK e w = (Ok tt, w).
Proof. intros H. unfold initializeSDK, bind, get_world. now rewrite H. Qed.

Lemma initializeSDK_sets (w : world) :
  match fst (initializeSDK e w) with
  | Ok _ => indexer_set (snd (initializeSDK e w)) = true
  | Throw _ => indexer_set (snd (initializeSDK e w)) = indexer_set w
  end.
Proof.
  unfold initializeSDK, loadSDKFromCDN, bind, get_world, try_catch, call, lift,
    set_sdk_on_window, set_indexer, throw_error, throw, ret.
  destruct (indexer_set w) eqn:Hi; [ exact Hi |].
  destruct (sdk_on_window w); [ destruct (new_Indexer e); simpl; auto |].
  destruct (cdn_script e); [ destruct (new_Indexer e) | |]; simpl; auto.
Qed.

Lemma first_finalized_run (ph : phase) (root : string) (nodes : list nat) (w : world) :
  first_finalized e ph root nodes w
  = (Ok (first_found e ph root nodes),
     log (map (fun node => EvGetFileInfo node root) (asked e ph root nodes)) w).
Proof.
  revert w. induction nodes as [|node rest IH]; intros w.
  - simpl. unfold ret. now rewrite log_nil.
  - cbn [first_finalized first_found asked]. unfold bind, attempt, call, finalized_info.
    destruct (getFileInfo e ph node root) as [[info|]|t].
    + destruct (finalized info); [ reflexivity |].
      rewrite IH, log_log. reflexivity.
    + rewrite IH, log_log. reflexivity.
    + rewrite IH, log_log. reflexivity.
Qed.

Lemma first_found_none (ph : phase) (root : string) (nodes : list nat) :
  first_found e ph root nodes = None
  <-> List.Forall (fun node => finalized_info e ph root node = None) nodes.
Proof.
  induction nodes as [|node rest IH]; cbn [first_found].
  - split; [ constructor | reflexivity ].
  - destruct (finalized_info e ph root node) as [info|] eqn:Hn.
    + split; [ discriminate |]. intros H. inversion H; congruence.
    + rewrite IH. split; [ now constructor |]. intros H. now inversion H.
Qed.

Lemma asked_all (ph : phase) (root : string) (nodes : list nat) :
  first_found e ph root nodes = None -> asked e ph root nodes = nodes.
Proof.
  induction nodes as [|node rest IH]; cbn [first_found asked]; [ reflexivity |].
  destruct (finalized_info e ph root node); [ discriminate |].
  intros H. now rewrite IH.
Qed.

Lemma first_found_split (ph : phase) (root : string) (nodes : list nat)
      (info : fileInfo) :
  first_found e ph root nodes = Some info ->
  exists before node after,
    nodes = (before ++ node :: after)%list
    /\ finalized_info e ph root node = Some info
    /\ List.Forall (fun n => finalized_info e ph root n = None) before
    /\ asked e ph root nodes = (before ++ [node])%list.
Proof.
  induction nodes as [|node rest IH]; cbn [first_found asked]; [ discriminate |].
  destruct (finalized_info e ph root node) as [found|] eqn:Hn.
  - intros [= <-]. exists [], node, rest. repeat split; auto.
  - intros H. destruct (IH H) as (before & n & after & -> & Hf & Hb & Ha).
    exists (node :: before), n, after. rewrite Ha. repeat split; auto.
Qed.

Lemma collect_shard_configs_run (nodes : list nat) (configs : list unit) (w : world) :
  collect_shard_configs e nodes configs w
  = (Ok (configs ++ map (fun _ => tt) (List.filter (answered e) nodes))%list,
     log (map EvGetShardConfig nodes) w).
Proof.
  revert configs w. induction nodes as [|node rest IH]; intros configs w.
  - simpl. unfold ret. now rewrite app_nil_r, log_nil.
  - cbn [collect_shard_configs List.filter map]. unfold bind, attempt, call, answered.
    destruct (getShardConfig e node) as [[]|t]; cbn [is_ok].
    + rewrite IH, log_log, <- app_assoc. reflexivity.
    + rewrite IH, log_log. reflexivity.
Qed.

End ServiceMore.

(** X9.  [initializeSDK] does its work once.  With the indexer in place it
    returns at once and changes nothing.  Otherwise it asks for the SDK
    script at most once, and not at all when the SDK is already on the page;
    when it returns the indexer is in place, so that a second call is a
    no-op; when it throws the indexer is still missing and the message is
    "Failed to initialize 0G Storage SDK: " followed by the message of the
    script loader or of the [Indexer] constructor. *)
Theorem initializeSDK_runs_once (e : ZgStorage.env) (w : Effects.world) :
  let r := fst (ZgStorage.initializeSDK e w) in
  let w' := snd (ZgStorage.initializeSDK e w) in
  (Effects.indexer_set w = true -> r = Js.Ok tt /\ w' = w)
  /\ (r = Js.Ok tt ->
      Effects.indexer_set w' = true
      /\ ZgStorage.initializeSDK e w' = (Js.Ok tt, w'))
  /\ (forall t, r = Js.Throw t ->
      Effects.indexer_set w' = false
      /\ exists cause,
           t = Js.JsError ("Failed to initialize 0G Storage SDK: " ++ cause)
           /\ (cause = "0G SDK failed to load from CDN"
               \/ cause = "Failed to load 0G SDK from CDN"
               \/ exists t', ZgStorage.new_Indexer e = Js.Throw t'
                             /\ cause = Js.message_of t'))
  /\ (exists evs,
        Effects.trace w' = (Effects.trace w ++ evs)%list
        /\ (evs = [] \/ evs = [Effects.EvSdkLoad])
        /\ (Effects.sdk_on_window w = true -> evs = []))
  /\ Effects.localStorage w' = Effects.localStorage w
  /\ Effects.downloadInfo w' = Effects.downloadInfo w.
Proof.
  cbv zeta.
  unfold ZgStorage.initializeSDK, ZgStorage.loadSDKFromCDN, Effects.bind,
    Effects.get_world, Effects.try_catch, Effects.call, Effects.lift,
    Effects.set_sdk_on_window, Effects.set_indexer, Effects.throw_error,
    Effects.throw, Effects.ret.
  destruct (Effects.indexer_set w) eqn:Hi;
    [| destruct (Effects.sdk_on_window w) eqn:Hs;
       [| destruct (ZgStorage.cdn_script e) ];
       try (destruct (ZgStorage.new_Indexer e) as [[]|t'] eqn:Hn) ];
    cbn [fst snd Effects.log Effects.indexer_set Effects.sdk_on_window
         Effects.trace Effects.localStorage Effects.downloadInfo];
    try rewrite Hi;
    (split; [ intros H; first [ discriminate H | split; reflexivity ] |]);
    (split; [ intros H; first [ discriminate H | split; reflexivity ] |]);
    (split;
     [ intros t H; first [ discriminate H | injection H as <- ];
       (split; [ try exact Hi; reflexivity |]);
       eexists; (split; [ reflexivity |]); eauto |]);
    (split; [| split; reflexivity ]).
  all: first
    [ exists []; rewrite app_nil_r; now auto
    | exists [Effects.EvSdkLoad]; split; [ reflexivity |];
      split; [ now right | discriminate ] ].
Qed.

(** X10.  The loop that looks for the file's info asks the nodes in the
    order of the indexer's list and stops at the first node that reports the
    file finalized; that node's info is the result.  Nodes that throw, return
    nothing or report the file not finalized are passed over.  The result is
    [null] exactly when no node of the list reports the file finalized, and
    then every node has been asked once. *)
Theorem first_finalized_rank_order (e : ZgStorage.env) (ph : ZgStorage.phase)
  (rootHash : string) (nodes : list nat) (w : Effects.world) :
  ZgStorage.first_finalized e ph rootHash nodes w
  = (Js.Ok (ServiceSpec.first_found e ph rootHash nodes),
     Effects.log (map (fun node => Effects.EvGetFileInfo node rootHash)
                      (ServiceSpec.asked e ph rootHash nodes)) w)
  /\ (forall info,
        ServiceSpec.first_found e ph rootHash nodes = Some info ->
        exists before node after,
          nodes = (before ++ node :: after)%list
          /\ ServiceSpec.finalized_info e ph rootHash node = Some info
          /\ List.Forall
               (fun n => ServiceSpec.finalized_info e ph rootHash n = None) before
          /\ ServiceSpec.asked e ph rootHash nodes = (before ++ [node])%list)
  /\ (ServiceSpec.first_found e ph rootHash nodes = None
      <-> List.Forall
            (fun n => ServiceSpec.finalized_info e ph rootHash n = None) nodes)
  /\ (ServiceSpec.first_found e ph rootHash nodes = None ->
      ServiceSpec.asked e ph rootHash nodes = nodes).
Proof.
  split; [ apply first_finalized_run |].
  split; [ intros info; apply first_found_split |].
  split; [ apply first_found_none | apply asked_all ].
Qed.

(** X11.  [getShardConfigs] asks every node once, in order, also after a
    node has answered, and never throws.  It returns [null] exactly when no
    node answered; otherwise it returns one config per node that answered. *)
Theorem getShardConfigs_asks_every_node (e : ZgStorage.env) (nodes : list nat)
  (w : Effects.world) :
  exists r,
    ZgStorage.getShardConfigs e nodes w
    = (Js.Ok r, Effects.log (map Effects.EvGetShardConfig nodes) w)
    /\ (r = None <-> List.Forall (fun n => ServiceSpec.answered e n = false) nodes)
    /\ (forall configs,
          r = Some configs ->
          List.length configs = List.length (List.filter (ServiceSpec.answered e) nodes)
          /\ (0 < List.length configs)%nat).
Proof.
  unfold ZgStorage.getShardConfigs, Effects.bind.
  rewrite collect_shard_configs_run. cbn [app]. unfold Effects.ret.
  eexists. split; [ reflexivity |].
  assert (Hnone : List.filter (ServiceSpec.answered e) nodes = []
                  <-> List.Forall (fun n => ServiceSpec.answered e n = false) nodes).
  { induction nodes as [|n rest IH]; cbn [List.filter].
    - split; [ constructor | reflexivity ].
    - destruct (ServiceSpec.answered e n) eqn:Hn.
      + split; [ discriminate |]. intros H. inversion H; congruence.
      + rewrite IH. split; [ now constructor |]. intros H. now inversion H. }
  destruct (List.filter (ServiceSpec.answered e) nodes) as [|n l] eqn:Hf; cbn [map].
  - split; [ split; [ intros _; now apply Hnone | reflexivity ] |]. discriminate.
  - split.
    + split; [ discriminate |]. intros H. apply Hnone in H. discriminate.
    + intros configs [= <-]. cbn [List.length]. rewrite length_map. lia.
Qed.

Section DownloadUnfinalized.

Import Js Effects Spec ZgStorage ServiceSpec Outcome.

Variables (e : env) (rootHash : string) (withProof : bool).

Hypothesis Hnone : forall node, finalized_info e InDownloadFile rootHash node = None.

Lemma nowhere_finalized (nodes : list nat) :
  first_found e InDownloadFile rootHash nodes = None.
Proof. apply first_found_none, List.Forall_forall. intros node _. apply Hnone. Qed.

Lemma first_finalized_finds_nothing (P : event -> Prop) (nodes : list nat) :
  (forall node, P (EvGetFileInfo node rootHash)) ->
  yields P (fun found => found = None) (fun _ => False)
         (first_finalized e InDownloadFile rootHash nodes).
Proof.
  intros HP. apply yields_intro; [ now apply first_finalized_emits |].
  intros w. rewrite first_finalized_run. apply nowhere_finalized.
Qed.

Lemma downloadFile_unfinalized :
  yields (fun ev => is_retrieval ev = false)
         (fun dr => exists msg, dr = download_failed msg)
         (fun _ => False)
         (downloadFile e rootHash withProof).
Proof.
  unfold downloadFile.
  apply yields_try_catch with (E' := fun _ => True);
    [| intros t _; apply yields_ret; eexists; reflexivity ].
  apply yields_bind with (Q' := fun _ => True).
  { apply yields_any. eapply emits_weaken; [| apply initializeSDK_emits ].
    now intros ev ->. }
  intros _ _. apply yields_bind with (Q' := fun _ => True).
  { apply yields_any, on_indexer_emits. now apply emits_call. }
  intros locations _. apply yields_bind with (Q' := fun _ => True).
  { apply yields_any, nonempty_locations_emits. }
  intros ls _. apply yields_bind with (Q' := fun found => found = None).
  { eapply yields_weaken_throw; [| now apply first_finalized_finds_nothing ].
    intros t []. }
  intros found ->. now apply yields_throw_error.
Qed.

End DownloadUnfinalized.

(** X12.  [downloadFile] fetches nothing of a file that no node reports
    finalized: whatever else happens, it resolves with [success = false] and
    no data, and it has made no [queryFile], [getShardConfig], [downloadTask]
    or [downloadSegmentByTxSeq] call.  On a service that is set up, with a
    non-empty list of locations, it has asked every node of the list for the
    file's info, once and in order, and the error is "File not found or not
    finalized". *)
Theorem downloadFile_needs_a_finalized_copy
  (e : ZgStorage.env) (rootHash : string) (withProof : bool) (w : Effects.world)
  (Hnone : forall node,
      ServiceSpec.finalized_info e ZgStorage.InDownloadFile rootHash node = None) :
  (exists msg evs,
     fst (ZgStorage.downloadFile e rootHash withProof w)
     = Js.Ok (ServiceSpec.download_failed msg)
     /\ Effects.trace (snd (ZgStorage.downloadFile e rootHash withProof w))
        = (Effects.trace w ++ evs)%list
     /\ List.Forall (fun ev => ServiceSpec.is_retrieval ev = false) evs)
  /\ (forall l ls,
        Effects.indexer_set w = true ->
        ZgStorage.getFileLocations e ZgStorage.InDownloadFile rootHash
        = Js.Ok (Some (l :: ls)) ->
        ZgStorage.downloadFile e rootHash withProof w
        = (Js.Ok (ServiceSpec.download_failed "File not found or not finalized"),
           Effects.log
             (Effects.EvGetFileLocations rootHash
              :: map (fun node => Effects.EvGetFileInfo node rootHash)
                     (seq 0 (S (List.length ls))))
             w)).
Proof.
  split.
  - destruct (downloadFile_unfinalized e rootHash withProof Hnone w) as (evs & Ht & HF & HQ).
    destruct (fst (ZgStorage.downloadFile e rootHash withProof w)) as [dr|t];
      [| contradiction ].
    destruct HQ as (msg & ->). exists msg, evs. auto.
  - intros l ls Hready Hloc.
    unfold ZgStorage.downloadFile, Effects.try_catch, Effects.bind.
    rewrite initializeSDK_ready by exact Hready.
    unfold ZgStorage.on_indexer, Effects.bind, Effects.get_world. rewrite Hready.
    unfold Effects.call. rewrite Hloc. cbn [ZgStorage.nonempty_locations Effects.ret].
    rewrite first_finalized_run, nowhere_finalized by exact Hnone.
    rewrite asked_all by (now apply nowhere_finalized).
    rewrite log_log. reflexivity.
Qed.

Lemma downloadFile_needs_a_finalized_copy_witness :
  ZgStorage.downloadFile Cases.pending "0xroot" true Cases.ready
  = (Js.Ok (ServiceSpec.download_failed "File not found or not finalized"),
     Effects.log [Effects.EvGetFileLocations "0xroot";
                  Effects.EvGetFileInfo 0 "0xroot";
                  Effects.EvGetFileInfo 1 "0xroot"] Cases.ready).
Proof.
  apply (proj2 (downloadFile_needs_a_finalized_copy
                  Cases.pending "0xroot" true Cases.ready
                  (fun node => eq_refl))
               "https://node-a" ["https://node-b"]); reflexivity.
Defined.

(** ** [uploadFile] and the wallet's network *)

Section UploadOffChain.

Import Js Effects Spec ZgStorage ServiceSpec UploadSpec.

Variables (e : env) (chainId : Z).
Hypothesis Hnet : getNetwork e = Ok chainId.
Hypothesis Hwrong : chainId <> 16602%Z.

Lemma upload_inner_off_chain (rootHash : option string) (w : world) :
  exists t evs,
    upload_inner e rootHash w = (Throw t, log evs w)
    /\ existsb is_submission evs = false
    /\ (existsb asks_network evs = true -> t = wrong_network chainId).
Proof.
  unfold upload_inner, bind, call, attempt.
  destruct (getAddress e 2) as [a2|t2].
  - rewrite Hnet.
    replace (negb (chainId =? 16602)%Z) with true
      by (symmetry; apply negb_true_iff, Z.eqb_neq, Hwrong).
    unfold throw_error, throw. rewrite !log_log. cbn [app].
    eexists _, _. split; [ reflexivity |]. split; [ reflexivity |].
    intros _. reflexivity.
  - exists t2, [EvRpc "getAddress"]. split; [ reflexivity |].
    split; [ reflexivity |]. discriminate.
Qed.

Lemma sdk_loads_only (evs : list event) :
  Forall is_sdk_load evs ->
  existsb is_submission evs = false /\ existsb asks_network evs = false.
Proof.
  induction 1 as [|ev evs Hev _ [IH1 IH2]]; [ auto |].
  rewrite Hev. cbn [existsb is_submission asks_network orb]. auto.
Qed.

Lemma uploadFile_off_chain (signer : bool) (w : world) :
  exists msg w',
    uploadFile e signer w = (Ok (upload_failed msg), w')
    /\ exists evs,
         trace w' = (trace w ++ evs)%list
         /\ existsb is_submission evs = false
         /\ (existsb asks_network evs = true -> msg = message_of (wrong_network chainId)).
Proof.
  destruct signer.
  2:{ exists "Wallet not connected", w. split; [ reflexivity |].
      exists []. rewrite app_nil_r. repeat split. discriminate. }
  unfold uploadFile, try_catch, bind. cbn [negb ret].
  destruct (initializeSDK_emits e w) as (evs0 & Ht0 & HF0).
  pose proof (initializeSDK_sets e w) as Hs.
  destruct (sdk_loads_only evs0 HF0) as [Hsub0 Hnet0].
  assert (Hleaf : forall (msg : string) (evs : list event) (w1 : world),
             trace w1 = (trace w ++ evs0)%list ->
             existsb is_submission evs = false ->
             (existsb asks_network evs = true -> msg = message_of (wrong_network chainId)) ->
             exists msg' w',
               (Ok (upload_failed msg), log evs w1) = (Ok (upload_failed msg'), w')
               /\ exists evs',
                    trace w' = (trace w ++ evs')%list
                    /\ existsb is_submission evs' = false
                    /\ (existsb asks_network evs' = true
                        -> msg' = message_of (wrong_network chainId))).
  { intros msg evs w1 Ht Hsub Hmsg. exists msg, (log evs w1). split; [ reflexivity |].
    exists (evs0 ++ evs)%list. rewrite trace_log, Ht, app_assoc.
    split; [ reflexivity |]. rewrite !existsb_app, Hsub0, Hnet0. auto. }
  destruct (initializeSDK e w) as [[[]|t0] w1]; cbn [fst snd] in *.
  2:{ rewrite <- (log_nil w1). apply Hleaf; auto. discriminate. }
  unfold call, lift.
  destruct (getAddress e 0) as [a0|t0];
    [| apply Hleaf; auto; discriminate ].
  rewrite (initializeSDK_ready e (log _ w1)) by exact Hs.
  destruct (new_Blob e) as [[]|t1];
    [| apply Hleaf; auto; discriminate ].
  destruct (merkleTree e) as [[rootHash [treeErr|]]|t2];
    [ apply Hleaf; auto; discriminate | | apply Hleaf; auto; discriminate ].
  destruct (getAddress e 1) as [a1|t1];
    [| rewrite log_log; apply Hleaf; auto; discriminate ].
  destruct (upload_inner_off_chain rootHash (log [EvRpc "getAddress"] (log [EvRpc "getAddress"] w1)))
    as (t & evs & -> & Hsub & Hmsg).
  unfold throw. rewrite !log_log. apply Hleaf; auto.
  cbn. intros H. now rewrite Hmsg.
Qed.
End UploadOffChain.

(** X13.  [uploadFile] submits nothing from a wallet on a chain other than
    16602.  Whatever else happens it resolves with [success = false], empty
    hashes and an error text, and [indexer.upload] has not been called; when
    the network was asked for, the error is "Wrong network! Expected chainId
    16602, got <chainId>".  Without a signer it makes no call at all. *)
Theorem uploadFile_refuses_other_chains
  (e : ZgStorage.env) (chainId : Z) (signer : bool) (w : Effects.world)
  (Hnet : ZgStorage.getNetwork e = Js.Ok chainId)
  (Hwrong : chainId <> 16602%Z) :
  (exists msg w',
     ZgStorage.uploadFile e signer w = (Js.Ok (ServiceSpec.upload_failed msg), w')
     /\ exists evs,
          Effects.trace w' = (Effects.trace w ++ evs)%list
          /\ existsb UploadSpec.is_submission evs = false
          /\ (existsb UploadSpec.asks_network evs = true ->
              msg = "Wrong network! Expected chainId 16602, got "
                    ++ ZgStorage.show chainId))
  /\ ZgStorage.uploadFile e false w
     = (Js.Ok (ServiceSpec.upload_failed "Wallet not connected"), w).
Proof.
  split; [| reflexivity ].
  exact (uploadFile_off_chain e chainId Hnet Hwrong signer w).
Qed.

Lemma uploadFile_refuses_other_chains_witness :
  ZgStorage.uploadFile (Cases.on_chain 1 (Scenarios.healthy [Byte.x01])) true
                       Cases.ready
  = (Js.Ok (ServiceSpec.upload_failed "Wrong network! Expected chainId 16602, got 1"),
     Effects.log [Effects.EvRpc "getAddress"; Effects.EvRpc "getAddress";
                  Effects.EvRpc "getAddress"; Effects.EvRpc "getAddress";
                  Effects.EvRpc "getNetwork"] Cases.ready).
Proof.
  destruct (uploadFile_refuses_other_chains
              (Cases.on_chain 1 (Scenarios.healthy [Byte.x01])) 1 true Cases.ready
              eq_refl ltac:(discriminate))
    as ((msg & w' & Hrun & _) & _).
  rewrite Hrun. vm_compute in Hrun. injection Hrun as <- <-. reflexivity.
Defined.

(** X14.  The chain [wagmi.ts] configures for the wallet, 16661 in one
    revision and 16601 in the other, is not the chain [uploadFile] accepts:
    from a wallet that reports the configured chain no upload is ever
    submitted, and an upload that gets as far as the network check fails with
    "Wrong network! Expected chainId 16602, got 16661" (or 16601). *)
Theorem configured_chain_is_refused
  (e : ZgStorage.env) (rev : Wagmi.revision) (signer : bool) (w : Effects.world)
  (Hnet : ZgStorage.getNetwork e = Js.Ok (Wagmi.zgChain_id rev)) :
  exists msg w',
    ZgStorage.uploadFile e signer w = (Js.Ok (ServiceSpec.upload_failed msg), w')
    /\ exists evs,
         Effects.trace w' = (Effects.trace w ++ evs)%list
         /\ existsb UploadSpec.is_submission evs = false
         /\ (existsb UploadSpec.asks_network evs = true ->
             msg = "Wrong network! Expected chainId 16602, got "
                   ++ match rev with
                      | Wagmi.Mainnet => "16661"
                      | Wagmi.Galileo => "16601"
                      end).
Proof.
  assert (Hwrong : Wagmi.zgChain_id rev <> 16602%Z) by (destruct rev; discriminate).
  destruct (uploadFile_off_chain e _ Hnet Hwrong signer w)
    as (msg & w' & Hrun & evs & Ht & Hsub & Hmsg).
  exists msg, w'. split; [ exact Hrun |]. exists evs.
  split; [ exact Ht |]. split; [ exact Hsub |].
  intros H. rewrite (Hmsg H). destruct rev; reflexivity.
Qed.

Lemma configured_chain_is_refused_witness :
  ZgStorage.uploadFile
    (Cases.on_chain (Wagmi.zgChain_id Wagmi.Mainnet) (Scenarios.healthy [Byte.x01]))
    true Cases.ready
  = (Js.Ok (ServiceSpec.upload_failed
              "Wrong network! Expected chainId 16602, got 16661"),
     Effects.log [Effects.EvRpc "getAddress"; Effects.EvRpc "getAddress";
                  Effects.EvRpc "getAddress"; Effects.EvRpc "getAddress";
                  Effects.EvRpc "getNetwork"] Cases.ready).
Proof.
  destruct (configured_chain_is_refused
              (Cases.on_chain (Wagmi.zgChain_id Wagmi.Mainnet)
                              (Scenarios.healthy [Byte.x01]))
              Wagmi.Mainnet true Cases.ready eq_refl)
    as (msg & w' & Hrun & _).
  rewrite Hrun. vm_compute in Hrun. injection Hrun as <- <-. reflexivity.
Defined.

(** ** Segment ranges *)

(** X15.  The chunk ranges the fallback asks for depend on the file's size
    alone.  Range [i] starts at chunk [1024 * i].  While that is inside the
    file the range is not empty, holds at most 1024 chunks and ends where the
    next one starts or at the file's last chunk, so that every chunk of the
    file lies in exactly one range, the one with index [chunk / 1024].  For
    an index past the file's last segment the range is empty or inverted:
    its end, the file's chunk count, is not above its start.  The request
    sent for index [i] carries exactly these bounds. *)
Theorem fallback_ranges_tile_the_file
  (e : ZgStorage.env) (node : nat) (t : ZgStorage.fileTx) (w : Effects.world)
  (Hsize : (1 <= ZgStorage.tx_size t)%Z) :
  let chunks := ZgStorage.numChunks (ZgStorage.tx_size t) in
  let first := fun i => fst (Kept.segment_bounds t i) in
  let last := fun i => snd (Kept.segment_bounds t i) in
  (forall i, first i = (1024 * Z.of_nat i)%Z)
  /\ (forall i, (first i < chunks)%Z ->
        (first i < last i <= chunks)%Z
        /\ (last i - first i <= 1024)%Z
        /\ (last i = first (S i) \/ last i = chunks))
  /\ (forall i, (chunks <= first i)%Z -> last i = chunks)
  /\ (forall c, (0 <= c < chunks)%Z ->
        forall i, (first i <= c < last i)%Z <-> i = Z.to_nat (c / 1024))
  /\ (forall i,
        snd (ZgStorage.fallback_segment e node t i w)
        = Effects.log
            [Effects.EvDownloadSegment node (ZgStorage.tx_seq t) (first i) (last i)] w).
Proof.
  intros chunks first last. unfold first, last, Kept.segment_bounds. cbn [fst snd].
  unfold ZgStorage.DEFAULT_SEGMENT_MAX_CHUNKS. fold chunks.
  assert (Hchunks : (1 <= chunks)%Z).
  { unfold chunks. rewrite numChunks_div. Z.div_mod_to_equations. lia. }
  split; [ intros i; lia |].
  split; [ intros i Hi; lia |].
  split; [ intros i Hi; lia |].
  split.
  - intros c Hc i. split.
    + intros Hin. assert (c / 1024 = Z.of_nat i)%Z; [| lia ].
      Z.div_mod_to_equations. lia.
    + intros ->. rewrite Z2Nat.id by (Z.div_mod_to_equations; lia).
      Z.div_mod_to_equations. lia.
  - intros i. unfold ZgStorage.fallback_segment, Effects.bind, Effects.call.
    unfold ZgStorage.DEFAULT_SEGMENT_MAX_CHUNKS. fold chunks.
    destruct (ZgStorage.downloadSegmentByTxSeq e node (ZgStorage.tx_seq t) _ _)
      as [segment|err]; [| reflexivity ].
    destruct (Js.truthy segment); [| reflexivity ].
    unfold Effects.lift.
    replace (Z.of_nat i * 1024)%Z with (1024 * Z.of_nat i)%Z by lia.
    reflexivity.
Qed.

Lemma fallback_ranges_tile_the_file_witness :
  Kept.segment_bounds Scenarios.tx_two_segments 0 = (0%Z, 1024%Z)
  /\ Kept.segment_bounds Scenarios.tx_two_segments 1 = (1024%Z, 1025%Z)
  /\ snd (Kept.segment_bounds Scenarios.tx_two_segments 2) = 1025%Z.
Proof.
  pose proof (fallback_ranges_tile_the_file
                (Scenarios.second_segment_lost false) 0 Scenarios.tx_two_segments
                Effects.fresh ltac:(cbn; lia)) as (_ & _ & Hpast & _).
  split; [ reflexivity |]. split; [ reflexivity |].
  apply (Hpast 2%nat). vm_compute. discriminate.
Defined.



(** ** What a successful upload has done *)

Section UploadDone.

Import Js Effects Spec ZgStorage ServiceSpec UploadSpec.

Variable e : env.

Lemma upload_inner_success (rootHash : option string) (ur : UploadResult) (w w' : world) :
  upload_inner e rootHash w = (Ok ur, w') ->
  getNetwork e = Ok 16602%Z
  /\ (exists resRoot resTx,
        indexer_upload e = Ok (Some (resRoot, resTx), None)
        /\ ur = {| up_success := true;
                   up_rootHash := or_else resRoot (or_else rootHash "");
                   up_txHash := or_else resTx "";
                   up_error := None |})
  /\ exists evs, w' = log (evs ++ [EvIndexerUpload]) w
                 /\ existsb is_submission evs = false.
Proof.
  unfold upload_inner, on_indexer, bind, call, attempt, try_catch, get_world,
    throw_error, throw, ret.
  destruct (getAddress e 2) as [a2|t2]; [| intros H; discriminate H ].
  destruct (getNetwork e) as [chainId|tn]; [| intros H; discriminate H ].
  destruct (Z.eqb_spec chainId 16602) as [->|Hne]; cbn [negb]; [| intros H; discriminate H ].
  destruct (getBlockNumber e) as [[]|tb]; [| intros H; discriminate H ].
  destruct (getFeeData e) as [[]|tf]; [| intros H; discriminate H ].
  destruct (getAddress e 4) as [a4|t4]; [| intros H; discriminate H ].
  destruct (getBalance e) as [bal|tb]; [| intros H; discriminate H ].
  cbn [indexer_set log].
  destruct (indexer_set w); [| intros H; discriminate H ].
  destruct (indexer_upload e) as [[[[resRoot resTx]|] [uploadErr|]]|tu];
    try (intros H; discriminate H).
  intros [= <- <-]. split; [ reflexivity |].
  split; [ eauto |].
  rewrite !log_log. cbn [app].
  eexists [_; _; _; _; _; _; _; _]. split; [ reflexivity | reflexivity ].
Qed.

Lemma uploadFile_success (signer : bool) (ur : UploadResult) (w w' : world) :
  uploadFile e signer w = (Ok ur, w') ->
  up_success ur = true ->
  signer = true
  /\ getNetwork e = Ok 16602%Z
  /\ (exists root resRoot resTx,
        merkleTree e = Ok (root, None)
        /\ indexer_upload e = Ok (Some (resRoot, resTx), None)
        /\ ur = {| up_success := true;
                   up_rootHash := or_else resRoot (or_else root "");
                   up_txHash := or_else resTx "";
                   up_error := None |})
  /\ exists evs, trace w' = (trace w ++ evs ++ [EvIndexerUpload])%list
                 /\ existsb is_submission evs = false.
Proof.
  destruct signer.
  2:{ intros [= <- <-]. discriminate. }
  unfold uploadFile, try_catch, bind. cbn [negb ret].
  destruct (initializeSDK_emits e w) as (evs0 & Ht0 & HF0).
  pose proof (initializeSDK_sets e w) as Hs.
  destruct (sdk_loads_only evs0 HF0) as [Hsub0 _].
  destruct (initializeSDK e w) as [[[]|t0] w1]; cbn [fst snd] in *.
  2:{ intros [= <- <-]. discriminate. }
  unfold call, lift.
  destruct (getAddress e 0) as [a0|t0]; [| intros [= <- <-]; discriminate ].
  rewrite (initializeSDK_ready e (log _ w1)) by exact Hs.
  destruct (new_Blob e) as [[]|t1]; [| intros [= <- <-]; discriminate ].
  destruct (merkleTree e) as [[root [treeErr|]]|t2];
    [ intros [= <- <-]; discriminate | | intros [= <- <-]; discriminate ].
  destruct (getAddress e 1) as [a1|t1]; [| intros [= <- <-]; discriminate ].
  destruct (upload_inner e root _) as [[ur'|t] w2] eqn:Hinner;
    [| intros [= <- <-]; discriminate ].
  intros [= <- <-] _.
  apply upload_inner_success in Hinner.
  destruct Hinner as (Hnet & (resRoot & resTx & Hup & ->) & evs & -> & Hsub).
  split; [ reflexivity |]. split; [ exact Hnet |].
  split; [ eauto 6 |].
  rewrite !log_log, trace_log, Ht0.
  exists (evs0 ++ [EvRpc "getAddress"; EvRpc "getAddress"] ++ evs)%list.
  split; [ now rewrite <- !app_assoc |].
  rewrite !existsb_app, Hsub0, Hsub. reflexivity.
Qed.
End UploadDone.

(** X17.  [uploadFile] reports success only when it was given a signer, the
    wallet is on chain 16602, the Merkle tree was built without error and
    [indexer.upload] returned a result and no error.  The root hash reported
    is the one [indexer.upload] returned, or else the root of the Merkle
    tree, or else the empty string; the transaction hash is the one returned,
    or else the empty string.  [indexer.upload] was called exactly once, as
    the last call. *)
Theorem upload_success_means_submitted
  (e : ZgStorage.env) (signer : bool) (w : Effects.world) (ur : ZgStorage.UploadResult)
  (Hrun : fst (ZgStorage.uploadFile e signer w) = Js.Ok ur)
  (Hok : ZgStorage.up_success ur = true) :
  signer = true
  /\ ZgStorage.getNetwork e = Js.Ok 16602%Z
  /\ (exists root resRoot resTx,
        ZgStorage.merkleTree e = Js.Ok (root, None)
        /\ ZgStorage.indexer_upload e = Js.Ok (Some (resRoot, resTx), None)
        /\ ur = {| ZgStorage.up_success := true;
                   ZgStorage.up_rootHash := Js.or_else resRoot (Js.or_else root "");
                   ZgStorage.up_txHash := Js.or_else resTx "";
                   ZgStorage.up_error := None |})
  /\ exists evs,
       Effects.trace (snd (ZgStorage.uploadFile e signer w))
       = (Effects.trace w ++ evs ++ [Effects.EvIndexerUpload])%list
       /\ existsb UploadSpec.is_submission evs = false.
Proof.
  destruct (ZgStorage.uploadFile e signer w) as [r w'] eqn:Hfull.
  cbn [fst snd] in *. subst r.
  exact (uploadFile_success e signer ur w w' Hfull Hok).
Qed.

Lemma upload_success_means_submitted_witness :
  ZgStorage.getNetwork (Scenarios.healthy [Byte.x01]) = Js.Ok 16602%Z
  /\ exists evs,
       Effects.trace (snd (ZgStorage.uploadFile (Scenarios.healthy [Byte.x01]) true
                                                Cases.ready))
       = (Effects.trace Cases.ready ++ evs ++ [Effects.EvIndexerUpload])%list
       /\ existsb UploadSpec.is_submission evs = false.
Proof.
  destruct (upload_success_means_submitted
              (Scenarios.healthy [Byte.x01]) true Cases.ready
              {| ZgStorage.up_success := true; ZgStorage.up_rootHash := "0xroot";
                 ZgStorage.up_txHash := "0xtx"; ZgStorage.up_error := None |}
              eq_refl eq_refl) as (_ & Hnet & _ & Hevs).
  split; [ exact Hnet | exact Hevs ].
Defined.

(** ** Connection status *)

Section StatusFacts.

Import Js Effects Spec ZgStorage ZgStatus.

Variables (s : ZgStatus.env) (e : ZgStorage.env).

Lemma initializeSDK_throws (w : world) (t : thrown) :
  fst (initializeSDK e w) = Throw t ->
  exists cause, t = JsError ("Failed to initialize 0G Storage SDK: " ++ cause).
Proof.
  unfold initializeSDK, loadSDKFromCDN, bind, get_world, try_catch, call, lift,
    set_sdk_on_window, set_indexer, throw_error, throw, ret.
  destruct (indexer_set w); [ discriminate |].
  destruct (sdk_on_window w); [| destruct (cdn_script e) ];
    try (destruct (new_Indexer e) as [[]|t']); cbn [fst];
    first [ discriminate | intros [= <-]; eauto ].
Qed.

Lemma getNetworkStatus_cases (w : world) :
  (fst (getNetworkStatus s e w) = Ok {| rpc := true; indexer := true |}
   /\ indexer_set (snd (getNetworkStatus s e w)) = true
   /\ new_JsonRpcProvider s = Ok tt
   /\ (exists blockNumber, provider_getBlockNumber s = Ok blockNumber)
   /\ getShardedNodes s = Ok (Some tt))
  \/ (exists cause,
        fst (getNetworkStatus s e w)
        = Throw (JsError ("Failed to initialize 0G Storage SDK: " ++ cause))).
Proof.
  unfold getNetworkStatus, on_indexer, try_catch, bind, lift, call, get_world,
    throw_error, throw, ret.
  destruct (new_JsonRpcProvider s) as [[]|t0]; [| right; eauto ].
  destruct (provider_getBlockNumber s) as [blockNumber|t1]; [| right; eauto ].
  pose proof (initializeSDK_sets e (log [EvRpc "getBlockNumber"] w)) as Hs.
  destruct (initializeSDK e (log [EvRpc "getBlockNumber"] w)) as [[[]|t2] w1];
    cbn [fst snd] in *; [| right; eauto ].
  rewrite Hs.
  destruct (getShardedNodes s) as [[[]|]|t3]; cbn [fst snd]; [| right; eauto ..].
  left. repeat split; eauto.
Qed.

Lemma getNetworkStatus_rpc_down (w : world) (t : thrown) :
  new_JsonRpcProvider s = Ok tt ->
  provider_getBlockNumber s = Throw t ->
  getNetworkStatus s e w
  = (Throw (JsError ("Failed to initialize 0G Storage SDK: " ++ message_of t)),
     log [EvRpc "getBlockNumber"] w).
Proof.
  intros Hp Hb. unfold getNetworkStatus, try_catch, bind, lift, call.
  now rewrite Hp, Hb.
Qed.

Lemma getNetworkStatus_sdk_down (w : world) (blockNumber : Z) (t : thrown) :
  new_JsonRpcProvider s = Ok tt ->
  provider_getBlockNumber s = Ok blockNumber ->
  fst (initializeSDK e (log [EvRpc "getBlockNumber"] w)) = Throw t ->
  exists cause,
    fst (getNetworkStatus s e w)
    = Throw (JsError ("Failed to initialize 0G Storage SDK: "
                      ++ "Failed to initialize 0G Storage SDK: " ++ cause)).
Proof.
  intros Hp Hb Hi. destruct (initializeSDK_throws _ _ Hi) as (cause & ->).
  exists cause. unfold getNetworkStatus, try_catch, bind, lift, call.
  rewrite Hp, Hb.
  destruct (initializeSDK e (log [EvRpc "getBlockNumber"] w)) as [r w1].
  cbn [fst] in Hi. now rewrite Hi.
Qed.

End StatusFacts.

(** X18.  [getNetworkStatus] is all or nothing: it resolves with both flags
    [true], after the chain gave a block number, the SDK was set up and the
    indexer listed its nodes, or it throws; it never resolves with a flag
    [false].  What it throws always reads "Failed to initialize 0G Storage
    SDK: " followed by the cause: for a failure of the chain's RPC too, which
    happens before the SDK is touched, and with the prefix twice when it is
    the set-up of the SDK that failed. *)
Theorem getNetworkStatus_all_or_nothing
  (s : ZgStatus.env) (e : ZgStorage.env) (w : Effects.world) :
  ((fst (ZgStatus.getNetworkStatus s e w)
    = Js.Ok {| ZgStatus.rpc := true; ZgStatus.indexer := true |}
    /\ Effects.indexer_set (snd (ZgStatus.getNetworkStatus s e w)) = true
    /\ ZgStatus.new_JsonRpcProvider s = Js.Ok tt
    /\ (exists blockNumber, ZgStatus.provider_getBlockNumber s = Js.Ok blockNumber)
    /\ ZgStatus.getShardedNodes s = Js.Ok (Some tt))
   \/ (exists cause,
         fst (ZgStatus.getNetworkStatus s e w)
         = Js.Throw (Js.JsError ("Failed to initialize 0G Storage SDK: " ++ cause))))
  /\ (forall t,
        ZgStatus.new_JsonRpcProvider s = Js.Ok tt ->
        ZgStatus.provider_getBlockNumber s = Js.Throw t ->
        ZgStatus.getNetworkStatus s e w
        = (Js.Throw (Js.JsError ("Failed to initialize 0G Storage SDK: "
                                 ++ Js.message_of t)),
           Effects.log [Effects.EvRpc "getBlockNumber"] w))
  /\ (forall blockNumber t,
        ZgStatus.new_JsonRpcProvider s = Js.Ok tt ->
        ZgStatus.provider_getBlockNumber s = Js.Ok blockNumber ->
        fst (ZgStorage.initializeSDK e (Effects.log [Effects.EvRpc "getBlockNumber"] w))
        = Js.Throw t ->
        exists cause,
          fst (ZgStatus.getNetworkStatus s e w)
          = Js.Throw (Js.JsError ("Failed to initialize 0G Storage SDK: "
                                  ++ "Failed to initialize 0G Storage SDK: " ++ cause))).
Proof.
  split; [ apply getNetworkStatus_cases |].
  split; [ intros t; apply getNetworkStatus_rpc_down |].
  intros blockNumber t. apply getNetworkStatus_sdk_down.
Qed.

(** X19.  [initializeZgStorage] never throws and always installs the
    service.  It ends connected, with no error, exactly when
    [getNetworkStatus] resolved; otherwise it ends disconnected with the
    message [getNetworkStatus] threw, which starts with "Failed to initialize
    0G Storage SDK: ".  The branch that reports "Failed to connect to 0G
    Storage" is never taken. *)
Theorem provider_connected_iff_status_resolved
  (s : ZgStatus.env) (e : ZgStorage.env) (st : Provider.state) (w : Effects.world) :
  exists st',
    fst (Provider.initializeZgStorage s e st w) = Js.Ok st'
    /\ snd (Provider.initializeZgStorage s e st w) = snd (ZgStatus.getNetworkStatus s e w)
    /\ Provider.zgStorage st' = true
    /\ (Provider.isConnected st' = true
        <-> Js.is_ok (fst (ZgStatus.getNetworkStatus s e w)) = true)
    /\ (Provider.isConnected st' = true <-> Provider.error st' = None)
    /\ (forall msg, Provider.error st' = Some msg ->
          exists cause, msg = "Failed to initialize 0G Storage SDK: " ++ cause)
    /\ Provider.error st' <> Some "Failed to connect to 0G Storage".
Proof.
  unfold Provider.initializeZgStorage, Effects.bind, Effects.attempt.
  destruct (getNetworkStatus_cases s e w) as [(Hok & _) | (cause & Hthrow)];
    destruct (ZgStatus.getNetworkStatus s e w) as [r w']; cbn [fst snd] in *; subst r;
    cbn; eexists; (split; [ reflexivity |]); (split; [ reflexivity |]); cbn.
  - repeat split; auto; discriminate.
  - split; [ reflexivity |].
    split; [ split; discriminate |].
    split; [ split; discriminate |].
    split; [ intros msg [= <-]; eauto | discriminate ].
Qed.

(** ** The hexadecimal form of a custom key *)

Section HexKeyFacts.

Import HexKey.

Lemma one_byte_check (P : Z -> bool) :
  forallb P one_byte_codes = true -> forall c, (0 <= c < 256)%Z -> P c = true.
Proof.
  intros H c Hc. rewrite forallb_forall in H. apply H.
  unfold one_byte_codes. apply in_map_iff. exists (Z.to_nat c).
  split; [ lia | apply in_seq; lia ].
Qed.

Lemma hex2_length (c : Z) : (0 <= c < 256)%Z -> String.length (hex2 c) = 2%nat.
Proof.
  intros Hc. apply Nat.eqb_eq. revert c Hc. apply (one_byte_check two_digits).
  vm_compute. reflexivity.
Qed.

Lemma hex2_injective (c d : Z) :
  (0 <= c < 256)%Z -> (0 <= d < 256)%Z -> hex2 c = hex2 d -> c = d.
Proof.
  intros Hc Hd E.
  assert (H : unlike_the_others c = true).
  { revert c Hc E. intros c Hc _. revert c Hc. apply one_byte_check.
    vm_compute. reflexivity. }
  unfold unlike_the_others in H.
  pose proof (one_byte_check _ H d Hd) as Hcd. cbv beta in Hcd.
  rewrite E, String.eqb_refl in Hcd. cbn [implb] in Hcd. now apply Z.eqb_eq.
Qed.

Lemma join_empty_cons (x : string) (l : list string) :
  Js.join "" (x :: l) = x ++ Js.join "" l.
Proof. destruct l; cbn [Js.join]; [ now rewrite append_nil_r_s | reflexivity ]. Qed.

Lemma hexKey_cons (c : Z) (codes : list Z) : hexKey (c :: codes) = hex2 c ++ hexKey codes.
Proof. unfold hexKey. cbn [map]. apply join_empty_cons. Qed.

Lemma hexKey_length (codes : list Z) :
  one_byte_each codes -> String.length (hexKey codes) = (2 * List.length codes)%nat.
Proof.
  induction 1 as [|c codes Hc _ IH]; [ reflexivity |].
  rewrite hexKey_cons, length_append_s, hex2_length, IH by exact Hc.
  cbn [List.length]. lia.
Qed.

Lemma append_same_length (a a' b b' : string) :
  String.length a = String.length a' -> a ++ b = a' ++ b' -> a = a' /\ b = b'.
Proof.
  revert a'. induction a as [|x a IH]; intros [|x' a'] Hlen E; try discriminate.
  - auto.
  - cbn in E. injection E as -> E. injection Hlen as Hlen.
    destruct (IH a' Hlen E) as [-> ->]. auto.
Qed.

Lemma hexKey_injective (a b : list Z) :
  one_byte_each a -> one_byte_each b -> hexKey a = hexKey b -> a = b.
Proof.
  intros Ha. revert b. induction Ha as [|c a Hc Ha IH]; intros b Hb E.
  - destruct Hb as [|d b Hd Hb]; [ reflexivity |].
    apply (f_equal String.length) in E.
    rewrite (hexKey_length (d :: b)) in E by now constructor.
    cbn in E. lia.
  - destruct Hb as [|d b Hd Hb].
    + apply (f_equal String.length) in E.
      rewrite (hexKey_length (c :: a)) in E by now constructor.
      cbn in E. lia.
    + rewrite !hexKey_cons in E.
      apply append_same_length in E; [| now rewrite !hex2_length ].
      destruct E as [Ecd E]. f_equal; [ now apply hex2_injective | now apply IH ].
Qed.

Lemma codes_of_one_byte (key : string) : one_byte_each (codes_of key).
Proof.
  unfold one_byte_each, codes_of. apply List.Forall_forall. intros c Hin.
  apply in_map_iff in Hin. destruct Hin as (ch & <- & _).
  unfold NodeCrypto.charCodeAt. pose proof (nat_ascii_bounded ch). lia.
Qed.

Lemma codes_of_injective (k1 k2 : string) : codes_of k1 = codes_of k2 -> k1 = k2.
Proof.
  revert k2. induction k1 as [|x k1 IH]; intros [|y k2] E; try discriminate.
  - reflexivity.
  - unfold codes_of in E. cbn [list_ascii_of_string map] in E.
    injection E as Exy E. f_equal; [| now apply IH ].
    unfold NodeCrypto.charCodeAt in Exy. apply Nat2Z.inj in Exy.
    rewrite <- (ascii_nat_embedding x), <- (ascii_nat_embedding y). now rewrite Exy.
Qed.

End HexKeyFacts.

(** X20.  The hexadecimal form the upload hook derives from a custom key
    has two digits per character and determines the key, as long as every
    character code is below 256: two such keys with the same hexadecimal form
    are the same key.  Beyond that range the conversion is ambiguous: the
    one-character key with code 4096 and the two-character key with codes 16
    and 0 both become "1000". *)
Theorem hexKey_determines_one_byte_keys (a b : list Z)
  (Ha : HexKey.one_byte_each a) (Hb : HexKey.one_byte_each b) :
  String.length (HexKey.hexKey a) = (2 * List.length a)%nat
  /\ (HexKey.hexKey a = HexKey.hexKey b -> a = b)
  /\ (forall k1 k2 : string,
        HexKey.hexKey (HexKey.codes_of k1) = HexKey.hexKey (HexKey.codes_of k2) ->
        k1 = k2)
  /\ HexKey.hexKey [4096%Z] = HexKey.hexKey [16%Z; 0%Z]
  /\ HexKey.hexKey (HexKey.codes_of "abc") = "616263".
Proof.
  split; [ now apply hexKey_length |].
  split; [ now apply hexKey_injective |].
  split; [| split; reflexivity ].
  intros k1 k2 E. apply codes_of_injective.
  apply hexKey_injective; [ apply codes_of_one_byte .. | exact E ].
Qed.

Lemma hexKey_determines_one_byte_keys_witness :
  String.length (HexKey.hexKey [10%Z; 255%Z]) = 4%nat.
Proof.
  apply (hexKey_determines_one_byte_keys [10%Z; 255%Z] []);
    unfold HexKey.one_byte_each; repeat constructor; lia.
Defined.

(** ** The upload hook *)

Section UploadHookFacts.

Import Js Effects Spec UploadTrace UploadHook.

Variables (e : UploadHook.env) (se : ZgStatus.env) (ze : ZgStorage.env)
          (pe : PinataStore.env) (f : file) (isEncrypted : bool)
          (customKey : option string).

Lemma upload_inner_emits (rootHash : option string) :
  emits is_service_call (ZgStorage.upload_inner ze rootHash).
Proof.
  unfold ZgStorage.upload_inner.
  apply emits_bind; [ now apply emits_call |]. intros _.
  apply emits_bind; [ apply emits_attempt; now apply emits_call |]. intros _.
  apply emits_bind; [ now apply emits_call |]. intros chainId.
  destruct (negb (chainId =? 16602)%Z); [ apply emits_throw_error |].
  apply emits_bind.
  { apply emits_try_catch; [| intros t; apply emits_throw_error ].
    apply emits_bind; [ now apply emits_call |]. intros _.
    apply emits_bind; [ now apply emits_call |]. intros _.
    apply emits_bind; [ now apply emits_call |]. intros _.
    apply emits_bind; [ now apply emits_call |]. intros _.
    apply emits_bind; [ apply emits_attempt; now apply emits_call |]. intros _.
    apply emits_ret. }
  intros _. apply emits_bind; [ apply on_indexer_emits; now apply emits_call |].
  intros [[[resRoot resTx]|] [uploadErr|]];
    first [ apply emits_throw_error | apply emits_ret ].
Qed.

Lemma sdk_load_is_service_call {A} (m : Eff A) :
  emits ServiceSpec.is_sdk_load m -> emits is_service_call m.
Proof. apply emits_weaken. now intros ev ->. Qed.

Lemma uploadFile_emits (signer : bool) :
  emits is_service_call (ZgStorage.uploadFile ze signer).
Proof.
  unfold ZgStorage.uploadFile.
  apply emits_try_catch; [| intros t; apply emits_ret ].
  apply emits_bind.
  { destruct (negb signer); [ apply emits_throw_error | apply emits_ret ]. }
  intros _. apply emits_bind; [ apply sdk_load_is_service_call, initializeSDK_emits |].
  intros _. apply emits_bind; [ now apply emits_call |].
  intros _. apply emits_bind; [ apply sdk_load_is_service_call, initializeSDK_emits |].
  intros _. apply emits_bind; [ apply emits_lift |].
  intros _. apply emits_bind; [ apply emits_lift |].
  intros [rootHash [treeErr|]]; [ apply emits_throw_error |].
  apply emits_bind; [ now apply emits_call |]. intros _.
  apply emits_try_catch; [ apply upload_inner_emits | intros t; apply emits_throw ].
Qed.

Lemma getNetworkStatus_emits :
  emits is_service_call (ZgStatus.getNetworkStatus se ze).
Proof.
  unfold ZgStatus.getNetworkStatus.
  apply emits_try_catch; [| intros t; apply emits_throw_error ].
  apply emits_bind; [ apply emits_lift |]. intros _.
  apply emits_bind; [ now apply emits_call |]. intros _.
  apply emits_bind; [ apply sdk_load_is_service_call, initializeSDK_emits |]. intros _.
  apply emits_bind; [ apply on_indexer_emits; now apply emits_call |].
  intros [[]|]; [ apply emits_ret | apply emits_throw_error ].
Qed.

Lemma checks_run (w : world) :
  snd (checks e f w) = w
  /\ (fst (checks e f w) = Ok tt
      <-> zgStorage_present e = true /\ truthy (address e) = true
          /\ isConnected e = true /\ (f_size f <= Config.maxFileSize)%Z).
Proof.
  unfold checks.
  destruct (zgStorage_present e), (truthy (address e)), (isConnected e);
    cbn [negb]; try (split; [ reflexivity | split; [ discriminate | intros (? & ? & ? & ?); discriminate ] ]).
  destruct (Z.ltb_spec Config.maxFileSize (f_size f)).
  - split; [ reflexivity |]. split; [ discriminate | intros (_ & _ & _ & ?); lia ].
  - split; [ reflexivity |]. split; [ intros _; repeat split; auto | reflexivity ].
Qed.

Lemma prepare_pure (w : world) : snd (prepare e isEncrypted customKey w) = w.
Proof.
  unfold prepare, bind, lift, ret.
  destruct isEncrypted; [ destruct (truthy customKey) |].
  - destruct (encryptFile e _) as [[i d]|t]; [| reflexivity ]. cbn [snd].
    destruct (atob e d); reflexivity.
  - destruct (generateKey e) as [k|t]; [| reflexivity ].
    destruct (encryptFile e k) as [[i d]|t]; [| reflexivity ]. cbn [snd].
    destruct (atob e d); reflexivity.
  - destruct (arrayBuffer e); reflexivity.
Qed.


Lemma upload_part_run (w : world) :
  exists evs,
    trace (snd (upload_part e se ze f isEncrypted customKey w)) = (trace w ++ evs)%list
    /\ Forall is_service_call evs
    /\ forall u,
         fst (upload_part e se ze f isEncrypted customKey w) = Ok u ->
         fst (checks e f w) = Ok tt
         /\ signer_present e = true
         /\ (exists fileData,
               fst (prepare e isEncrypted customKey w)
               = Ok (fileData, encryptionKey u, iv u))
         /\ ZgStorage.up_success (result_of_upload u) = true
         /\ (exists w1, ZgStorage.uploadFile ze true w1
                        = (Ok (result_of_upload u),
                           snd (upload_part e se ze f isEncrypted customKey w)))
         /\ exists evs', evs = (evs' ++ [EvIndexerUpload])%list.
Proof.
  unfold upload_part, bind.
  destruct (checks_run w) as [Hw _].
  destruct (checks e f w) as [[[]|t] w0]; cbn [fst snd] in *; subst w0.
  2:{ exists []. rewrite app_nil_r. split; [ reflexivity |]. split; [ constructor |].
      intros u H. discriminate H. }
  pose proof (prepare_pure w) as Hp.
  destruct (prepare e isEncrypted customKey w) as [[[[fileData key] i]|t] w0];
    cbn [fst snd] in *; subst w0.
  2:{ exists []. rewrite app_nil_r. split; [ reflexivity |]. split; [ constructor |].
      intros u H. discriminate H. }
  destruct (getNetworkStatus_emits w) as (evs1 & Ht1 & HF1).
  pose proof (getNetworkStatus_cases se ze w) as Hns.
  destruct (ZgStatus.getNetworkStatus se ze w) as [[ns|t] w1]; cbn [fst snd] in *.
  2:{ exists evs1. split; [ exact Ht1 |]. split; [ exact HF1 |].
      intros u H. discriminate H. }
  destruct Hns as [(Hns & _) | (cause & Hns)]; [| discriminate Hns ].
  injection Hns as ->. cbn [ZgStatus.rpc ZgStatus.indexer negb orb].
  destruct (signer_present e); cbn [negb].
  2:{ exists evs1. split; [ exact Ht1 |]. split; [ exact HF1 |].
      intros u H. discriminate H. }
  destruct (uploadFile_emits true w1) as (evs2 & Ht2 & HF2).
  destruct (ZgStorage.uploadFile ze true w1) as [[ur|t] w2] eqn:Hup; cbn [fst snd] in *.
  2:{ exists (evs1 ++ evs2)%list. rewrite Ht2, Ht1, app_assoc.
      split; [ reflexivity |]. split; [ apply Forall_app; auto |].
      intros u H. discriminate H. }
  destruct (ZgStorage.up_success ur) eqn:Hs; cbn [negb];
    unfold throw_error, throw, ret; cbn [fst snd].
  2:{ exists (evs1 ++ evs2)%list. rewrite Ht2, Ht1, app_assoc.
      split; [ reflexivity |]. split; [ apply Forall_app; auto |].
      intros u H. discriminate H. }
  exists (evs1 ++ evs2)%list. rewrite Ht2, Ht1, app_assoc.
  split; [ reflexivity |]. split; [ apply Forall_app; auto |].
  intros u [= <-]. cbn [result_of_upload encryptionKey iv].
  split; [ reflexivity |]. split; [ reflexivity |].
  split; [ eauto |]. split; [ exact Hs |]. split; [ eauto |].
  destruct (uploadFile_success ze true ur w1 w2 Hup Hs) as (_ & _ & _ & evs & Ht & _).
  rewrite Ht2 in Ht. apply app_inv_head in Ht. exists (evs1 ++ evs)%list.
  rewrite Ht. now rewrite app_assoc.
Qed.


Lemma share_part_run (u : uploaded) (w : world) :
  (PinataStore.pinata_configured pe = false ->
   share_part e pe f isEncrypted u w
   = (Throw (JsError "Pinata configuration missing"), w))
  /\ (PinataStore.pinata_configured pe = true ->
      snd (share_part e pe f isEncrypted u w) = log [PinataSpec.pin_event] w
      /\ forall info,
           fst (share_part e pe f isEncrypted u w) = Ok info ->
           info = UploadHookSpec.info_of e f isEncrypted u
           /\ exists resp,
                UploadHookSpec.pin_request e pe f isEncrypted u = Ok resp
                /\ PinataStore.ok resp = true).
Proof.
  unfold share_part, bind, UploadHookSpec.pin_request.
  destruct (storeMappingToIPFS_run pe (Pinata.generateRandomShareCode (random e))
              (ZgStorage.up_rootHash (result_of_upload u))
              (metadata_of e f isEncrypted u) w) as (Hoff & Hon & _).
  cbv zeta in Hoff, Hon.
  destruct (PinataStore.pinata_configured pe).
  - split; [ discriminate |]. intros _. destruct (Hon eq_refl) as [Hw Hr].
    destruct (PinataStore.storeMappingToIPFS pe _ _ _ w) as [[st|t] w1];
      cbn [fst snd] in *; subst w1.
    + split; [ reflexivity |]. intros info [= <-]. split; [ reflexivity |].
      destruct (PinataStore.pinJSONToIPFS pe _ _) as [resp|t]; [| discriminate Hr ].
      exists resp. split; [ reflexivity |].
      destruct (PinataStore.ok resp); [ reflexivity | discriminate Hr ].
    + split; [ reflexivity |]. intros info H. discriminate H.
  - split; [| discriminate ]. intros _. now rewrite (Hoff eq_refl).
Qed.


Lemma useFileUpload_trace (w : world) :
  exists evs,
    trace (snd (useFileUpload e se ze pe f isEncrypted customKey w))
    = (trace w ++ evs)%list
    /\ ((Forall is_service_call evs
         /\ exists t, fst (useFileUpload e se ze pe f isEncrypted customKey w) = Throw t)
        \/ exists evs',
             evs = (evs' ++ [EvIndexerUpload; PinataSpec.pin_event])%list
             /\ Forall is_service_call evs').
Proof.
  unfold useFileUpload, bind.
  destruct (upload_part_run w) as (evs & Ht & HF & Hok).
  destruct (upload_part e se ze f isEncrypted customKey w) as [[u|t] w1];
    cbn [fst snd] in *; [| eauto 6 ].
  destruct (Hok u eq_refl) as (_ & _ & _ & _ & _ & evs' & ->).
  apply Forall_app in HF. destruct HF as [HF _].
  destruct (share_part_run u w1) as [Hoff Hon].
  destruct (PinataStore.pinata_configured pe).
  - destruct (Hon eq_refl) as [Hw _]. rewrite Hw, trace_log, Ht.
    exists (evs' ++ [EvIndexerUpload; PinataSpec.pin_event])%list.
    split; [ now rewrite <- !app_assoc | eauto ].
  - rewrite (Hoff eq_refl). exists (evs' ++ [EvIndexerUpload])%list.
    split; [ exact Ht | left ]. split; [| eauto ].
    apply Forall_app. split; [ exact HF |]. repeat constructor.
Qed.

Lemma useFileUpload_success (w : world) (info : UploadedInfo) :
  fst (useFileUpload e se ze pe f isEncrypted customKey w) = Ok info ->
  exists u,
    fst (upload_part e se ze f isEncrypted customKey w) = Ok u
    /\ PinataStore.pinata_configured pe = true
    /\ info = UploadHookSpec.info_of e f isEncrypted u
    /\ exists resp,
         UploadHookSpec.pin_request e pe f isEncrypted u = Ok resp
         /\ PinataStore.ok resp = true.
Proof.
  unfold useFileUpload, bind.
  destruct (upload_part e se ze f isEncrypted customKey w) as [[u|t] w1];
    cbn [fst snd]; [| intros H; discriminate H ].
  intros Hrun. exists u. split; [ reflexivity |].
  destruct (share_part_run u w1) as [Hoff Hon].
  destruct (PinataStore.pinata_configured pe).
  - split; [ reflexivity |]. destruct (Hon eq_refl) as [_ Hinfo]. now apply Hinfo.
  - rewrite (Hoff eq_refl) in Hrun. discriminate Hrun.
Qed.

Lemma prepare_custom_key (w : world) (fileData : ZgStorage.bytes)
      (key i : option string) :
  isEncrypted = true -> truthy customKey = true ->
  fst (prepare e isEncrypted customKey w) = Ok (fileData, key, i) ->
  key = customKey
  /\ exists encryptedData,
       encryptFile e (HexKey.hexKey (HexKey.codes_of (or_else customKey "")))
       = Ok (i, encryptedData)
       /\ atob e encryptedData = Ok fileData.
Proof.
  intros Henc Hkey. unfold prepare, bind, lift, ret. rewrite Henc, Hkey.
  destruct (encryptFile e _) as [[i' d]|t]; [| intros H; discriminate H ].
  cbn [snd fst].
  destruct (atob e d) as [bytes|t] eqn:Hatob; [| intros H; discriminate H ].
  cbn [fst]. intros [= <- <- <-]. split; [| eauto ].
  destruct customKey as [k|]; [| discriminate Hkey ].
  cbn [or_else]. cbn [truthy] in Hkey. now rewrite Hkey.
Qed.

End UploadHookFacts.

(** X21.  Whatever the upload hook does, it sends at most one request to
    Pinata, as its very last call and directly after [indexer.upload]: a
    share code is recorded only for a file that has just been submitted.
    All other calls are calls of the storage service.  A run that sends no
    request to Pinata fails. *)
Theorem upload_hook_pins_last
  (e : UploadHook.env) (se : ZgStatus.env) (ze : ZgStorage.env)
  (pe : PinataStore.env) (f : UploadHook.file) (isEncrypted : bool)
  (customKey : option string) (w : Effects.world) :
  exists evs,
    Effects.trace (snd (UploadHook.useFileUpload e se ze pe f isEncrypted customKey w))
    = (Effects.trace w ++ evs)%list
    /\ ((List.Forall UploadTrace.is_service_call evs
         /\ exists t,
              fst (UploadHook.useFileUpload e se ze pe f isEncrypted customKey w)
              = Js.Throw t)
        \/ exists evs',
             evs = (evs' ++ [Effects.EvIndexerUpload; PinataSpec.pin_event])%list
             /\ List.Forall UploadTrace.is_service_call evs').
Proof. apply useFileUpload_trace. Qed.

(** X22.  When the upload hook succeeds, every check was passed: the service
    is present and connected, the wallet has an address and a signer, the
    file is within the size limit, the wallet is on chain 16602 and Pinata is
    configured.  The info it shows carries the root and transaction hashes
    [uploadFile] reported and a fresh share code, and Pinata has accepted a
    document with that code and that root hash. *)
Theorem upload_hook_success_means
  (e : UploadHook.env) (se : ZgStatus.env) (ze : ZgStorage.env)
  (pe : PinataStore.env) (f : UploadHook.file) (isEncrypted : bool)
  (customKey : option string) (w : Effects.world) (info : UploadHook.UploadedInfo)
  (Hrun : fst (UploadHook.useFileUpload e se ze pe f isEncrypted customKey w)
          = Js.Ok info) :
  (UploadHook.zgStorage_present e = true
   /\ Js.truthy (UploadHook.address e) = true
   /\ UploadHook.isConnected e = true
   /\ (UploadHook.f_size f <= Config.maxFileSize)%Z
   /\ UploadHook.signer_present e = true
   /\ ZgStorage.getNetwork ze = Js.Ok 16602%Z
   /\ PinataStore.pinata_configured pe = true)
  /\ exists (u : UploadHook.uploaded) (resp : PinataStore.response (option string)),
       info = UploadHookSpec.info_of e f isEncrypted u
       /\ ZgStorage.up_success (UploadHook.result_of_upload u) = true
       /\ UploadHookSpec.pin_request e pe f isEncrypted u = Js.Ok resp
       /\ PinataStore.ok resp = true
       /\ PinataStore.md_shareCode (UploadHookSpec.pinned_document e f isEncrypted u)
          = Some (UploadHook.ui_shareCode info)
       /\ PinataStore.md_rootHash (UploadHookSpec.pinned_document e f isEncrypted u)
          = Some (UploadHook.ui_rootHash info)
       /\ exists root resRoot resTx,
            ZgStorage.merkleTree ze = Js.Ok (root, None)
            /\ ZgStorage.indexer_upload ze = Js.Ok (Some (resRoot, resTx), None)
            /\ UploadHook.ui_rootHash info = Js.or_else resRoot (Js.or_else root "")
            /\ UploadHook.ui_txHash info = Js.or_else resTx "".
Proof.
  destruct (useFileUpload_success e se ze pe f isEncrypted customKey w info Hrun)
    as (u & Hu & Hpin & -> & resp & Hreq & Hresp).
  destruct (upload_part_run e se ze f isEncrypted customKey w) as (evs & _ & _ & Hok).
  destruct (Hok u Hu) as (Hchecks & Hsigner & _ & Hsuccess & (w1 & Hup) & _).
  destruct (uploadFile_success ze true _ w1 _ Hup Hsuccess)
    as (_ & Hnet & (root & resRoot & resTx & Htree & Hsub & Hur) & _).
  apply (proj2 (checks_run e f w)) in Hchecks.
  destruct Hchecks as (H1 & H2 & H3 & H4).
  split; [ auto 10 |].
  exists u, resp. split; [ reflexivity |]. split; [ exact Hsuccess |].
  split; [ exact Hreq |]. split; [ exact Hresp |].
  split; [ reflexivity |]. split; [ reflexivity |].
  exists root, resRoot, resTx. split; [ exact Htree |]. split; [ exact Hsub |].
  cbn [UploadHookSpec.info_of UploadHook.ui_rootHash UploadHook.ui_txHash].
  rewrite Hur. split; reflexivity.
Qed.

Lemma upload_hook_success_means_witness :
  ZgStorage.getNetwork (Scenarios.healthy [Byte.x01]) = Js.Ok 16602%Z
  /\ PinataStore.pinata_configured Scenarios.pinata_online = true.
Proof.
  assert (Hrun : exists info,
             fst (UploadHook.useFileUpload UploadCases.uploader UploadCases.chain_up
                    (Scenarios.healthy [Byte.x01]) Scenarios.pinata_online
                    UploadCases.report false None Effects.fresh) = Js.Ok info)
    by (vm_compute; eauto).
  destruct Hrun as (info & Hrun).
  destruct (upload_hook_success_means _ _ _ _ _ _ _ _ info Hrun)
    as ((_ & _ & _ & _ & _ & Hnet & Hpin) & _).
  split; [ exact Hnet | exact Hpin ].
Defined.

(** X23.  Pinata's credentials are looked up only after the file has been
    uploaded.  Without them the hook always fails and sends nothing to
    Pinata; when everything up to and including the upload went well, the
    file has been submitted and accepted, the hook throws "Pinata
    configuration missing", and no share code is handed out. *)
Theorem upload_without_pinata_is_lost
  (e : UploadHook.env) (se : ZgStatus.env) (ze : ZgStorage.env)
  (pe : PinataStore.env) (f : UploadHook.file) (isEncrypted : bool)
  (customKey : option string) (w : Effects.world)
  (Hpin : PinataStore.pinata_configured pe = false) :
  (exists t evs,
     fst (UploadHook.useFileUpload e se ze pe f isEncrypted customKey w) = Js.Throw t
     /\ Effects.trace (snd (UploadHook.useFileUpload e se ze pe f isEncrypted customKey w))
        = (Effects.trace w ++ evs)%list
     /\ List.Forall UploadTrace.is_service_call evs)
  /\ (forall u,
        fst (UploadHook.upload_part e se ze f isEncrypted customKey w) = Js.Ok u ->
        ZgStorage.up_success (UploadHook.result_of_upload u) = true
        /\ UploadHook.useFileUpload e se ze pe f isEncrypted customKey w
           = (Js.Throw (Js.JsError "Pinata configuration missing"),
              snd (UploadHook.upload_part e se ze f isEncrypted customKey w))
        /\ exists evs',
             Effects.trace
               (snd (UploadHook.useFileUpload e se ze pe f isEncrypted customKey w))
             = (Effects.trace w ++ evs' ++ [Effects.EvIndexerUpload])%list).
Proof.
  split.
  - destruct (useFileUpload_trace e se ze pe f isEncrypted customKey w)
      as (evs & Ht & [(HF & t & Hthrow) | (evs' & -> & HF)]).
    + exists t, evs. auto.
    + exfalso. revert Ht. unfold UploadHook.useFileUpload, Effects.bind.
      destruct (upload_part_run e se ze f isEncrypted customKey w)
        as (evs & Ht & HF' & _).
      destruct (UploadHook.upload_part e se ze f isEncrypted customKey w)
        as [[u|t] w1]; cbn [fst snd] in *.
      * rewrite (proj1 (share_part_run e pe f isEncrypted u w1) Hpin). cbn [snd].
        rewrite Ht. intros E. apply app_inv_head in E. subst evs.
        apply Forall_app in HF'. destruct HF' as [_ HF'].
        inversion HF' as [|? ? _ Hpinev]. inversion Hpinev as [|? ? Hbad _].
        exact Hbad.
      * rewrite Ht. intros E. apply app_inv_head in E. subst evs.
        apply Forall_app in HF'. destruct HF' as [_ HF'].
        inversion HF' as [|? ? _ Hpinev]. inversion Hpinev as [|? ? Hbad _].
        exact Hbad.
  - intros u Hu.
    destruct (upload_part_run e se ze f isEncrypted customKey w)
      as (evs & Ht & _ & Hok).
    destruct (Hok u Hu) as (_ & _ & _ & Hsuccess & _ & evs' & ->).
    split; [ exact Hsuccess |].
    unfold UploadHook.useFileUpload, Effects.bind.
    destruct (UploadHook.upload_part e se ze f isEncrypted customKey w)
      as [r w1]; cbn [fst snd] in *. subst r.
    rewrite (proj1 (share_part_run e pe f isEncrypted u w1) Hpin).
    split; [ reflexivity |]. exists evs'. exact Ht.
Qed.

Lemma upload_without_pinata_is_lost_witness :
  UploadHook.useFileUpload UploadCases.uploader UploadCases.chain_up
    (Scenarios.healthy [Byte.x01]) UploadCases.pinata_unconfigured
    UploadCases.report false None Effects.fresh
  = (Js.Throw (Js.JsError "Pinata configuration missing"),
     snd (UploadHook.upload_part UploadCases.uploader UploadCases.chain_up
            (Scenarios.healthy [Byte.x01]) UploadCases.report false None
            Effects.fresh)).
Proof.
  assert (Hu : exists u,
             fst (UploadHook.upload_part UploadCases.uploader UploadCases.chain_up
                    (Scenarios.healthy [Byte.x01]) UploadCases.report false None
                    Effects.fresh) = Js.Ok u)
    by (vm_compute; eauto).
  destruct Hu as (u & Hu).
  exact (proj1 (proj2 (proj2 (upload_without_pinata_is_lost
                                UploadCases.uploader UploadCases.chain_up
                                (Scenarios.healthy [Byte.x01])
                                UploadCases.pinata_unconfigured
                                UploadCases.report false None Effects.fresh
                                eq_refl) u Hu))).
Defined.

(** X24.  An upload encrypted under a custom key hands two forms of the key
    to two places.  The cipher receives the hexadecimal form of the key's
    characters.  The document pinned on IPFS carries the key itself, as
    typed, next to the IV the cipher returned, and the info shown to the
    user carries the same key. *)
Theorem custom_key_is_pinned_as_typed
  (e : UploadHook.env) (se : ZgStatus.env) (ze : ZgStorage.env)
  (pe : PinataStore.env) (f : UploadHook.file) (customKey : option string)
  (w : Effects.world) (info : UploadHook.UploadedInfo)
  (Hrun : fst (UploadHook.useFileUpload e se ze pe f true customKey w) = Js.Ok info)
  (Hkey : Js.truthy customKey = true) :
  UploadHook.ui_encryptionKey info = customKey
  /\ UploadHook.ui_isEncrypted info = true
  /\ exists (u : UploadHook.uploaded) (i : option string) (encryptedData : string)
            (resp : PinataStore.response (option string)),
       UploadHook.encryptFile e (HexKey.hexKey (HexKey.codes_of (Js.or_else customKey "")))
       = Js.Ok (i, encryptedData)
       /\ UploadHookSpec.pin_request e pe f true u = Js.Ok resp
       /\ PinataStore.ok resp = true
       /\ PinataStore.md_encryptionKey (UploadHookSpec.pinned_document e f true u)
          = customKey
       /\ PinataStore.md_iv (UploadHookSpec.pinned_document e f true u) = i
       /\ PinataStore.md_isEncrypted (UploadHookSpec.pinned_document e f true u)
          = Some true.
Proof.
  destruct (useFileUpload_success e se ze pe f true customKey w info Hrun)
    as (u & Hu & _ & -> & resp & Hreq & Hresp).
  destruct (upload_part_run e se ze f true customKey w) as (evs & _ & _ & Hok).
  destruct (Hok u Hu) as (_ & _ & (fileData & Hprep) & _).
  destruct (prepare_custom_key e true customKey w fileData _ _ eq_refl Hkey Hprep)
    as (Hk & encryptedData & Henc & _).
  split; [ exact Hk |]. split; [ reflexivity |].
  exists u, (UploadHook.iv u), encryptedData, resp.
  split; [ exact Henc |]. split; [ exact Hreq |]. split; [ exact Hresp |].
  split; [ exact Hk |]. split; reflexivity.
Qed.

Lemma custom_key_is_pinned_as_typed_witness :
  UploadHook.encryptFile UploadCases.uploader "616263" = Js.Ok (Some "00ff", "AQ==")
  /\ exists info,
       fst (UploadHook.useFileUpload UploadCases.uploader UploadCases.chain_up
              (Scenarios.healthy [Byte.x01]) Scenarios.pinata_online
              UploadCases.report true (Some "abc") Effects.fresh) = Js.Ok info
       /\ UploadHook.ui_encryptionKey info = Some "abc".
Proof.
  split; [ reflexivity |].
  assert (Hrun : exists info,
             fst (UploadHook.useFileUpload UploadCases.uploader UploadCases.chain_up
                    (Scenarios.healthy [Byte.x01]) Scenarios.pinata_online
                    UploadCases.report true (Some "abc") Effects.fresh) = Js.Ok info)
    by (vm_compute; eauto).
  destruct Hrun as (info & Hrun). exists info. split; [ exact Hrun |].
  exact (proj1 (custom_key_is_pinned_as_typed _ _ _ _ _ _ _ info Hrun eq_refl)).
Defined.

(** ** Downloads without decryption; the cache *)

Section NetworkOnly.

Import Js Effects Spec ZgStorage.

Variable e : env.

Abbreviation net := (fun ev => is_network ev = true).

Lemma initializeSDK_net : emits net (initializeSDK e).
Proof. eapply emits_weaken; [| apply initializeSDK_emits ]. now intros ev ->. Qed.

Lemma task_loop_net (chunks : Z) (withProof : bool) (tasks : list nat)
      (segments : list bytes) :
  emits net (task_loop e chunks withProof tasks segments).
Proof.
  intros w. rewrite task_loop_spec. eexists. split; [ reflexivity |].
  apply List.Forall_forall. intros ev Hin. apply in_map_iff in Hin.
  now destruct Hin as (i & <- & _).
Qed.

Lemma getShardConfigs_net (nodes : list nat) : emits net (getShardConfigs e nodes).
Proof.
  intros w. unfold getShardConfigs, bind. rewrite collect_shard_configs_run.
  eexists. split; [ reflexivity |].
  apply List.Forall_forall. intros ev Hin. apply in_map_iff in Hin.
  now destruct Hin as (i & <- & _).
Qed.

Lemma downloadFileDataFallback_net (root : string) (withProof : bool) :
  emits net (downloadFileDataFallback e root withProof).
Proof.
  unfold downloadFileDataFallback.
  apply emits_try_catch; [| intros t; apply emits_throw ].
  apply emits_bind; [ apply on_indexer_emits; now apply emits_call |].
  intros locations. apply emits_bind; [ apply nonempty_locations_emits |].
  intros ls. apply emits_bind; [ now apply first_finalized_emits |].
  intros [info|]; [| apply emits_throw_error ].
  destruct (tx info) as [t|]; [| apply emits_throw_error ].
  apply emits_bind; [| intros; apply combine_or_fail_emits ].
  eapply emits_weaken; [| apply fallback_loop_emits ].
  intros ev (s & a & b & ->). reflexivity.
Qed.

Lemma downloadFileData_net (root : string) (withProof : bool) :
  emits net (downloadFileData e root withProof).
Proof.
  unfold downloadFileData.
  apply emits_try_catch; [| intros _; apply downloadFileDataFallback_net ].
  unfold downloadFileData_primary.
  apply emits_bind; [ apply initializeSDK_net |]. intros _.
  apply emits_bind; [ apply on_indexer_emits; now apply emits_call |]. intros locations.
  apply emits_bind; [ apply nonempty_locations_emits |]. intros ls.
  apply emits_bind; [ now apply emits_call |].
  intros [[info|] [queryError|]]; try apply emits_throw_error.
  destruct (negb (finalized info)); [ apply emits_throw_error |].
  destruct (tx info) as [t|]; [| apply emits_throw_error ].
  apply emits_bind; [ apply getShardConfigs_net |].
  intros [configs|]; [| apply emits_throw_error ].
  apply emits_bind; [ apply task_loop_net | intros; apply combine_or_fail_emits ].
Qed.

Lemma downloadFile_net (root : string) (withProof : bool) :
  emits net (downloadFile e root withProof).
Proof.
  unfold downloadFile. apply emits_try_catch; [| intros t; apply emits_ret ].
  apply emits_bind; [ apply initializeSDK_net |]. intros _.
  apply emits_bind; [ apply on_indexer_emits; now apply emits_call |]. intros locations.
  apply emits_bind; [ apply nonempty_locations_emits |]. intros ls.
  apply emits_bind; [ now apply first_finalized_emits |].
  intros [info|]; [| apply emits_throw_error ].
  apply emits_bind; [ apply downloadFileData_net | intros; apply emits_ret ].
Qed.

End NetworkOnly.

(** X25.  A file whose record has no IV is handed out exactly as
    [downloadFile] delivered it.  The cipher is never called, also when a key
    was supplied: every call of the run is a network call of the storage
    service.  A reported failure is thrown as "Download failed: ...", missing
    data as "No data received from 0G Storage". *)
Theorem plain_download_skips_the_cipher
  (e : Hooks.env) (me : ZgStore.env) (ze : ZgStorage.env) (code : string)
  (key : option string) (mapping : ZgStore.MappingRecord) (w : Effects.world)
  (Hvalid : ZgMapping.validateShareCode code = true)
  (Hresolved : fst (ZgStore.getMappingFrom0G me code w) = Js.Ok mapping)
  (Hplain : Js.truthy (ZgStore.iv mapping) = false)
  (Hpresent : Hooks.zgStorage_present e = true)
  (Hconnected : Hooks.isConnected e = true) :
  exists (dr : ZgStorage.DownloadResult) (w2 : Effects.world),
    ZgStorage.downloadFile ze (ZgStore.rootHash mapping)
      (Hooks.enableProofVerification e) (Spec.displayed code key mapping w)
    = (Js.Ok dr, w2)
    /\ Hooks.useFileDownload e me ze code key w
       = (PlainSpec.after_plain_fetch code key mapping dr, w2)
    /\ exists evs,
         Effects.trace w2 = (Effects.trace w ++ evs)%list
         /\ List.Forall (fun ev => Effects.is_network ev = true) evs.
Proof.
  rewrite (hook_run e me ze code key mapping w Hvalid Hresolved).
  rewrite Hplain, Hpresent, Hconnected. cbn [andb negb].
  destruct (post_total _ _ (post_downloadFile ze (ZgStore.rootHash mapping)
                              (Hooks.enableProofVerification e))
                       (Spec.displayed code key mapping w))
    as (dr & w2 & Hrun & _).
  exists dr, w2. split; [ exact Hrun |]. split.
  - unfold Hooks.fetch_and_decrypt, PlainSpec.after_plain_fetch, Effects.bind.
    cbn [Hooks.pieceCid Hooks.metadata_of Hooks.isEncrypted]. rewrite Hrun, Hplain.
    cbn [andb].
    destruct (ZgStorage.success dr); [| reflexivity ]. cbn [negb].
    destruct (ZgStorage.data dr) as [received|]; reflexivity.
  - destruct (downloadFile_net ze (ZgStore.rootHash mapping)
                (Hooks.enableProofVerification e) (Spec.displayed code key mapping w))
      as (evs & Ht & HF).
    rewrite Hrun in Ht. exists evs. split; [ exact Ht | exact HF ].
Qed.

Lemma plain_download_skips_the_cipher_witness :
  fst (Hooks.useFileDownload Scenarios.connected
         (Scenarios.cache_of (Scenarios.record "0xroot" None))
         (Scenarios.healthy [Byte.x01]) Scenarios.code (Some "k") Scenarios.cached)
  = Js.Ok {| Hooks.dl_fileName := "report.pdf"; Hooks.dl_fileSize := 1;
             Hooks.dl_mimeType := "application/pdf"; Hooks.dl_data := [Byte.x01] |}.
Proof.
  destruct (plain_download_skips_the_cipher Scenarios.connected
              (Scenarios.cache_of (Scenarios.record "0xroot" None))
              (Scenarios.healthy [Byte.x01]) Scenarios.code (Some "k")
              (Scenarios.record "0xroot" None) Scenarios.cached
              eq_refl eq_refl eq_refl eq_refl eq_refl)
    as (dr & w2 & Hrun & Hhook & _).
  rewrite Hhook. vm_compute in Hrun. injection Hrun as <- _. reflexivity.
Defined.

(** X26.  The cache keeps one entry per share code and the entries do not
    interfere.  Saving a record under one code makes no call and leaves what
    any other code resolves to unchanged; only the entry of that code is
    written.  Saving again under the same code replaces the entry. *)
Theorem cache_entries_are_independent
  (me : ZgStore.env) (code other : string) (record again : ZgStore.MappingRecord)
  (w : Effects.world) (Hother : other <> code) :
  let w' := snd (ZgStore.saveMappingLocally me code record w) in
  fst (ZgStore.saveMappingLocally me code record w) = Js.Ok tt
  /\ Effects.trace w' = Effects.trace w
  /\ Effects.localStorage w' !! ZgStore.cache_key other
     = Effects.localStorage w !! ZgStore.cache_key other
  /\ Spec.cached_record me other w' = Spec.cached_record me other w
  /\ fst (ZgStore.getMappingFrom0G me other w')
     = fst (ZgStore.getMappingFrom0G me other w)
  /\ Effects.localStorage (snd (ZgStore.saveMappingLocally me code again w'))
     = Effects.localStorage (snd (ZgStore.saveMappingLocally me code again w)).
Proof.
  assert (Hkey : ZgStore.cache_key code <> ZgStore.cache_key other).
  { unfold ZgStore.cache_key. intros E. apply append_inv_head_s in E. congruence. }
  cbv zeta.
  unfold ZgStore.saveMappingLocally, Effects.try_catch, Effects.bind, Effects.get_world,
    Effects.set_localStorage, Effects.throw_error, Effects.throw, Effects.ret.
  destruct (ZgStore.storage_available me) eqn:Hav;
    [ destruct (ZgStore.setItem_throws me) eqn:Hth |]; cbn [fst snd];
    try (repeat split; reflexivity).
  assert (Hlookup : (<[ZgStore.cache_key code := ZgStore.JSON_stringify me record]>
                       (Effects.localStorage w)) !! ZgStore.cache_key other
                    = Effects.localStorage w !! ZgStore.cache_key other)
    by now apply lookup_insert_ne.
  split; [ reflexivity |]. split; [ reflexivity |].
  split; [ exact Hlookup |].
  assert (Hcached : forall w1 w2,
             Effects.localStorage w1 !! ZgStore.cache_key other
             = Effects.localStorage w2 !! ZgStore.cache_key other ->
             Spec.cached_record me other w1 = Spec.cached_record me other w2).
  { intros w1 w2 E. unfold Spec.cached_record. now rewrite E. }
  split; [ now apply Hcached |].
  split.
  - destruct (ZgMapping.validateShareCode other) eqn:Hv.
    + rewrite !getMappingFrom0G_run by exact Hv. cbn [fst].
      rewrite (Hcached _ w); [ reflexivity | exact Hlookup ].
    + rewrite !getMappingFrom0G_invalid by exact Hv. reflexivity.
  - cbn [Effects.localStorage]. apply insert_insert_eq.
Qed.

Lemma cache_entries_are_independent_witness :
  Spec.cached_record (Scenarios.cache_of (Scenarios.record "0xroot" None))
    Scenarios.code
    (snd (ZgStore.saveMappingLocally
            (Scenarios.cache_of (Scenarios.record "0xroot" None))
            "privshare://0g-zzzz-zzzz-zzzz-zzzz" (Scenarios.record "0xother" None)
            Scenarios.cached))
  = Spec.cached_record (Scenarios.cache_of (Scenarios.record "0xroot" None))
      Scenarios.code Scenarios.cached.
Proof.
  apply (cache_entries_are_independent
           (Scenarios.cache_of (Scenarios.record "0xroot" None))
           "privshare://0g-zzzz-zzzz-zzzz-zzzz" Scenarios.code
           (Scenarios.record "0xother" None) (Scenarios.record "0xother" None)
           Scenarios.cached).
  discriminate.
Defined.

(** ** Storing a record when the cache cannot be written *)

Section StorageFrame.

Import Js Effects Frame ZgStorage.

Lemma storage_ret {A} (a : A) : keeps_storage (ret a).
Proof. intros w. reflexivity. Qed.

Lemma storage_throw_error {A} (msg : string) : keeps_storage (@throw_error A msg).
Proof. intros w. reflexivity. Qed.

Lemma storage_throw {A} (t : thrown) : keeps_storage (@throw A t).
Proof. intros w. reflexivity. Qed.

Lemma storage_lift {A} (r : result A) : keeps_storage (lift r).
Proof. intros w. reflexivity. Qed.

Lemma storage_call {A} (ev : event) (r : result A) : keeps_storage (call ev r).
Proof. intros w. reflexivity. Qed.

Lemma storage_bind {A B} (m : Eff A) (k : A -> Eff B) :
  keeps_storage m -> (forall a, keeps_storage (k a)) -> keeps_storage (bind m k).
Proof.
  intros Hm Hk w. unfold bind. specialize (Hm w).
  destruct (m w) as [[a|t] w1]; simpl in *; [ now rewrite Hk | exact Hm ].
Qed.

Lemma storage_try_catch {A} (m : Eff A) (h : thrown -> Eff A) :
  keeps_storage m -> (forall t, keeps_storage (h t)) -> keeps_storage (try_catch m h).
Proof.
  intros Hm Hh w. unfold try_catch. specialize (Hm w).
  destruct (m w) as [[a|t] w1]; simpl in *; [ exact Hm | now rewrite Hh ].
Qed.

Lemma storage_attempt {A} (m : Eff A) : keeps_storage m -> keeps_storage (attempt m).
Proof. intros Hm w. unfold attempt. specialize (Hm w). now destruct (m w). Qed.

Variable e : env.

Lemma storage_initializeSDK : keeps_storage (initializeSDK e).
Proof.
  unfold initializeSDK. apply storage_bind; [ intros w; reflexivity |].
  intros w. destruct (indexer_set w); [ apply storage_ret |].
  apply storage_try_catch; [| intros t; apply storage_throw_error ].
  apply storage_bind; [| intros _; apply storage_bind;
                         [ apply storage_lift | intros _ w'; reflexivity ] ].
  unfold loadSDKFromCDN. apply storage_bind; [ intros w'; reflexivity |].
  intros w'. destruct (sdk_on_window w'); [ apply storage_ret |].
  destruct (cdn_script e); try apply storage_call.
  apply storage_bind; [ apply storage_call | intros _ w''; reflexivity ].
Qed.

Lemma storage_on_indexer {A} (m : Eff A) : keeps_storage m -> keeps_storage (on_indexer m).
Proof.
  intros Hm. unfold on_indexer. apply storage_bind; [ intros w; reflexivity |].
  intros w. destruct (indexer_set w); [ exact Hm | apply storage_throw_error ].
Qed.

Lemma storage_upload_inner (rootHash : option string) :
  keeps_storage (upload_inner e rootHash).
Proof.
  unfold upload_inner.
  apply storage_bind; [ apply storage_call |]. intros _.
  apply storage_bind; [ apply storage_attempt, storage_call |]. intros _.
  apply storage_bind; [ apply storage_call |]. intros chainId.
  destruct (negb (chainId =? 16602)%Z); [ apply storage_throw_error |].
  apply storage_bind.
  { apply storage_try_catch; [| intros t; apply storage_throw_error ].
    apply storage_bind; [ apply storage_call |]. intros _.
    apply storage_bind; [ apply storage_call |]. intros _.
    apply storage_bind; [ apply storage_call |]. intros _.
    apply storage_bind; [ apply storage_call |]. intros _.
    apply storage_bind; [ apply storage_attempt, storage_call |]. intros _.
    apply storage_ret. }
  intros _. apply storage_bind; [ apply storage_on_indexer, storage_call |].
  intros [[[resRoot resTx]|] [uploadErr|]];
    first [ apply storage_throw_error | apply storage_ret ].
Qed.

Lemma storage_uploadFile (signer : bool) : keeps_storage (uploadFile e signer).
Proof.
  unfold uploadFile.
  apply storage_try_catch; [| intros t; apply storage_ret ].
  apply storage_bind.
  { destruct (negb signer); [ apply storage_throw_error | apply storage_ret ]. }
  intros _. apply storage_bind; [ apply storage_initializeSDK |].
  intros _. apply storage_bind; [ apply storage_call |].
  intros _. apply storage_bind; [ apply storage_initializeSDK |].
  intros _. apply storage_bind; [ apply storage_lift |].
  intros _. apply storage_bind; [ apply storage_lift |].
  intros [rootHash [treeErr|]]; [ apply storage_throw_error |].
  apply storage_bind; [ apply storage_call |]. intros _.
  apply storage_try_catch; [ apply storage_upload_inner | intros t; apply storage_throw ].
Qed.

End StorageFrame.

(** X27.  When [localStorage] is missing or [setItem] throws,
    [storeMappingTo0G] still resolves as if nothing had happened: it returns
    the upload's hashes, and [localStorage] is as it was before the call, for
    [uploadFile] never touches it.  The code then resolves to what it
    resolved to before; with no earlier entry, [getMappingFrom0G] throws
    "Mapping record not found." *)
Theorem store_without_cache_is_silent
  (me : ZgStore.env) (ze : ZgStorage.env) (code : string)
  (record : ZgStore.MappingRecord) (signer : bool) (w : Effects.world)
  (Hvalid : ZgMapping.validateShareCode code = true)
  (Hcache : ZgStore.storage_available me = false \/ ZgStore.setItem_throws me = true) :
  exists (ur : ZgStorage.UploadResult) (w1 : Effects.world),
    ZgStorage.uploadFile ze signer w = (Js.Ok ur, w1)
    /\ ZgStore.storeMappingTo0G me ze code record signer w
       = (Js.Ok {| ZgStore.st_rootHash := Some (ZgStorage.up_rootHash ur);
                   ZgStore.st_txHash := Some (ZgStorage.up_txHash ur) |}, w1)
    /\ Effects.localStorage w1 = Effects.localStorage w
    /\ fst (ZgStore.getMappingFrom0G me code w1) = fst (ZgStore.getMappingFrom0G me code w)
    /\ (Effects.localStorage w !! ZgStore.cache_key code = None ->
        fst (ZgStore.getMappingFrom0G me code w1)
        = Js.Throw (Js.JsError "Mapping record not found.")).
Proof.
  destruct (post_total _ _ (post_uploadFile ze signer) w) as (ur & w1 & Hup & _).
  pose proof (storage_uploadFile ze signer w) as Hls. rewrite Hup in Hls. cbn [snd] in Hls.
  exists ur, w1. split; [ exact Hup |].
  split.
  { unfold ZgStore.storeMappingTo0G. rewrite Hvalid. cbn [negb].
    unfold ZgStore.extractCodeFromShareCode. rewrite Hvalid. cbn [negb].
    unfold Effects.bind at 1. cbn [Effects.lift].
    unfold Effects.bind at 1. rewrite Hup.
    unfold Effects.bind at 1.
    unfold ZgStore.saveMappingLocally, Effects.try_catch.
    destruct Hcache as [Hoff | Hthrows].
    - rewrite Hoff. reflexivity.
    - rewrite Hthrows. destruct (ZgStore.storage_available me); reflexivity. }
  split; [ exact Hls |].
  rewrite !getMappingFrom0G_run by exact Hvalid. cbn [fst].
  assert (E : Spec.cached_record me code w1 = Spec.cached_record me code w).
  { unfold Spec.cached_record. now rewrite Hls. }
  split; [ now rewrite E |].
  intros Hnone. rewrite E. unfold Spec.cached_record. rewrite Hnone.
  destruct (ZgStore.storage_available me); reflexivity.
Qed.

Lemma store_without_cache_is_silent_witness :
  fst (ZgStore.storeMappingTo0G StoreCases.no_storage (Scenarios.healthy [Byte.x01])
         Scenarios.code (Scenarios.record "0xroot" None) true Cases.ready)
  = Js.Ok {| ZgStore.st_rootHash := Some "0xroot"; ZgStore.st_txHash := Some "0xtx" |}.
Proof.
  destruct (store_without_cache_is_silent StoreCases.no_storage
              (Scenarios.healthy [Byte.x01]) Scenarios.code
              (Scenarios.record "0xroot" None) true Cases.ready
              eq_refl (or_introl eq_refl))
    as (ur & w1 & Hup & Hstore & _).
  rewrite Hstore. vm_compute in Hup. injection Hup as <- _. reflexivity.
Defined.

(** ** Every valid code is a possible draw *)

Section ReachFacts.

Import Reach.

Lemma position_draw (c : ascii) :
  Grammar.lower_alnum c = true ->
  Js.index_text ZgMapping.SHARE_CODE_ALPHABET
    (Js.floor_mul (Z.of_nat (position c ZgMapping.SHARE_CODE_ALPHABET) # 36)
                  (String.length ZgMapping.SHARE_CODE_ALPHABET))
  = String c ""
  /\ (position c ZgMapping.SHARE_CODE_ALPHABET < 36)%nat
  /\ Ascii.eqb c "-" = false.
Proof.
  destruct c as [b0 b1 b2 b3 b4 b5 b6 b7].
  destruct b0, b1, b2, b3, b4, b5, b6, b7; intros H;
    first [ discriminate H | vm_compute; repeat split; lia ].
Qed.


Lemma draws_in_unit (chars : list ascii) (k : nat) :
  List.Forall (fun c => Grammar.lower_alnum c = true) chars ->
  (0 <= draws_for chars k)%Q /\ (draws_for chars k < 1)%Q.
Proof.
  intros Hall. unfold draws_for.
  assert (Hc : Grammar.lower_alnum (nth k chars "a"%char) = true).
  { destruct (Nat.lt_ge_cases k (List.length chars)) as [Hk|Hk].
    - rewrite List.Forall_forall in Hall. apply Hall, nth_In, Hk.
    - rewrite nth_overflow by exact Hk. reflexivity. }
  destruct (position_draw _ Hc) as (_ & Hpos & _).
  unfold Qle, Qlt. cbn [Qnum Qden]. lia.
Qed.

Lemma draw_char (chars : list ascii) (k : nat) (c : ascii) :
  nth k chars "a"%char = c -> Grammar.lower_alnum c = true ->
  Js.index_text ZgMapping.SHARE_CODE_ALPHABET
    (Js.floor_mul (draws_for chars k) (String.length ZgMapping.SHARE_CODE_ALPHABET))
  = String c "".
Proof. intros <- H. exact (proj1 (position_draw _ H)). Qed.

Lemma group_of_letters (chars : list ascii) (k : nat) (c0 c1 c2 c3 : ascii) :
  nth k chars "a"%char = c0 -> nth (S k) chars "a"%char = c1 ->
  nth (S (S k)) chars "a"%char = c2 -> nth (S (S (S k))) chars "a"%char = c3 ->
  Grammar.lower_alnum c0 = true -> Grammar.lower_alnum c1 = true ->
  Grammar.lower_alnum c2 = true -> Grammar.lower_alnum c3 = true ->
  ZgMapping.randomGroup (draws_for chars) k
  = (String c0 (String c1 (String c2 (String c3 ""))), (4 + k)%nat).
Proof.
  intros E0 E1 E2 E3 A0 A1 A2 A3. rewrite randomGroup_explicit.
  rewrite (draw_char chars k c0 E0 A0), (draw_char chars (S k) c1 E1 A1),
    (draw_char chars (S (S k)) c2 E2 A2), (draw_char chars (S (S (S k))) c3 E3 A3).
  reflexivity.
Qed.

Lemma code_of_letters (c0 c1 c2 c3 c4 c5 c6 c7 c8 c9 c10 c11 c12 c13 c14 c15 : ascii) :
  let chars := [c0; c1; c2; c3; c4; c5; c6; c7; c8; c9; c10; c11; c12; c13; c14; c15] in
  List.Forall (fun c => Grammar.lower_alnum c = true) chars ->
  ZgMapping.generateShareCode (draws_for chars)
  = Grammar.prefix
    ++ String c0 (String c1 (String c2 (String c3 (String "-" (String c4
      (String c5 (String c6 (String c7 (String "-" (String c8 (String
      c9 (String c10 (String c11 (String "-" (String c12 (String c13
      (String c14 (String c15 "")))))))))))))))))).
Proof.
  intros chars Hall. unfold chars in Hall.
  repeat match goal with
         | H : List.Forall _ (_ :: _) |- _ => inversion_clear H
         end.
  unfold ZgMapping.generateShareCode, ZgMapping.SHARE_CODE_BODY_GROUPS.
  cbn [ZgMapping.groups_from].
  rewrite (group_of_letters chars 0 c0 c1 c2 c3) by (reflexivity || assumption).
  cbn [Nat.add].
  rewrite (group_of_letters chars 4 c4 c5 c6 c7) by (reflexivity || assumption).
  cbn [Nat.add].
  rewrite (group_of_letters chars 8 c8 c9 c10 c11) by (reflexivity || assumption).
  cbn [Nat.add].
  rewrite (group_of_letters chars 12 c12 c13 c14 c15) by (reflexivity || assumption).
  reflexivity.
Qed.

Lemma keep_letter (c : ascii) (l : list ascii) :
  Grammar.lower_alnum c = true ->
  List.filter (fun c => negb (Ascii.eqb c "-")) (c :: l)
  = c :: List.filter (fun c => negb (Ascii.eqb c "-")) l.
Proof.
  intros H. cbn [List.filter]. now rewrite (proj2 (proj2 (position_draw c H))).
Qed.

Lemma drop_dash (l : list ascii) :
  List.filter (fun c => negb (Ascii.eqb c "-")) ("-"%char :: l)
  = List.filter (fun c => negb (Ascii.eqb c "-")) l.
Proof. reflexivity. Qed.

Lemma letters_of_code (c0 c1 c2 c3 c4 c5 c6 c7 c8 c9 c10 c11 c12 c13 c14 c15 : ascii) :
  let chars := [c0; c1; c2; c3; c4; c5; c6; c7; c8; c9; c10; c11; c12; c13; c14; c15] in
  List.Forall (fun c => Grammar.lower_alnum c = true) chars ->
  letters (Grammar.prefix
    ++ String c0 (String c1 (String c2 (String c3 (String "-" (String c4
      (String c5 (String c6 (String c7 (String "-" (String c8 (String
      c9 (String c10 (String c11 (String "-" (String c12 (String c13
      (String c14 (String c15 "")))))))))))))))))))
  = chars.
Proof.
  intros chars Hall. unfold chars in *. clear chars. unfold letters.
  change ZgMapping.SHARE_CODE_PREFIX with Grammar.prefix.
  rewrite replace_first_prefix.
  repeat match goal with
         | H : List.Forall _ (_ :: _) |- _ => inversion_clear H
         end.
  cbn [list_ascii_of_string].
  repeat first [ rewrite drop_dash | rewrite keep_letter by assumption ].
  reflexivity.
Qed.

End ReachFacts.

(** X28.  The generators reach every valid share code: for a code that
    [validateShareCode] accepts there are values of [Math.random()], all in
    [[0, 1)], on which [generateShareCode] and [generateRandomShareCode]
    return exactly that code.  With the fact that generated codes validate,
    the codes that can be generated are exactly the codes that validate. *)
Theorem every_valid_code_can_be_drawn (code : string)
  (Hvalid : ZgMapping.validateShareCode code = true) :
  let rnd := Reach.draws_for (Reach.letters code) in
  (forall k, (0 <= rnd k)%Q /\ (rnd k < 1)%Q)
  /\ ZgMapping.generateShareCode rnd = code
  /\ Pinata.generateRandomShareCode rnd = code
  /\ List.length (Reach.letters code) = 16%nat.
Proof.
  apply zg_validate_iff, well_formed_iff in Hvalid.
  destruct Hvalid as (g1 & g2 & g3 & g4 & G1 & G2 & G3 & G4 & ->).
  destruct (is_group_chars g1 G1) as (c0 & c1 & c2 & c3 & -> & A0 & A1 & A2 & A3).
  destruct (is_group_chars g2 G2) as (c4 & c5 & c6 & c7 & -> & A4 & A5 & A6 & A7).
  destruct (is_group_chars g3 G3) as (c8 & c9 & c10 & c11 & -> & A8 & A9 & A10 & A11).
  destruct (is_group_chars g4 G4) as (c12 & c13 & c14 & c15 & -> & A12 & A13 & A14 & A15).
  assert (Hall : List.Forall (fun c => Grammar.lower_alnum c = true)
                   [c0; c1; c2; c3; c4; c5; c6; c7; c8; c9; c10; c11; c12; c13; c14; c15])
    by (repeat constructor; assumption).
  cbv zeta. cbn [append].
  rewrite (letters_of_code _ _ _ _ _ _ _ _ _ _ _ _ _ _ _ _ Hall).
  assert (Hunit : forall k,
             (0 <= Reach.draws_for
                     [c0; c1; c2; c3; c4; c5; c6; c7; c8; c9; c10; c11; c12; c13; c14; c15]
                     k)%Q
             /\ (Reach.draws_for
                   [c0; c1; c2; c3; c4; c5; c6; c7; c8; c9; c10; c11; c12; c13; c14; c15]
                   k < 1)%Q)
    by (intros k; now apply draws_in_unit).
  split; [ exact Hunit |].
  split; [ now apply code_of_letters |].
  split; [| reflexivity ].
  rewrite (generators_agree _ Hunit). now apply code_of_letters.
Qed.

Lemma every_valid_code_can_be_drawn_witness :
  ZgMapping.generateShareCode (Reach.draws_for (Reach.letters Scenarios.code))
  = Scenarios.code.
Proof.
  exact (proj1 (proj2 (every_valid_code_can_be_drawn Scenarios.code eq_refl))).
Defined.

(** ** The blob download; the hooks behind a disconnected provider *)

(** X29.  [downloadFileAsBlob] never throws and makes the calls of
    [downloadFile] and no other.  It returns the bytes [downloadFile]
    delivered when that reported success, and [null] exactly when it reported
    failure; the error text is dropped. *)
Theorem downloadFileAsBlob_null_iff_failure
  (e : ZgStorage.env) (rootHash : string) (withProof : bool) (w : Effects.world) :
  exists (dr : ZgStorage.DownloadResult) (w' : Effects.world),
    ZgStorage.downloadFile e rootHash withProof w = (Js.Ok dr, w')
    /\ ZgStatus.downloadFileAsBlob e rootHash withProof w
       = (Js.Ok (if ZgStorage.success dr then ZgStorage.data dr else None), w')
    /\ (ZgStorage.success dr = true -> exists d, ZgStorage.data dr = Some d)
    /\ (fst (ZgStatus.downloadFileAsBlob e rootHash withProof w) = Js.Ok None
        <-> ZgStorage.success dr = false).
Proof.
  destruct (post_total _ _ (post_downloadFile e rootHash withProof) w)
    as (dr & w' & Hrun & Hshape).
  exists dr, w'. split; [ exact Hrun |].
  unfold ZgStatus.downloadFileAsBlob, Effects.try_catch, Effects.bind.
  rewrite Hrun.
  destruct Hshape as [(Hs & _ & d & Hd) | (Hs & Hd & _)]; rewrite Hs, Hd; cbn.
  - split; [ reflexivity |]. split; [ eauto |]. split; discriminate.
  - split; [ reflexivity |]. split; [ discriminate |]. split; reflexivity.
Qed.


